(** * cs_tools: syncers, row-batch utilities and the git-configuration CLI

    A shallow embedding of the parts of [cs_tools] that the specification
    talks about:

    - [cs_tools/utils.py]: [chunks], the [State] attribute bag,
      [deep_update], [anonymize] and [find];
    - [cs_tools/sync/csv/syncer.py]: the CSV syncer ([load], [dump],
      [read_stream], the single-character validator, the dialect
      parameters);
    - [cs_tools/sync/json/syncer.py]: the JSON syncer ([load], [dump], the
      validator of the directory);
    - [cs_tools/cli/tools/git/config.py]: the four git-configuration
      commands.

    Python values are modelled as follows.  A [str] is a [string] and a
    text that is processed character by character is a [list ascii] (the
    characters are the 256 of [ascii]); an [int] is a [Z]; a [dict] used as
    a map is a [gmap]; a record of a table (a dict whose key order matters)
    is an association list; an exception is a constructor of [exn] and a
    call that may raise returns a [result].  The file system is an explicit
    value threaded through every operation.

    The modules [csv] and [json] of the standard library are modelled as
    CPython 3.11 and 3.12 implement them.  Floating-point numbers and the
    limits of the interpreter on memory and on the digits of an [int] that
    is converted to text are left out. *)

From Stdlib Require Import ZArith Ascii String List Lia Bool.
From Stdlib Require Import DecimalString Decimal DecimalZ.
From Equations Require Import Equations.
From stdpp Require Import base option list gmap strings.

Local Open Scope string_scope.
Local Open Scope list_scope.

(** ** Python exceptions and fallible computations *)

Inductive exn : Type :=
| ValueError (msg : string)
| TypeError (msg : string)
| AttributeError (msg : string)
| KeyError (key : string)
| UnboundLocalError (var : string)
| FileNotFoundError (path : string)
| IsADirectoryError (path : string)
| CsvError (msg : string)
| JSONDecodeError (msg : string)
| ValidationError (errors : list (string * string))
| RecursionError
| RuntimeError (msg : string)
| OutsideModel (what : string)
| HTTPStatusError (response : string) (content : string).

Inductive result (A : Type) : Type :=
| Ok (a : A)
| Raise (e : exn).
Arguments Ok {A} a.
Arguments Raise {A} e.

Definition result_bind {A B} (k : A -> result B) (r : result A) : result B :=
  match r with
  | Ok a => k a
  | Raise e => Raise e
  end.

#[global] Instance result_mbind : MBind result := @result_bind.
#[global] Instance result_mret : MRet result := @Ok.

(** Case analysis that keeps the equation, for definitions by well-founded
    recursion. *)
Definition inspect {A : Type} (x : A) : {y : A | x = y} := exist _ x eq_refl.

(** ** The interpreter's limits *)

Module Sys.
(** [sys.maxsize], on a 64-bit build of CPython. *)
Definition maxsize : Z := 2 ^ 63 - 1.
End Sys.

(** ** [cs_tools/utils.py] *)

Module Utils.

(** [it.islice(iterable, n)] checks its stop argument when it is called,
    before an item is asked of [iterable]: an integer below zero or above
    [sys.maxsize] raises [ValueError]. *)
Definition islice_stop (n : Z) : result nat :=
  if ((n <? 0) || (Sys.maxsize <? n))%Z
  then Raise (ValueError
    "Stop argument for islice() must be None or an integer: 0 <= x <= sys.maxsize.")
  else Ok (Z.to_nat n).

Section Chunks.
Context {T : Type}.

(** [tuple(it.islice(iterable, n))] for a stop that [islice_stop] has let
    through: the next [n] items of the iterator and the iterator that
    remains. *)
Definition islice (iterable : list T) (n : nat) : list T * list T :=
  (take n iterable, drop n iterable).

(** The loop [while batch := tuple(it.islice(iterable, n)): yield batch],
    as the list of the batches it yields. *)
Equations? chunks_loop (n : nat) (iterable : list T) : list (list T)
  by wf (length iterable) lt :=
  chunks_loop n iterable with inspect (islice iterable n) := {
    | exist _ (nil, _) _ := nil;
    | exist _ (cons x batch, rest) Hb := cons x batch :: chunks_loop n rest }.
Proof.
  unfold islice in Hb. injection Hb as Hb <-.
  destruct n as [|n]; [discriminate|].
  destruct iterable as [|y ys]; [discriminate|].
  rewrite length_drop. simpl. lia.
Qed.

(** [chunks(iterable, n=n)], consumed to the end.  The generator checks
    [n] when it is first advanced; the first [it.islice(iterable, n)] of
    the loop then checks [n] against [sys.maxsize], and every later one
    sees the same [n]. *)
Definition chunks (iterable : list T) (n : Z) : result (list (list T)) :=
  if (n <? 1)%Z then Raise (ValueError "n must be at least one")
  else stop ← islice_stop n; Ok (chunks_loop stop iterable).

Definition batched := chunks.

(** [chunks] over an iterator whose items come from a computation that may
    raise while the iterator is advanced, consumed to the end: [n] is
    checked, by [chunks] and then by [it.islice], before the first item is
    asked for. *)
Definition chunks_from (source : result (list T)) (n : Z) : result (list (list T)) :=
  if (n <? 1)%Z then Raise (ValueError "n must be at least one")
  else stop ← islice_stop n; iterable ← source; Ok (chunks_loop stop iterable).
End Chunks.

(** [range(n)] *)
Definition range (n : nat) : list Z := map Z.of_nat (seq 0 n).

(** *** [class State]: an object that stores arbitrary state *)
Section State.
Context {Any : Type}.

Record State := { _state : gmap string Any }.

Definition cls_name : string := "State".

(** [State(state)]; [None] gives a fresh, empty dict. *)
Definition __init__ (state : option (gmap string Any)) : State :=
  match state with
  | None => {| _state := ∅ |}
  | Some state => {| _state := state |}
  end.

(** [self._state[key] = value] *)
Definition __setattr__ (self : State) (key : string) (value : Any) : State :=
  {| _state := <[key := value]> (_state self) |}.

(** [return self._state[key]], a [KeyError] turned into an
    [AttributeError]. *)
Definition __getattr__ (self : State) (key : string) : result Any :=
  match _state self !! key with
  | Some value => Ok value
  | None =>
      Raise (AttributeError
               ("'" +:+ cls_name +:+ "' object has no attribute '" +:+ key +:+ "'"))
  end.

(** [del self._state[key]]; the [KeyError] of a missing key is not
    caught. *)
Definition __delattr__ (self : State) (key : string) : result State :=
  match _state self !! key with
  | Some _ => Ok {| _state := delete key (_state self) |}
  | None => Raise (KeyError key)
  end.

(** What an attribute read [obj.key] can evaluate to. *)
Inductive attribute : Type :=
| Stored (value : Any)
| InstanceDict (state : gmap string Any)
| ClassMember (name : string).

(** Python calls [__getattr__] only when the default lookup finds
    nothing.  The default lookup of a [State] object finds the instance
    attribute [_state], which [__init__] stores with
    [super().__setattr__] and which [__setattr__], [__getattr__] and
    [__delattr__] themselves read as [self._state], and the names
    defined on the class and on [object]; [on_class] tells which names
    those are. *)
Variable on_class : string -> bool.

(** The attribute read [self.key]. *)
Definition getattr (self : State) (key : string) : result attribute :=
  if bool_decide (key = "_state") then Ok (InstanceDict (_state self))
  else if on_class key then Ok (ClassMember key)
  else match __getattr__ self key with
       | Ok value => Ok (Stored value)
       | Raise e => Raise e
       end.

(** The attribute assignment [self.key = value]: always [__setattr__]. *)
Definition setattr (self : State) (key : string) (value : Any) : State :=
  __setattr__ self key value.
End State.
Arguments State : clear implicits.
Arguments attribute : clear implicits.

End Utils.

(** ** Python values *)

(** A [datetime] is known by its two renderings: [str(d)] and
    [d.strftime(fmt)]. *)
Record datetime : Type := { dt_str : string; dt_strftime : string -> string }.

(** The scalar values of a table: text, integers, booleans, date/times and
    [None].  (Floating-point numbers are left out.) *)
Inductive scalar : Type :=
| VText (s : string)
| VInt (z : Z)
| VBool (b : bool)
| VDatetime (d : datetime)
| VNull.

(** A record (a [dict] with [str] keys, in insertion order) and
    [TableRows]. *)
Definition record : Type := list (string * scalar).
Definition TableRows : Type := list record.

(** Keys and values of the dicts that the readers build.  [KNone] is the key
    [None], which [csv.DictReader] uses for surplus fields. *)
Inductive pykey : Type :=
| KStr (s : string)
| KNone.

#[global] Instance pykey_eq_dec : EqDecision pykey.
Proof. solve_decision. Defined.

(** What [load] can return: any value that [json.loads] or
    [list(csv.DictReader(...))] builds.  A float is kept as the literal it
    was read from. *)
#[warnings="-register-all"]
Inductive pyval : Type :=
| PyNone
| PyBool (b : bool)
| PyInt (z : Z)
| PyFloat (literal : string)
| PyStr (s : string)
| PyDatetime (d : datetime)
| PyList (items : list pyval)
| PyDict (items : list (pykey * pyval)).

(** [d[key] = value] on a dict kept in insertion order: an existing key keeps
    its place. *)
Fixpoint dict_set {V : Type} (d : list (pykey * V)) (key : pykey) (value : V)
  : list (pykey * V) :=
  match d with
  | [] => [(key, value)]
  | (k, v) :: d' =>
      if decide (k = key) then (k, value) :: d' else (k, v) :: dict_set d' key value
  end.

(** [dict(items)], items inserted from left to right. *)
Definition dict_of_items {V : Type} (items : list (pykey * V)) : list (pykey * V) :=
  fold_left (fun d kv => dict_set d (fst kv) (snd kv)) items [].

Definition py_of_scalar (v : scalar) : pyval :=
  match v with
  | VText s => PyStr s
  | VInt z => PyInt z
  | VBool b => PyBool b
  | VDatetime d => PyDatetime d
  | VNull => PyNone
  end.

Definition py_of_record (r : record) : pyval :=
  PyDict (map (fun kv => (KStr (fst kv), py_of_scalar (snd kv))) r).

Definition py_of_rows (rows : TableRows) : pyval :=
  PyList (map py_of_record rows).

(** [str(i)] for an [int]. *)
Definition str_of_int (z : Z) : string := NilZero.string_of_int (Z.to_int z).

(** [str(v)] *)
Definition py_str (v : scalar) : string :=
  match v with
  | VText s => s
  | VInt z => str_of_int z
  | VBool true => "True"
  | VBool false => "False"
  | VDatetime d => dt_str d
  | VNull => "None"
  end.

(** [rowdict.get(key, restval)] *)
Fixpoint record_get (r : record) (key : string) (restval : scalar) : scalar :=
  match r with
  | [] => restval
  | (k, v) :: r' => if String.eqb k key then v else record_get r' key restval
  end.

Definition keys (r : record) : list string := map fst r.

Definition DQUOTE : ascii := "034"%char.
Definition CR : ascii := "013"%char.
Definition LF : ascii := "010"%char.

(** ** Python's [csv] module

    The writer and the reader of [Modules/_csv.c] and the [DictWriter] and
    [DictReader] classes of [Lib/csv.py] (CPython 3.11 and 3.12), for the
    options that the syncer passes.  [skipinitialspace] and [strict] keep
    their default [False]; [QUOTE_NONNUMERIC] cannot be selected by the
    syncer and is left out.  Text is handled as a list of characters. *)

Module Csv.

Inductive Quoting : Type := QUOTE_MINIMAL | QUOTE_ALL | QUOTE_NONE.

(** The keyword arguments handed to [csv.DictWriter] and
    [csv.DictReader]. *)
Record fmtparams : Type := {
  p_delimiter : string;
  p_doublequote : bool;
  p_escapechar : string;
  p_lineterminator : string;
  p_quotechar : string;
  p_quoting : Quoting }.

Record Dialect : Type := {
  delimiter : ascii;
  doublequote : bool;
  escapechar : ascii;
  lineterminator : list ascii;
  quotechar : ascii;
  quoting : Quoting }.

(** [_set_char] and [_set_char_or_none] applied to a [str]: anything but
    one character is a [TypeError]. *)
Definition set_char (name : string) (src : string) : result ascii :=
  match src with
  | String c EmptyString => Ok c
  | _ => Raise (TypeError (String DQUOTE name +:+ String DQUOTE " must be a 1-character string"))
  end.

(** [dialect_new]: the options are checked in this order. *)
Definition dialect_new (p : fmtparams) : result Dialect :=
  d ← set_char "delimiter" (p_delimiter p);
  e ← set_char "escapechar" (p_escapechar p);
  q ← set_char "quotechar" (p_quotechar p);
  Ok {| delimiter := d;
        doublequote := p_doublequote p;
        escapechar := e;
        lineterminator := list_ascii_of_string (p_lineterminator p);
        quotechar := q;
        quoting := p_quoting p |}.

(** *** The writer *)

(** The characters that [join_append_data] looks at twice. *)
Definition special (dialect : Dialect) (c : ascii) : bool :=
  Ascii.eqb c (delimiter dialect)
  || Ascii.eqb c (escapechar dialect)
  || Ascii.eqb c (quotechar dialect)
  || existsb (Ascii.eqb c) (lineterminator dialect).

(** One character of a field in [join_append_data]: the characters added
    to the record and the new value of [*quoted]. *)
Definition join_append_char (dialect : Dialect) (c : ascii) (quoted : bool)
  : list ascii * bool :=
  if special dialect c then
    match quoting dialect with
    | QUOTE_NONE => ([escapechar dialect; c], quoted)
    | _ =>
        if Ascii.eqb c (quotechar dialect) then
          if doublequote dialect then ([quotechar dialect; c], true)
          else ([escapechar dialect; c], quoted)
        else if Ascii.eqb c (escapechar dialect) then
          ([escapechar dialect; c], quoted)
        else ([c], true)
    end
  else ([c], quoted).

(** The loop of [join_append_data] over the field data. *)
Fixpoint join_append_data (dialect : Dialect) (field : list ascii) (quoted : bool)
  : list ascii * bool :=
  match field with
  | [] => ([], quoted)
  | c :: field' =>
      let '(out, quoted) := join_append_char dialect c quoted in
      let '(rest, quoted) := join_append_data dialect field' quoted in
      (out ++ rest, quoted)
  end.

(** [join_append]: the separator when the field is not the first, then the
    field between quote characters when it ends up quoted. *)
Definition join_append (dialect : Dialect) (rec : list ascii) (num_fields : nat)
  (field : list ascii) (quoted : bool) : list ascii :=
  let '(data, quoted) := join_append_data dialect field quoted in
  rec
  ++ (if num_fields is O then [] else [delimiter dialect])
  ++ (if quoted then [quotechar dialect] else [])
  ++ data
  ++ (if quoted then [quotechar dialect] else []).

(** The text of a field object: a [str] as it is, [None] as nothing, any
    other object through [str()]. *)
Definition field_text (v : scalar) : list ascii :=
  match v with
  | VNull => []
  | v => list_ascii_of_string (py_str v)
  end.

Fixpoint join_fields (dialect : Dialect) (rec : list ascii) (num_fields : nat)
  (fields : list scalar) : list ascii * nat :=
  match fields with
  | [] => (rec, num_fields)
  | v :: fields' =>
      let quoted := match quoting dialect with QUOTE_ALL => true | _ => false end in
      join_fields dialect (join_append dialect rec num_fields (field_text v) quoted)
                  (S num_fields) fields'
  end.

(** [csv_writerow]: the line handed to [write].  A record that is a single
    empty field is written quoted; with [QUOTE_NONE] that is an error. *)
Definition writerow (dialect : Dialect) (fields : list scalar) : result (list ascii) :=
  let '(rec, num_fields) := join_fields dialect [] O fields in
  match num_fields, rec with
  | S _, [] =>
      match quoting dialect with
      | QUOTE_NONE =>
          Raise (CsvError
                   "empty record must be quoted if it contains a single empty field")
      | _ => Ok (join_append dialect [] O [] true ++ lineterminator dialect)
      end
  | _, _ => Ok (rec ++ lineterminator dialect)
  end.

(** [repr(s)] of a field name, for the error message. *)
Definition repr (s : string) : string := "'" +:+ s +:+ "'".

(** [rowdict.keys() - self.fieldnames], in the order of the record. *)
Definition wrong_fields (fieldnames : list string) (rowdict : record) : list string :=
  filter (fun k => negb (existsb (String.eqb k) fieldnames)) (keys rowdict).

(** [DictWriter._dict_to_list] with [extrasaction] at its default, which
    raises, and [restval] at its default, the empty text. *)
Definition _dict_to_list (fieldnames : list string) (rowdict : record)
  : result (list scalar) :=
  match wrong_fields fieldnames rowdict with
  | [] => Ok (map (fun key => record_get rowdict key (VText "")) fieldnames)
  | (_ :: _) as wrong =>
      Raise (ValueError ("dict contains fields not in fieldnames: "
                         +:+ String.concat ", " (map repr wrong)))
  end.

(** [DictWriter.writeheader]: the field names written as a row. *)
Definition writeheader (dialect : Dialect) (fieldnames : list string)
  : result (list ascii) :=
  writerow dialect (map VText fieldnames).

(** [DictWriter.writerows]: the rows are converted and written one after
    the other, so the rows before a failing one have reached the file.
    Returns what was written and the error that stopped it, if any. *)
Fixpoint writerows (dialect : Dialect) (fieldnames : list string)
  (rowdicts : list record) : list ascii * option exn :=
  match rowdicts with
  | [] => ([], None)
  | rowdict :: rowdicts' =>
      match fields ← _dict_to_list fieldnames rowdict; writerow dialect fields with
      | Raise e => ([], Some e)
      | Ok line =>
          let '(rest, err) := writerows dialect fieldnames rowdicts' in
          (line ++ rest, err)
      end
  end.

(** *** The reader *)

Inductive ParserState : Type :=
| START_RECORD | START_FIELD | ESCAPED_CHAR | IN_FIELD | IN_QUOTED_FIELD
| ESCAPE_IN_QUOTED_FIELD | QUOTE_IN_QUOTED_FIELD | EAT_CRNL
| AFTER_ESCAPED_CRNL.

(** The reader object between two characters: the fields of the record
    read so far and the characters of the field being read. *)
Record Reader : Type := {
  state : ParserState;
  fields : list (list ascii);
  field : list ascii }.

(** What [parse_process_char] is fed: a character of the line, or the
    end-of-line marker [EOL] after the last one. *)
Inductive input : Type :=
| Char (c : ascii)
| EOL.

(** [csv.field_size_limit()], never changed by the program. *)
Definition field_limit : Z := 131072.

Definition parse_add_char (self : Reader) (c : ascii) : result Reader :=
  if (field_limit <=? Z.of_nat (length (field self)))%Z then
    Raise (CsvError "field larger than field limit (131072)")
  else Ok {| state := state self; fields := fields self; field := field self ++ [c] |}.

Definition parse_save_field (self : Reader) : Reader :=
  {| state := state self; fields := fields self ++ [field self]; field := [] |}.

Definition set_state (self : Reader) (st : ParserState) : Reader :=
  {| state := st; fields := fields self; field := field self |}.

Definition is_crnl (c : ascii) : bool := Ascii.eqb c LF || Ascii.eqb c CR.

Definition quoting_enabled (dialect : Dialect) : bool :=
  match quoting dialect with QUOTE_NONE => false | _ => true end.

(** [case START_FIELD] *)
Definition start_field (dialect : Dialect) (self : Reader) (c : input) : result Reader :=
  match c with
  | EOL => Ok (set_state (parse_save_field self) START_RECORD)
  | Char c =>
      if is_crnl c then Ok (set_state (parse_save_field self) EAT_CRNL)
      else if Ascii.eqb c (quotechar dialect) && quoting_enabled dialect then
        Ok (set_state self IN_QUOTED_FIELD)
      else if Ascii.eqb c (escapechar dialect) then Ok (set_state self ESCAPED_CHAR)
      else if Ascii.eqb c (delimiter dialect) then Ok (parse_save_field self)
      else self ← parse_add_char self c; Ok (set_state self IN_FIELD)
  end.

(** [case IN_FIELD] *)
Definition in_field (dialect : Dialect) (self : Reader) (c : input) : result Reader :=
  match c with
  | EOL => Ok (set_state (parse_save_field self) START_RECORD)
  | Char c =>
      if is_crnl c then Ok (set_state (parse_save_field self) EAT_CRNL)
      else if Ascii.eqb c (escapechar dialect) then Ok (set_state self ESCAPED_CHAR)
      else if Ascii.eqb c (delimiter dialect) then
        Ok (set_state (parse_save_field self) START_FIELD)
      else parse_add_char self c
  end.

Definition parse_process_char (dialect : Dialect) (self : Reader) (c : input)
  : result Reader :=
  match state self with
  | START_RECORD =>
      match c with
      | EOL => Ok self
      | Char c' =>
          if is_crnl c' then Ok (set_state self EAT_CRNL)
          else start_field dialect (set_state self START_FIELD) c
      end
  | START_FIELD => start_field dialect self c
  | ESCAPED_CHAR =>
      match c with
      | EOL => self ← parse_add_char self LF; Ok (set_state self IN_FIELD)
      | Char c =>
          self ← parse_add_char self c;
          Ok (set_state self (if is_crnl c then AFTER_ESCAPED_CRNL else IN_FIELD))
      end
  | AFTER_ESCAPED_CRNL =>
      match c with
      | EOL => Ok self
      | Char _ => in_field dialect self c
      end
  | IN_FIELD => in_field dialect self c
  | IN_QUOTED_FIELD =>
      match c with
      | EOL => Ok self
      | Char c =>
          if Ascii.eqb c (escapechar dialect) then Ok (set_state self ESCAPE_IN_QUOTED_FIELD)
          else if Ascii.eqb c (quotechar dialect) && quoting_enabled dialect then
            Ok (set_state self
                  (if doublequote dialect then QUOTE_IN_QUOTED_FIELD else IN_FIELD))
          else parse_add_char self c
      end
  | ESCAPE_IN_QUOTED_FIELD =>
      self ← parse_add_char self (match c with EOL => LF | Char c => c end);
      Ok (set_state self IN_QUOTED_FIELD)
  | QUOTE_IN_QUOTED_FIELD =>
      match c with
      | EOL => Ok (set_state (parse_save_field self) START_RECORD)
      | Char c =>
          if quoting_enabled dialect && Ascii.eqb c (quotechar dialect) then
            self ← parse_add_char self c; Ok (set_state self IN_QUOTED_FIELD)
          else if Ascii.eqb c (delimiter dialect) then
            Ok (set_state (parse_save_field self) START_FIELD)
          else if is_crnl c then Ok (set_state (parse_save_field self) EAT_CRNL)
          else self ← parse_add_char self c; Ok (set_state self IN_FIELD)
      end
  | EAT_CRNL =>
      match c with
      | EOL => Ok (set_state self START_RECORD)
      | Char c =>
          if is_crnl c then Ok self
          else Raise (CsvError "new-line character seen in unquoted field - do you need to open the file with newline=''?")
      end
  end.

(** The characters of one line, then [EOL]. *)
Fixpoint parse_line (dialect : Dialect) (self : Reader) (line : list ascii)
  : result Reader :=
  match line with
  | [] => parse_process_char dialect self EOL
  | c :: line' =>
      self ← parse_process_char dialect self (Char c);
      parse_line dialect self line'
  end.

(** [parse_reset] *)
Definition parse_reset : Reader :=
  {| state := START_RECORD; fields := []; field := [] |}.

(** [list(reader)]: [Reader_iternext] called until the lines run out.
    [self] is the reader inside the current call, which takes lines until
    the state is [START_RECORD] again.  When the lines run out inside a
    record, the record is returned if a field is being read, and dropped
    otherwise. *)
Fixpoint reader_rows (dialect : Dialect) (self : Reader) (lines : list (list ascii))
  : result (list (list (list ascii))) :=
  match lines with
  | [] =>
      match field self, state self with
      | [], IN_QUOTED_FIELD | _ :: _, _ => Ok [fields (parse_save_field self)]
      | [], _ => Ok []
      end
  | line :: lines' =>
      self ← parse_line dialect self line;
      match state self with
      | START_RECORD =>
          rows ← reader_rows dialect parse_reset lines';
          Ok (fields self :: rows)
      | _ => reader_rows dialect self lines'
      end
  end.

(** The lines that iterating a file opened with [newline=""] gives: split
    after [\n], [\r\n] and a lone [\r], line endings kept. *)
Fixpoint splitlines (line : list ascii) (text : list ascii) : list (list ascii) :=
  match text with
  | [] => match line with [] => [] | _ :: _ => [line] end
  | c :: text' =>
      if Ascii.eqb c LF then (line ++ [c]) :: splitlines [] text'
      else if Ascii.eqb c CR then
        match text' with
        | c' :: text'' =>
            if Ascii.eqb c' LF then (line ++ [c; c']) :: splitlines [] text''
            else (line ++ [c]) :: splitlines [] text'
        | [] => [line ++ [c]]
        end
      else splitlines (line ++ [c]) text'
  end.

(** [csv.reader(f, ...)] read to the end. *)
Definition reader (dialect : Dialect) (text : list ascii)
  : result (list (list (list ascii))) :=
  reader_rows dialect parse_reset (splitlines [] text).

(** The dict that [DictReader.__next__] builds from a row, with
    [restkey=None] and [restval=None]. *)
Definition row_dict (fieldnames : list string) (row : list string) : pyval :=
  let d := dict_of_items (zip (map KStr fieldnames) (map PyStr row)) in
  let lf := length fieldnames in
  let lr := length row in
  if (lf <? lr)%nat then PyDict (dict_set d KNone (PyList (map PyStr (drop lf row))))
  else PyDict (fold_left (fun d key => dict_set d (KStr key) PyNone) (drop lr fieldnames) d).

(** [list(csv.DictReader(f, ...))]: the first row gives the field
    names, empty rows after it are passed over. *)
Definition DictReader (dialect : Dialect) (text : list ascii) : result (list pyval) :=
  rows ← reader dialect text;
  match map (map string_of_list_ascii) rows with
  | [] => Ok []
  | fieldnames :: rows =>
      Ok (map (row_dict fieldnames) (filter (fun row => negb (bool_decide (row = []))) rows))
  end.

End Csv.

(** ** Python's [json] module

    [json.dumps] with its default separators and [json.loads] with its
    default decoder ([Lib/json/encoder.py], [Lib/json/decoder.py],
    [Lib/json/scanner.py] and their C accelerators).  Characters are the 256
    of [ascii]; an escape of four hexadecimal digits that names a character
    beyond them is answered with [OutsideModel]. *)

Module Json.

Definition BACKSLASH : ascii := "092"%char.

Definition hexdigit (n : nat) : ascii :=
  nth n (list_ascii_of_string "0123456789abcdef") "0"%char.

(** The escape of a character by its code, in four hexadecimal digits. *)
Definition escape_u (c : ascii) : list ascii :=
  let n := nat_of_ascii c in
  [BACKSLASH; "u"; "0"; "0"; hexdigit (n / 16); hexdigit (n mod 16)]%char.

(** [ESCAPE_DCT] and the two regular expressions [ESCAPE] and
    [ESCAPE_ASCII]: what one character of a string is written as. *)
Definition encode_char (ensure_ascii : bool) (c : ascii) : list ascii :=
  if Ascii.eqb c BACKSLASH then [BACKSLASH; BACKSLASH]
  else if Ascii.eqb c DQUOTE then [BACKSLASH; DQUOTE]
  else if Ascii.eqb c "008" then [BACKSLASH; "b"%char]
  else if Ascii.eqb c "012" then [BACKSLASH; "f"%char]
  else if Ascii.eqb c LF then [BACKSLASH; "n"%char]
  else if Ascii.eqb c CR then [BACKSLASH; "r"%char]
  else if Ascii.eqb c "009" then [BACKSLASH; "t"%char]
  else if (nat_of_ascii c <? 32)%nat then escape_u c
  else if ensure_ascii && (126 <? nat_of_ascii c)%nat then escape_u c
  else [c].

(** [encode_basestring_ascii] and [encode_basestring] *)
Definition encode_basestring (ensure_ascii : bool) (s : string) : list ascii :=
  DQUOTE :: flat_map (encode_char ensure_ascii) (list_ascii_of_string s) ++ [DQUOTE].

(** [sep.join(items)] *)
Fixpoint join (sep : list ascii) (items : list (list ascii)) : list ascii :=
  match items with
  | [] => []
  | [item] => item
  | item :: items' => item ++ sep ++ join sep items'
  end.

Definition item_separator : list ascii := list_ascii_of_string ", ".
Definition key_separator : list ascii := list_ascii_of_string ": ".

Definition encode_scalar (ensure_ascii : bool) (v : scalar) : result (list ascii) :=
  match v with
  | VText s => Ok (encode_basestring ensure_ascii s)
  | VInt z => Ok (list_ascii_of_string (str_of_int z))
  | VBool true => Ok (list_ascii_of_string "true")
  | VBool false => Ok (list_ascii_of_string "false")
  | VNull => Ok (list_ascii_of_string "null")
  | VDatetime _ => Raise (TypeError "Object of type datetime is not JSON serializable")
  end.

Fixpoint encode_items (ensure_ascii : bool) (r : record) : result (list (list ascii)) :=
  match r with
  | [] => Ok []
  | (k, v) :: r' =>
      value ← encode_scalar ensure_ascii v;
      rest ← encode_items ensure_ascii r';
      Ok ((encode_basestring ensure_ascii k ++ key_separator ++ value) :: rest)
  end.

Definition encode_record (ensure_ascii : bool) (r : record) : result (list ascii) :=
  items ← encode_items ensure_ascii r;
  Ok ("{"%char :: join item_separator items ++ ["}"%char]).

Fixpoint encode_records (ensure_ascii : bool) (rows : TableRows)
  : result (list (list ascii)) :=
  match rows with
  | [] => Ok []
  | r :: rows' =>
      item ← encode_record ensure_ascii r;
      rest ← encode_records ensure_ascii rows';
      Ok (item :: rest)
  end.

(** [json.dumps(data, ensure_ascii=ensure_ascii)] for a list of records.
    The text is complete before anything is done with it. *)
Definition dumps (data : TableRows) (ensure_ascii : bool) : result (list ascii) :=
  items ← encode_records ensure_ascii data;
  Ok ("["%char :: join item_separator items ++ ["]"%char]).

(** *** The decoder *)

Definition is_ws (c : ascii) : bool :=
  Ascii.eqb c " " || Ascii.eqb c "009" || Ascii.eqb c LF || Ascii.eqb c CR.

(** [WHITESPACE.match(s, end).end()] *)
Fixpoint skip_ws (s : list ascii) : list ascii :=
  match s with
  | c :: s' => if is_ws c then skip_ws s' else s
  | [] => []
  end.

Definition hexval (c : ascii) : option nat :=
  let n := nat_of_ascii c in
  if (48 <=? n)%nat && (n <=? 57)%nat then Some (n - 48)%nat
  else if (97 <=? n)%nat && (n <=? 102)%nat then Some (n - 87)%nat
  else if (65 <=? n)%nat && (n <=? 70)%nat then Some (n - 55)%nat
  else None.

(** The [BACKSLASH] table of the decoder. *)
Definition unescape (esc : ascii) : option ascii :=
  if Ascii.eqb esc DQUOTE then Some DQUOTE
  else if Ascii.eqb esc BACKSLASH then Some BACKSLASH
  else if Ascii.eqb esc "/" then Some "/"%char
  else if Ascii.eqb esc "b" then Some "008"%char
  else if Ascii.eqb esc "f" then Some "012"%char
  else if Ascii.eqb esc "n" then Some LF
  else if Ascii.eqb esc "r" then Some CR
  else if Ascii.eqb esc "t" then Some "009"%char
  else None.

(** [scanstring(s, end, strict=True)], after the opening quote: the
    decoded string and the text after the closing quote. *)
Fixpoint scanstring (s : list ascii) (chunks : list ascii)
  : result (list ascii * list ascii) :=
  match s with
  | [] => Raise (JSONDecodeError "Unterminated string starting at")
  | c :: s' =>
      if Ascii.eqb c DQUOTE then Ok (chunks, s')
      else if Ascii.eqb c BACKSLASH then
        match s' with
        | [] => Raise (JSONDecodeError "Unterminated string starting at")
        | esc :: s'' =>
            if Ascii.eqb esc "u" then
              match s'' with
              | h1 :: h2 :: h3 :: h4 :: s''' =>
                  match hexval h1, hexval h2, hexval h3, hexval h4 with
                  | Some n1, Some n2, Some n3, Some n4 =>
                      if (n1 =? 0)%nat && (n2 =? 0)%nat then
                        scanstring s''' (chunks ++ [ascii_of_nat (16 * n3 + n4)])
                      else Raise (OutsideModel "character above 255")
                  | _, _, _, _ => Raise (JSONDecodeError "Invalid unicode escape")
                  end
              | _ => Raise (JSONDecodeError "Invalid unicode escape")
              end
            else
              match unescape esc with
              | Some char => scanstring s'' (chunks ++ [char])
              | None => Raise (JSONDecodeError "Invalid escape")
              end
        end
      else if (nat_of_ascii c <? 32)%nat then
        Raise (JSONDecodeError "Invalid control character at")
      else scanstring s' (chunks ++ [c])
  end.

Definition is_digit (c : ascii) : bool :=
  (48 <=? nat_of_ascii c)%nat && (nat_of_ascii c <=? 57)%nat.

(** The longest run of digits at the front. *)
Fixpoint span_digits (s : list ascii) : list ascii * list ascii :=
  match s with
  | c :: s' =>
      if is_digit c then let '(ds, rest) := span_digits s' in (c :: ds, rest)
      else ([], s)
  | [] => ([], [])
  end.

(** The integer part of [NUMBER_RE]: an optional sign, then a zero or a
    digit that is not zero and the digits after it. *)
Definition match_integer (s : list ascii) : option (list ascii * list ascii) :=
  let '(sign, s1) := match s with
                     | c :: s' => if Ascii.eqb c "-" then ([c], s') else ([], s)
                     | [] => ([], [])
                     end in
  match s1 with
  | c :: s2 =>
      if Ascii.eqb c "0" then Some (sign ++ [c], s2)
      else if is_digit c then
        let '(ds, rest) := span_digits s2 in Some (sign ++ c :: ds, rest)
      else None
  | [] => None
  end.

(** The optional fraction of [NUMBER_RE]: a point and at least one digit. *)
Definition match_frac (s : list ascii) : list ascii * list ascii :=
  match s with
  | c :: s' =>
      if Ascii.eqb c "." then
        match span_digits s' with
        | ([], _) => ([], s)
        | (ds, rest) => (c :: ds, rest)
        end
      else ([], s)
  | [] => ([], [])
  end.

(** The optional exponent of [NUMBER_RE]. *)
Definition match_exp (s : list ascii) : list ascii * list ascii :=
  match s with
  | c :: s' =>
      if Ascii.eqb c "e" || Ascii.eqb c "E" then
        let '(sign, s1) := match s' with
                           | c' :: s'' =>
                               if Ascii.eqb c' "-" || Ascii.eqb c' "+" then ([c'], s'')
                               else ([], s')
                           | [] => ([], [])
                           end in
        match span_digits s1 with
        | ([], _) => ([], s)
        | (ds, rest) => (c :: sign ++ ds, rest)
        end
      else ([], s)
  | [] => ([], [])
  end.

(** [int(integer)] for text that the integer part matched. *)
Definition parse_int (integer : list ascii) : Z :=
  match NilZero.int_of_string (string_of_list_ascii integer) with
  | Some d => Z.of_int d
  | None => 0%Z
  end.

(** [match_number] and the conversion of what it matched: an [int] when
    there is neither fraction nor exponent, a [float] otherwise. *)
Definition match_number (s : list ascii) : option (pyval * list ascii) :=
  match match_integer s with
  | None => None
  | Some (integer, s1) =>
      let '(frac, s2) := match_frac s1 in
      let '(exp, s3) := match_exp s2 in
      match frac, exp with
      | [], [] => Some (PyInt (parse_int integer), s3)
      | _, _ => Some (PyFloat (string_of_list_ascii (integer ++ frac ++ exp)), s3)
      end
  end.

(** [s[idx:idx + n] == word]: the text after the word, when it is there. *)
Fixpoint after_word (word : list ascii) (s : list ascii) : option (list ascii) :=
  match word, s with
  | [], _ => Some s
  | w :: word', c :: s' => if Ascii.eqb w c then after_word word' s' else None
  | _ :: _, [] => None
  end.

(** The values, the objects and the arrays call one another; [fuel] bounds
    the depth of the calls, and running out of it is Python's
    [RecursionError]. *)
Fixpoint scan_once (fuel : nat) (s : list ascii) : result (pyval * list ascii) :=
  match fuel with
  | O => Raise RecursionError
  | S fuel =>
      match s with
      | [] => Raise (JSONDecodeError "Expecting value")
      | nextchar :: s' =>
          if Ascii.eqb nextchar DQUOTE then
            '(str, rest) ← scanstring s' [];
            Ok (PyStr (string_of_list_ascii str), rest)
          else if Ascii.eqb nextchar "{" then
            (* JSONObject: the first key, or the empty object *)
            match s' with
            | c :: s'' =>
                if Ascii.eqb c DQUOTE then object_pairs fuel s'' []
                else match skip_ws s' with
                     | c :: s'' =>
                         if Ascii.eqb c "}" then Ok (PyDict [], s'')
                         else if Ascii.eqb c DQUOTE then object_pairs fuel s'' []
                         else Raise (JSONDecodeError
                                       "Expecting property name enclosed in double quotes")
                     | [] => Raise (JSONDecodeError
                                      "Expecting property name enclosed in double quotes")
                     end
            | [] => Raise (JSONDecodeError
                             "Expecting property name enclosed in double quotes")
            end
          else if Ascii.eqb nextchar "[" then
            (* JSONArray: the first value, or the empty array *)
            match skip_ws s' with
            | c :: s'' =>
                if Ascii.eqb c "]" then Ok (PyList [], s'')
                else array_values fuel (c :: s'') []
            | [] => Raise (JSONDecodeError "Expecting value")
            end
          else
            match after_word (list_ascii_of_string "null") s,
                  after_word (list_ascii_of_string "true") s,
                  after_word (list_ascii_of_string "false") s with
            | Some rest, _, _ => Ok (PyNone, rest)
            | _, Some rest, _ => Ok (PyBool true, rest)
            | _, _, Some rest => Ok (PyBool false, rest)
            | None, None, None =>
                match match_number s with
                | Some res => Ok res
                | None =>
                    match after_word (list_ascii_of_string "NaN") s,
                          after_word (list_ascii_of_string "Infinity") s,
                          after_word (list_ascii_of_string "-Infinity") s with
                    | Some rest, _, _ => Ok (PyFloat "nan", rest)
                    | _, Some rest, _ => Ok (PyFloat "inf", rest)
                    | _, _, Some rest => Ok (PyFloat "-inf", rest)
                    | None, None, None => Raise (JSONDecodeError "Expecting value")
                    end
                end
            end
      end
  end

(** The loop of [JSONObject], entered after the opening quote of a key. *)
with object_pairs (fuel : nat) (s : list ascii) (pairs : list (pykey * pyval))
  : result (pyval * list ascii) :=
  match fuel with
  | O => Raise RecursionError
  | S fuel =>
      '(key, s) ← scanstring s [];
      match skip_ws s with
      | c :: s =>
          if Ascii.eqb c ":" then
            '(value, s) ← scan_once fuel (skip_ws s);
            let pairs := pairs ++ [(KStr (string_of_list_ascii key), value)] in
            match skip_ws s with
            | c :: s =>
                if Ascii.eqb c "}" then Ok (PyDict (dict_of_items pairs), s)
                else if Ascii.eqb c "," then
                  match skip_ws s with
                  | c :: s =>
                      if Ascii.eqb c DQUOTE then object_pairs fuel s pairs
                      else Raise (JSONDecodeError
                                    "Expecting property name enclosed in double quotes")
                  | [] => Raise (JSONDecodeError
                                   "Expecting property name enclosed in double quotes")
                  end
                else Raise (JSONDecodeError "Expecting ',' delimiter")
            | [] => Raise (JSONDecodeError "Expecting ',' delimiter")
            end
          else Raise (JSONDecodeError "Expecting ':' delimiter")
      | [] => Raise (JSONDecodeError "Expecting ':' delimiter")
      end
  end

(** The loop of [JSONArray], entered at a value. *)
with array_values (fuel : nat) (s : list ascii) (values : list pyval)
  : result (pyval * list ascii) :=
  match fuel with
  | O => Raise RecursionError
  | S fuel =>
      '(value, s) ← scan_once fuel s;
      let values := values ++ [value] in
      match skip_ws s with
      | c :: s =>
          if Ascii.eqb c "]" then Ok (PyList values, s)
          else if Ascii.eqb c "," then array_values fuel (skip_ws s) values
          else Raise (JSONDecodeError "Expecting ',' delimiter")
      | [] => Raise (JSONDecodeError "Expecting ',' delimiter")
      end
  end.

(** [json.loads(s)]: one value, white space around it, nothing else. *)
Definition loads (s : list ascii) : result pyval :=
  '(obj, rest) ← scan_once (S (length s)) (skip_ws s);
  match skip_ws rest with
  | [] => Ok obj
  | _ :: _ => Raise (JSONDecodeError "Extra data")
  end.

End Json.

(** ** The file system and the log

    Paths are strings.  A file holds text, a list of characters: what is
    written with an encoding and read back with the same one.  Log records
    go to [log], whatever the handlers do with them. *)

Record World : Type := {
  files : gmap string (list ascii);
  dirs : gset string;
  log : list string }.

Module Path.

(** [directory.joinpath(name)] for a relative [name]. *)
Definition joinpath (directory name : string) : string := directory +:+ "/" +:+ name.

(** The text before the last separator, when there is a separator. *)
Fixpoint before_last_sep (p : list ascii) : option (list ascii) :=
  match p with
  | [] => None
  | c :: p' =>
      match before_last_sep p' with
      | Some d => Some (c :: d)
      | None => if Ascii.eqb c "/" then Some [] else None
      end
  end.

(** [path.parent] *)
Definition parent (p : string) : string :=
  match before_last_sep (list_ascii_of_string p) with
  | Some [] => "/"
  | Some d => string_of_list_ascii d
  | None => "."
  end.

Definition is_dir (w : World) (p : string) : bool := bool_decide (p ∈ dirs w).
Definition is_file (w : World) (p : string) : bool := bool_decide (is_Some (files w !! p)).
Definition exists_ (w : World) (p : string) : bool := is_file w p || is_dir w p.

Inductive mode : Type := mode_r | mode_w | mode_a.

Definition set_file (w : World) (p : string) (text : list ascii) : World :=
  {| files := <[p := text]> (files w); dirs := dirs w; log := log w |}.

(** [path.open(mode)]: what opening does to the file system.  Reading
    needs the file; writing needs the directory above it, creates the file
    and, in mode [w], empties it. *)
Definition open (w : World) (p : string) (m : mode) : result World :=
  if is_dir w p then Raise (IsADirectoryError p)
  else match m, files w !! p with
       | mode_r, None => Raise (FileNotFoundError p)
       | mode_r, Some _ => Ok w
       | mode_w, _ =>
           if is_dir w (parent p) then Ok (set_file w p [])
           else Raise (FileNotFoundError p)
       | mode_a, Some _ => Ok w
       | mode_a, None =>
           if is_dir w (parent p) then Ok (set_file w p [])
           else Raise (FileNotFoundError p)
       end.

(** [f.read()] on a file that is open *)
Definition read (w : World) (p : string) : list ascii := default [] (files w !! p).

(** [f.write(text)]: text added at the end of the open file. *)
Definition write (w : World) (p : string) (text : list ascii) : World :=
  set_file w p (read w p ++ text).

(** [path.resolve().as_posix()]: the paths of the model are absolute and
    free of links. *)
Definition resolve (p : string) : string := p.

Definition add_dir (w : World) (p : string) : World :=
  {| files := files w; dirs := {[p]} ∪ dirs w; log := log w |}.

(** [path.mkdir(parents=True, exist_ok=True)]: [os.mkdir], and when the
    directory above is missing, that one first and then [os.mkdir] again.
    [fuel] bounds the number of directories above.  A file where a
    directory is needed (Python's [FileExistsError] and
    [NotADirectoryError]) is outside the model. *)
Fixpoint mkdir_parents (fuel : nat) (w : World) (p : string) : result World :=
  if is_dir w p then Ok w
  else if is_file w p then Raise (OutsideModel "a file where a directory is to be made")
  else if is_dir w (parent p) then Ok (add_dir w p)
  else if is_file w (parent p) then Raise (OutsideModel "a file where a directory is needed")
  else if String.eqb (parent p) p then Raise (FileNotFoundError p)
  else match fuel with
       | O => Raise RecursionError
       | S fuel => w ← mkdir_parents fuel w (parent p); Ok (add_dir w p)
       end.

Definition mkdir (w : World) (p : string) : result World :=
  mkdir_parents (String.length p) w p.

End Path.

Definition warning (w : World) (msg : string) : World :=
  {| files := files w; dirs := dirs w; log := log w ++ [msg] |}.

(** ** [cs_tools/sync/utils.py] *)

Module SyncUtils.

(** Modelled from the spec: [format_datetime_values], whose module is not
    part of the sources at hand.  "Given a record and a target format
    string, returns a copy of the record with every date/time-valued field
    rendered as text in that format; non-datetime fields pass through
    unchanged." *)
Definition format_datetime_value (dt_format : string) (v : scalar) : scalar :=
  match v with
  | VDatetime d => VText (dt_strftime d dt_format)
  | v => v
  end.

Definition format_datetime_values (r : record) (dt_format : string) : record :=
  map (fun kv => (fst kv, format_datetime_value dt_format (snd kv))) r.

End SyncUtils.

(** ** [cs_tools/sync/csv/syncer.py] *)

Module CSV.

Inductive quoting_literal : Type := ALL | MINIMAL.
Inductive strategy_literal : Type := APPEND | OVERWRITE.

(** The options a CSV syncer is constructed from. *)
Record options : Type := {
  o_directory : string;
  o_delimiter : string;
  o_escape_character : string;
  o_quoting : quoting_literal;
  o_date_time_format : string;
  o_header : bool;
  o_save_strategy : strategy_literal }.

(** The defaults of the class body.  [DATETIME_FORMAT_TSLOAD] is a
    constant of [cs_tools/sync/utils.py]. *)
Definition default_options (directory DATETIME_FORMAT_TSLOAD : string) : options :=
  {| o_directory := directory;
     o_delimiter := "|";
     o_escape_character := "\";
     o_quoting := MINIMAL;
     o_date_time_format := DATETIME_FORMAT_TSLOAD;
     o_header := true;
     o_save_strategy := OVERWRITE |}.

(** A syncer instance: the validated fields and the private
    [_written_header] dict. *)
Record CSV : Type := {
  directory : string;
  delimiter : string;
  escape_character : string;
  quoting : Csv.Quoting;
  date_time_format : string;
  header : bool;
  save_strategy : strategy_literal;
  _written_header : gmap string bool }.

(** [_only_single_characters_allowed(value, info)] *)
Definition _only_single_characters_allowed (value : string) (field_name : string)
  : result string :=
  if (1 <? String.length value)%nat then
    Raise (ValueError (field_name +:+ " must be a one-character string"))
  else Ok value.

(** [_map_to_csv_literals(value)] *)
Definition _map_to_csv_literals (value : quoting_literal) : Csv.Quoting :=
  match value with
  | ALL => Csv.QUOTE_ALL
  | MINIMAL => Csv.QUOTE_MINIMAL
  end.

(** [Union[pydantic.DirectoryPath, pydantic.NewPath]]: an existing
    directory, or a path that does not exist in a directory that does. *)
Definition directory_ok (w : World) (p : string) : bool :=
  Path.is_dir w p || (negb (Path.exists_ w p) && Path.is_dir w (Path.parent p)).

(** The error a field validator adds to the [ValidationError]. *)
Definition field_errors {A} (field_name : string) (r : result A) : list (string * string) :=
  match r with
  | Raise (ValueError msg) => [(field_name, "Value error, " +:+ msg)]
  | _ => []
  end.

(** Constructing a syncer from its options: every field is validated, the errors of all fields
    are raised together as one [ValidationError], and nothing is written
    anywhere. *)
Definition new (w : World) (o : options) : result CSV :=
  let errors :=
    (if directory_ok w (o_directory o) then []
     else [("directory", "Input should be an existing directory or a new path")])
    ++ field_errors "delimiter"
         (_only_single_characters_allowed (o_delimiter o) "delimiter")
    ++ field_errors "escape_character"
         (_only_single_characters_allowed (o_escape_character o) "escape_character") in
  match errors with
  | [] =>
      Ok {| directory := o_directory o;
            delimiter := o_delimiter o;
            escape_character := o_escape_character o;
            quoting := _map_to_csv_literals (o_quoting o);
            date_time_format := o_date_time_format o;
            header := o_header o;
            save_strategy := o_save_strategy o;
            _written_header := ∅ |}
  | _ :: _ => Raise (ValidationError errors)
  end.

(** [dialect_and_format_parameters()] *)
Definition dialect_and_format_parameters (self : CSV) : Csv.fmtparams :=
  {| Csv.p_delimiter := delimiter self;
     Csv.p_doublequote := false;
     Csv.p_escapechar := escape_character self;
     Csv.p_lineterminator := String CR (String LF "");
     Csv.p_quotechar := String DQUOTE "";
     Csv.p_quoting := quoting self |}.

Definition strategy_name (s : strategy_literal) : string :=
  match s with APPEND => "APPEND" | OVERWRITE => "OVERWRITE" end.

Definition __repr__ (self : CSV) : string :=
  "<CSVSyncer path='" +:+ directory self +:+ "' in '"
  +:+ strategy_name (save_strategy self) +:+ "' mode>".

Definition path_of (self : CSV) (filename : string) : string :=
  Path.joinpath (directory self) (filename +:+ ".csv").

(** [self._written_header[filename] = True] *)
Definition mark_header (self : CSV) (filename : string) : CSV :=
  {| directory := directory self;
     delimiter := delimiter self;
     escape_character := escape_character self;
     quoting := quoting self;
     date_time_format := date_time_format self;
     header := header self;
     save_strategy := save_strategy self;
     _written_header := <[filename := true]> (_written_header self) |}.

(** [read_stream(filename, batch=batch)], consumed to the end: the batches
    of rows.  [utils.batched] asks the reader for rows only after it has
    checked the batch size. *)
Definition read_stream (self : CSV) (w : World) (filename : string) (batch : Z)
  : result (list (list pyval)) :=
  let path := path_of self filename in
  if negb (Path.exists_ w path) then Ok []
  else
    w ← Path.open w path Path.mode_r;
    dialect ← Csv.dialect_new (dialect_and_format_parameters self);
    Utils.chunks_from (Csv.DictReader dialect (Path.read w path)) batch.

(** [load(filename)] *)
Definition load (self : CSV) (w : World) (filename : string) : result pyval :=
  let path := path_of self filename in
  if negb (Path.exists_ w path) then Ok (PyList [])
  else
    w ← Path.open w path Path.mode_r;
    dialect ← Csv.dialect_new (dialect_and_format_parameters self);
    data ← Csv.DictReader dialect (Path.read w path);
    Ok (PyList data).

(** [dump(filename, data=data)]: the syncer and the world after the call,
    and how the call ended. *)
Definition dump (self : CSV) (w : World) (filename : string) (data : TableRows)
  : CSV * World * result unit :=
  match data with
  | [] => (self, warning w ("no data to write to syncer " +:+ __repr__ self), Ok tt)
  | first :: _ =>
      let path := path_of self filename in
      let header_ := keys first in
      let mode := match save_strategy self with
                  | APPEND => Path.mode_a
                  | OVERWRITE => Path.mode_w
                  end in
      match Path.open w path mode with
      | Raise e => (self, w, Raise e)
      | Ok w =>
          match Csv.dialect_new (dialect_and_format_parameters self) with
          | Raise e => (self, w, Raise e)
          | Ok dialect =>
              let formatted :=
                map (fun r => SyncUtils.format_datetime_values r (date_time_format self))
                    data in
              let write_rows (self : CSV) (w : World) :=
                let '(text, err) := Csv.writerows dialect header_ formatted in
                (self, Path.write w path text,
                 match err with None => Ok tt | Some e => Raise e end) in
              if header self && negb (default false (_written_header self !! filename)) then
                let self := mark_header self filename in
                match Csv.writeheader dialect header_ with
                | Raise e => (self, w, Raise e)
                | Ok line => write_rows self (Path.write w path line)
                end
              else write_rows self w
          end
      end
  end.

End CSV.

(** ** [cs_tools/sync/json/syncer.py] *)

Module JSON.

Inductive encoding_literal : Type := UTF_8.

Record JSON : Type := {
  directory : string;
  encoding : option encoding_literal }.

(** [_ensure_directory_exists(value)]: the world after the call and what
    the call returns. *)
Definition _ensure_directory_exists (w : World) (value : string) : World * result string :=
  if Path.is_file w value then
    (w, Raise (ValueError (Path.resolve value +:+ " is a file, not a directory.")))
  else if negb (Path.exists_ w value) then
    let w := warning w ("The directory '" +:+ Path.resolve value
                        +:+ "' does not yet exist, creating it..") in
    match Path.mkdir w value with
    | Ok w' => (w', Ok value)
    | Raise e => (w, Raise e)
    end
  else (w, Ok value).

(** Constructing a syncer: the type of the field [directory] is checked
    first (the same as for the CSV syncer), then the validator runs; its
    [ValueError] is raised as a [ValidationError], any other exception as
    it is. *)
Definition new (w : World) (directory : string) (encoding : option encoding_literal)
  : World * result JSON :=
  if CSV.directory_ok w directory then
    match _ensure_directory_exists w directory with
    | (w, Ok value) => (w, Ok {| directory := value; encoding := encoding |})
    | (w, Raise (ValueError msg)) =>
        (w, Raise (ValidationError
                     (CSV.field_errors "directory" (Raise (ValueError msg) : result string))))
    | (w, Raise e) => (w, Raise e)
    end
  else
    (w, Raise (ValidationError
                 [("directory", "Input should be an existing directory or a new path")])).

Definition __repr__ (self : JSON) : string :=
  "<JSONSyncer directory=" +:+ directory self +:+ "'>".

(** [make_filename(filename)] *)
Definition make_filename (self : JSON) (filename : string) : string :=
  Path.joinpath (directory self) (filename +:+ ".json").

(** [load(filename)]: [read_text] opens the file whether it is there or
    not. *)
Definition load (self : JSON) (w : World) (filename : string) : result pyval :=
  let path := make_filename self filename in
  w ← Path.open w path Path.mode_r;
  let text := Path.read w path in
  match text with
  | [] => Ok (PyList [])
  | _ :: _ => Json.loads text
  end.

(** [dump(filename, data=data)] *)
Definition dump (self : JSON) (w : World) (filename : string) (data : TableRows)
  : World * result unit :=
  match data with
  | [] => (warning w ("no data to write to syncer " +:+ __repr__ self), Ok tt)
  | _ :: _ =>
      let ensure_ascii := match encoding self with None => true | Some _ => false end in
      match Json.dumps data ensure_ascii with
      | Raise e => (w, Raise e)
      | Ok text =>
          let path := make_filename self filename in
          match Path.open w path Path.mode_w with
          | Raise e => (w, Raise e)
          | Ok w => (Path.write w path text, Ok tt)
          end
      end
  end.

End JSON.

(** ** [cs_tools/cli/tools/git/config.py] *)

Module GitConfig.

(** What [rich_console.print] is given. *)
Inductive printed : Type :=
| Line (text : string)
| CenteredTable (title : string) (rows : list (string * string)).

(** A response of the remote API: [str(r)] and [r.json()]. *)
Record Response (J : Type) : Type := { text_of : string; json : J }.
Arguments text_of {J} r.
Arguments json {J} r.

(** The [ctx.obj.thoughtspot] handle: switching the org and the four calls
    of [api_v2], each of which returns a response or raises. *)
Record ThoughtSpot : Type := {
  org_switch : string -> result unit;
  vcs_git_config_create :
    string -> string -> string -> option string -> option (list string)
    -> option string -> bool -> option string -> result (Response record);
  vcs_git_config_update :
    option string -> option string -> option string -> option (list string)
    -> option string -> bool -> option string -> result (Response record);
  vcs_git_config_search : option (list string) -> result (Response (list record));
  vcs_git_config_delete : bool -> result (Response unit) }.

(** A command: what it has printed and how it ended. *)
Definition outcome : Type := list printed * result unit.

(** [_show_configs_as_table(configs, title)]: one centred table for each
    configuration.  The local [title] is recomputed in the loop and never
    used; the tables are titled by their number. *)
Definition _show_configs_as_table (configs : list record) (title : string)
  : list printed :=
  imap (fun i config =>
          CenteredTable ("Configuration Details " +:+ str_of_int (Z.of_nat (S i)))
                        (map (fun kv => (fst kv, py_str (snd kv))) config))
       configs.

(** [if org is not None: ts.org.switch(org)] *)
Definition switch_org (ts : ThoughtSpot) (org : option string) : result unit :=
  match org with
  | Some org => org_switch ts org
  | None => Ok tt
  end.

(** The [try] block common to the four commands.  On [HTTPStatusError] the
    two lines are printed and the local variable [r] stays unbound
    ([None] here); any other exception leaves the command. *)
Definition try_call {J} (call : result (Response J)) (console : list printed)
  : list printed * result (option (Response J)) :=
  match call with
  | Ok r => (console, Ok (Some r))
  | Raise (HTTPStatusError response content) =>
      (console ++ [Line ("[b red]Error creating the configuration: " +:+ response +:+ ".");
                   Line ("[b red]" +:+ content +:+ ".")],
       Ok None)
  | Raise e => (console, Raise e)
  end.

(** Reading the local variable [r]. *)
Definition local_r {J} (r : option (Response J)) : result (Response J) :=
  match r with
  | Some r => Ok r
  | None => Raise (UnboundLocalError "r")
  end.

Definition config_create (ts : ThoughtSpot)
  (repository_url username access_token org : option string)
  (branch_names : option (list string)) (commit_branch_name : option string)
  (enable_guid_mapping : bool) (configuration_branch_name : option string) : outcome :=
  match repository_url, username, access_token with
  | Some repository_url, Some username, Some access_token =>
      match switch_org ts org with
      | Raise e => ([], Raise e)
      | Ok _ =>
          match try_call (vcs_git_config_create ts repository_url username access_token org
                            branch_names commit_branch_name enable_guid_mapping
                            configuration_branch_name) [] with
          | (console, Raise e) => (console, Raise e)
          | (console, Ok r) =>
              match local_r r with
              | Raise e => (console, Raise e)
              | Ok r =>
                  (console ++ _show_configs_as_table [json r] "New Configuration Details",
                   Ok tt)
              end
          end
      end
  | _, _, _ =>
      ([Line "[b red]Must minimally provide the repository, username, and access_token."],
       Ok tt)
  end.

Definition config_update (ts : ThoughtSpot) (username access_token org : option string)
  (branch_names : option (list string)) (commit_branch_name : option string)
  (enable_guid_mapping : bool) (configuration_branch_name : option string) : outcome :=
  match switch_org ts org with
  | Raise e => ([], Raise e)
  | Ok _ =>
      match try_call (vcs_git_config_update ts username access_token org branch_names
                        commit_branch_name enable_guid_mapping
                        configuration_branch_name) [] with
      | (console, Raise e) => (console, Raise e)
      | (console, Ok r) =>
          match local_r r with
          | Raise e => (console, Raise e)
          | Ok r =>
              (console ++ _show_configs_as_table [json r] "Updated Configuration Details",
               Ok tt)
          end
      end
  end.

Definition config_search (ts : ThoughtSpot) (org : option string)
  (org_ids : option (list string)) : outcome :=
  match switch_org ts org with
  | Raise e => ([], Raise e)
  | Ok _ =>
      match try_call (vcs_git_config_search ts org_ids) [] with
      | (console, Raise e) => (console, Raise e)
      | (console, Ok r) =>
          match local_r r with
          | Raise e => (console, Raise e)
          | Ok r =>
              (console ++ _show_configs_as_table (json r) "Configuration Details", Ok tt)
          end
      end
  end.

Definition config_delete (ts : ThoughtSpot) (org : option string) (cluster_level : bool)
  : outcome :=
  let switched :=
    match org with
    | Some org => ([], org_switch ts org)
    | None =>
        ([Line "[bold yellow]No org specified, the config in the current org will be deleted."],
         Ok tt)
    end in
  match switched with
  | (console, Raise e) => (console, Raise e)
  | (console, Ok _) =>
      match try_call (vcs_git_config_delete ts cluster_level) console with
      | (console, Raise e) => (console, Raise e)
      | (console, Ok r) =>
          match local_r r with
          | Raise e => (console, Raise e)
          | Ok r =>
              (console ++ [Line ("[green]Deleted the configuration: " +:+ text_of r +:+ ".")],
               Ok tt)
          end
      end
  end.

End GitConfig.

(** ** Python's built-in operations on values

    [repr], [str], [dict.get] and item assignment for the values of
    [pyval].  The text of a float and the [repr] of a date/time are outside
    the model. *)

Module Builtins.

(** [type(v).__name__], as the error messages give it. *)
Definition type_name (v : pyval) : string :=
  match v with
  | PyNone => "NoneType"
  | PyBool _ => "bool"
  | PyInt _ => "int"
  | PyFloat _ => "float"
  | PyStr _ => "str"
  | PyDatetime _ => "datetime.datetime"
  | PyList _ => "list"
  | PyDict _ => "dict"
  end.

Definition SQUOTE : ascii := "'"%char.

(** [str.isprintable] for one of the 256 characters. *)
Definition isprintable (c : ascii) : bool :=
  let n := nat_of_ascii c in
  ((32 <=? n) && (n <? 127) || (161 <=? n) && negb (n =? 173))%nat.

Definition escape_x (c : ascii) : list ascii :=
  let n := nat_of_ascii c in
  [Json.BACKSLASH; "x"; Json.hexdigit (n / 16); Json.hexdigit (n mod 16)]%char.

(** One character of a [str] in its [repr], between quotes [quote]. *)
Definition repr_char (quote c : ascii) : list ascii :=
  if Ascii.eqb c quote || Ascii.eqb c Json.BACKSLASH then [Json.BACKSLASH; c]
  else if Ascii.eqb c "009" then [Json.BACKSLASH; "t"%char]
  else if Ascii.eqb c LF then [Json.BACKSLASH; "n"%char]
  else if Ascii.eqb c CR then [Json.BACKSLASH; "r"%char]
  else if isprintable c then [c]
  else escape_x c.

(** [repr(s)] for a [str]: single quotes, unless the text has single quotes
    and no double quote. *)
Definition repr_str (s : string) : string :=
  let chars := list_ascii_of_string s in
  let quote :=
    if existsb (Ascii.eqb SQUOTE) chars && negb (existsb (Ascii.eqb DQUOTE) chars)
    then DQUOTE else SQUOTE in
  string_of_list_ascii (quote :: flat_map (repr_char quote) chars ++ [quote]).

Definition repr_key (k : pykey) : string :=
  match k with
  | KStr s => repr_str s
  | KNone => "None"
  end.

(** [repr(v)] *)
Fixpoint repr (v : pyval) : result string :=
  match v with
  | PyNone => Ok "None"
  | PyBool true => Ok "True"
  | PyBool false => Ok "False"
  | PyInt z => Ok (str_of_int z)
  | PyFloat _ => Raise (OutsideModel "the text of a float")
  | PyStr s => Ok (repr_str s)
  | PyDatetime _ => Raise (OutsideModel "the repr of a datetime")
  | PyList items =>
      parts ← (fix reprs (items : list pyval) : result (list string) :=
                 match items with
                 | [] => Ok []
                 | item :: items' =>
                     r ← repr item; rs ← reprs items'; Ok (r :: rs)
                 end) items;
      Ok ("[" +:+ String.concat ", " parts +:+ "]")
  | PyDict items =>
      parts ← (fix reprs (items : list (pykey * pyval)) : result (list string) :=
                 match items with
                 | [] => Ok []
                 | (k, item) :: items' =>
                     r ← repr item; rs ← reprs items';
                     Ok ((repr_key k +:+ ": " +:+ r) :: rs)
                 end) items;
      Ok ("{" +:+ String.concat ", " parts +:+ "}")
  end.

(** [str(v)] *)
Definition str (v : pyval) : result string :=
  match v with
  | PyStr s => Ok s
  | PyDatetime d => Ok (dt_str d)
  | v => repr v
  end.

(** [d[key]] on a dict kept in insertion order, when the key is there. *)
Fixpoint dict_get {V : Type} (d : list (pykey * V)) (key : pykey) : option V :=
  match d with
  | [] => None
  | (k, v) :: d' => if decide (k = key) then Some v else dict_get d' key
  end.

(** [obj.get(key, default)] *)
Definition get (obj : pyval) (key : pykey) (default : pyval) : result pyval :=
  match obj with
  | PyDict items => Ok (from_option id default (dict_get items key))
  | _ => Raise (AttributeError ("'" +:+ type_name obj +:+ "' object has no attribute 'get'"))
  end.

(** [obj[key] = value], the object after the assignment. *)
Definition setitem (obj : pyval) (key : pykey) (value : pyval) : result pyval :=
  match obj with
  | PyDict items => Ok (PyDict (dict_set items key value))
  | PyList _ =>
      Raise (TypeError ("list indices must be integers or slices, not "
                        +:+ match key with KStr _ => "str" | KNone => "NoneType" end))
  | _ => Raise (TypeError ("'" +:+ type_name obj
                           +:+ "' object does not support item assignment"))
  end.

(** [s.startswith(prefix)], on the characters. *)
Fixpoint startswith (s prefix : list ascii) : bool :=
  match prefix, s with
  | [], _ => true
  | p :: prefix', c :: s' => Ascii.eqb p c && startswith s' prefix'
  | _ :: _, [] => false
  end.

(** The loop of [str.replace] for an [old] that is not empty: from left to
    right, the occurrences that do not overlap.  [skip] counts the
    characters of the occurrence just replaced that are still to be
    passed. *)
Fixpoint replace_loop (old new : list ascii) (skip : nat) (s : list ascii) : list ascii :=
  match s with
  | [] => []
  | c :: s' =>
      match skip with
      | S skip' => replace_loop old new skip' s'
      | O =>
          if startswith s old then new ++ replace_loop old new (length old - 1) s'
          else c :: replace_loop old new 0 s'
      end
  end.

(** [u in s], on the characters. *)
Fixpoint contains (s u : list ascii) : bool :=
  startswith s u
  || match s with
     | [] => false
     | _ :: s' => contains s' u
     end.

(** [s.replace(old, new)]; an empty [old] matches before every character
    and at the end. *)
Definition replace (s old new : string) : string :=
  let chars := list_ascii_of_string s in
  let new := list_ascii_of_string new in
  string_of_list_ascii
    match list_ascii_of_string old with
    | [] => new ++ flat_map (fun c => c :: new) chars
    | old => replace_loop old new 0 chars
    end.

End Builtins.

(** ** [cs_tools/utils.py]: [deep_update] and [find] *)

Module UtilsValues.

(** [v is ignore or str(v) == str(ignore)].  An object that is [ignore]
    itself has the text of [ignore], so the test is the one on the
    texts. *)
Definition ignored (v ignore : pyval) : result bool :=
  sv ← Builtins.str v;
  si ← Builtins.str ignore;
  Ok (String.eqb sv si).

(** [deep_update(old, new, ignore=ignore)]: the value returned, which is
    the object [old] after the updates made in place when [old] is a dict.
    The loop runs over the items of [new] in their order. *)
Fixpoint deep_update (old new ignore : pyval) {struct new} : result pyval :=
  match new with
  | PyDict items =>
      (fix loop (items : list (pykey * pyval)) (old : pyval) {struct items}
         : result pyval :=
         match items with
         | [] => Ok old
         | (k, v) :: items' =>
             skip ← ignored v ignore;
             if (skip : bool) then loop items' old
             else
               v ← match v with
                    | PyDict _ =>
                        sub ← Builtins.get old k (PyDict []);
                        deep_update sub v ignore
                    | _ => Ok v
                    end;
               old ← Builtins.setitem (match old with PyNone => PyDict [] | _ => old end) k v;
               loop items' old
         end) items old
  | _ => Raise (AttributeError ("'" +:+ Builtins.type_name new
                                +:+ "' object has no attribute 'items'"))
  end.

(** [find(predicate, iterable)]: the first element for which the predicate
    is true, [None] when there is none. *)
Fixpoint find (predicate : pyval -> bool) (iterable : list pyval) : pyval :=
  match iterable with
  | [] => PyNone
  | element :: iterable' =>
      if predicate element then element else find predicate iterable'
  end.

(** [anonymize(text, anonymizer=anonymizer)]; [user] is what
    [getpass.getuser()] returns. *)
Definition anonymize (user : string) (text : string) (anonymizer : string) : string :=
  Builtins.replace text user anonymizer.

(** The default of [anonymizer]. *)
Definition default_anonymizer : string := " [dim]{anonymous}[/] ".

End UtilsValues.

(** ** Vocabulary of the properties *)

(** Nothing was ever stored at [path]: there is neither a file nor a
    directory of that name. *)
Definition never_written (w : World) (path : string) : Prop :=
  files w !! path = None /\ path ∉ dirs w.

(** The fields of an instance that the constructor can have returned: the
    quoting is one of the two of [_map_to_csv_literals]. *)
Definition constructed (self : CSV.CSV) : Prop :=
  CSV.quoting self = Csv.QUOTE_ALL \/ CSV.quoting self = Csv.QUOTE_MINIMAL.

(** The delimiter and the escape character are one character each, which is
    what the [csv] module needs to build its dialect. *)
Definition single_characters (self : CSV.CSV) : Prop :=
  String.length (CSV.delimiter self) = 1%nat
  /\ String.length (CSV.escape_character self) = 1%nat.

(** The records of a batch have no key outside those of the first record,
    which are the field names of the writer. *)
Definition homogeneous (data : TableRows) : Prop :=
  match data with
  | [] => True
  | first :: rest => Forall (fun r => Csv.wrong_fields (keys first) r = []) rest
  end.

(** The text that [writerows] produces for a batch under the dialect of the
    syncer. *)
Definition rows_text (dialect : Csv.Dialect) (self : CSV.CSV) (data : TableRows)
  : list ascii :=
  match data with
  | [] => []
  | first :: _ =>
      fst (Csv.writerows dialect (keys first)
             (map (fun r => SyncUtils.format_datetime_values r (CSV.date_time_format self))
                  data))
  end.

(** The mode in which [dump] opens the file. *)
Definition open_mode (self : CSV.CSV) : Path.mode :=
  match CSV.save_strategy self with
  | CSV.APPEND => Path.mode_a
  | CSV.OVERWRITE => Path.mode_w
  end.

(** The test that [dump] makes before it writes the header. *)
Definition header_due (self : CSV.CSV) (name : string) : bool :=
  CSV.header self && negb (default false (CSV._written_header self !! name)).

(** A world with one empty directory, and two syncers on it, for the
    examples. *)
Definition example_world : World := {| files := ∅; dirs := {["out"]}; log := [] |}.

Definition example_syncer (strategy : CSV.strategy_literal) : CSV.CSV :=
  {| CSV.directory := "out"; CSV.delimiter := "|"; CSV.escape_character := "\";
     CSV.quoting := Csv.QUOTE_MINIMAL; CSV.date_time_format := "%Y-%m-%d %H:%M:%S";
     CSV.header := true; CSV.save_strategy := strategy; CSV._written_header := ∅ |}.

(** The dialects of the round trip: those of the syncer
    ([doublequote=False], the double quote as quote character, CRLF line
    ends, quoting [ALL] or [MINIMAL]) in which the delimiter, the escape
    character, the quote character and the two line-end characters are five
    different characters. *)
Record separable (d : Csv.Dialect) : Prop := {
  sep_doublequote : Csv.doublequote d = false;
  sep_quotechar : Csv.quotechar d = DQUOTE;
  sep_lineterminator : Csv.lineterminator d = [CR; LF];
  sep_quoting : Csv.quoting d <> Csv.QUOTE_NONE;
  sep_delim_escape : Csv.delimiter d <> Csv.escapechar d;
  sep_delim_quote : Csv.delimiter d <> DQUOTE;
  sep_delim_crnl : Csv.is_crnl (Csv.delimiter d) = false;
  sep_escape_quote : Csv.escapechar d <> DQUOTE;
  sep_escape_crnl : Csv.is_crnl (Csv.escapechar d) = false }.

(** What the writer puts for one character of a field under such a dialect,
    and whether the character makes the field quoted. *)
Definition escaped (d : Csv.Dialect) (c : ascii) : list ascii :=
  if Ascii.eqb c DQUOTE || Ascii.eqb c (Csv.escapechar d) then [Csv.escapechar d; c]
  else [c].

Definition forces_quotes (d : Csv.Dialect) (c : ascii) : bool :=
  Ascii.eqb c (Csv.delimiter d) || Csv.is_crnl c.

(** A field as the writer puts it. *)
Definition is_quoted (d : Csv.Dialect) (t : list ascii) : bool :=
  match Csv.quoting d with
  | Csv.QUOTE_ALL => true
  | _ => existsb (forces_quotes d) t
  end.

Definition encoded (d : Csv.Dialect) (t : list ascii) : list ascii :=
  if is_quoted d t then DQUOTE :: flat_map (escaped d) t ++ [DQUOTE]
  else flat_map (escaped d) t.

(** The fields of a record after the first, each behind a delimiter. *)
Definition encoded_tail (d : Csv.Dialect) (ts : list (list ascii)) : list ascii :=
  flat_map (fun t => Csv.delimiter d :: encoded d t) ts.

(** A record as the writer puts it: a single empty field is quoted. *)
Definition encoded_row (d : Csv.Dialect) (ts : list (list ascii)) : list ascii :=
  match ts with
  | [] => [CR; LF]
  | [[]] => [DQUOTE; DQUOTE; CR; LF]
  | t :: ts' => encoded d t ++ encoded_tail d ts' ++ [CR; LF]
  end.

(** The reader run over the text instead of over its lines: each character
    is processed as it comes, and the end-of-line marker is processed where
    a line of the file ends.  [pending] tells whether the current line has
    characters. *)
Definition feed (d : Csv.Dialect) (self : Csv.Reader) (chars : list ascii)
  : result Csv.Reader :=
  foldl (fun r c => self ← r; Csv.parse_process_char d self (Csv.Char c)) (Ok self) chars.

Definition end_of_input (self : Csv.Reader) : result (list (list (list ascii))) :=
  match Csv.field self, Csv.state self with
  | [], Csv.IN_QUOTED_FIELD | _ :: _, _ => Ok [Csv.fields (Csv.parse_save_field self)]
  | [], _ => Ok []
  end.

Definition end_of_line (d : Csv.Dialect) (self : Csv.Reader)
  (continue : Csv.Reader -> result (list (list (list ascii))))
  : result (list (list (list ascii))) :=
  self ← Csv.parse_process_char d self Csv.EOL;
  match Csv.state self with
  | Csv.START_RECORD => rows ← continue Csv.parse_reset; Ok (Csv.fields self :: rows)
  | _ => continue self
  end.

Fixpoint read_text (d : Csv.Dialect) (self : Csv.Reader) (pending : bool)
  (text : list ascii) : result (list (list (list ascii))) :=
  match text with
  | [] => if pending then end_of_line d self end_of_input else end_of_input self
  | c :: text' =>
      self ← Csv.parse_process_char d self (Csv.Char c);
      if Ascii.eqb c LF then end_of_line d self (fun self => read_text d self false text')
      else if Ascii.eqb c CR then
        match text' with
        | c' :: text'' =>
            if Ascii.eqb c' LF then
              self ← Csv.parse_process_char d self (Csv.Char c');
              end_of_line d self (fun self => read_text d self false text'')
            else end_of_line d self (fun self => read_text d self false text')
        | [] => end_of_line d self end_of_input
        end
      else read_text d self true text'
  end.

(** A reader by its three parts. *)
Definition R (st : Csv.ParserState) (fs : list (list ascii)) (f : list ascii)
  : Csv.Reader :=
  {| Csv.state := st; Csv.fields := fs; Csv.field := f |}.

(** The states of the reader at the start of a field and inside an unquoted
    one. *)
Definition at_field (st : Csv.ParserState) : Prop :=
  st = Csv.START_RECORD \/ st = Csv.START_FIELD \/ st = Csv.IN_FIELD.

(** The state of the reader behind a field: inside the field, or still at
    its start when the field was written as nothing. *)
Definition behind (d : Csv.Dialect) (st : Csv.ParserState) (t : list ascii)
  : Csv.ParserState :=
  if is_quoted d t then Csv.IN_FIELD
  else match t with [] => st | _ :: _ => Csv.IN_FIELD end.

(** A field that the reader can take: within [csv.field_size_limit()]. *)
Definition within_limit (t : list ascii) : Prop :=
  (Z.of_nat (length t) <= Csv.field_limit)%Z.

(** The text that a cell has in the file: [None] is written as nothing, a
    date/time in the format of the syncer, everything else through
    [str()]. *)
Definition cell_text (dt_format : string) (v : scalar) : string :=
  match v with
  | VNull => ""
  | VDatetime dt => dt_strftime dt dt_format
  | v => py_str v
  end.

(** A record with every value replaced by its text. *)
Definition as_text (dt_format : string) (r : record) : record :=
  map (fun kv => (fst kv, VText (cell_text dt_format (snd kv)))) r.

(** The records of a batch all have the columns of the first, in the same
    order, and there is at least one column. *)
Definition same_columns (data : TableRows) : Prop :=
  match data with
  | [] => True
  | first :: rest =>
      keys first <> [] /\ NoDup (keys first) /\ Forall (fun r => keys r = keys first) rest
  end.

(** A column name or a cell that the reader accepts: no longer than
    [csv.field_size_limit()]. *)
Definition short (s : string) : Prop :=
  (Z.of_nat (String.length s) <= Csv.field_limit)%Z.

Definition cells_short (dt_format : string) (data : TableRows) : Prop :=
  Forall (fun r => Forall (fun kv => short (fst kv) /\ short (cell_text dt_format (snd kv))) r)
         data.

(** The delimiter and the escape character are single characters, different
    from each other, from the quote character and from the line-end
    characters. *)
Definition distinct_specials (self : CSV.CSV) : Prop :=
  match CSV.delimiter self, CSV.escape_character self with
  | String a EmptyString, String b EmptyString =>
      a <> b /\ a <> DQUOTE /\ Csv.is_crnl a = false
      /\ b <> DQUOTE /\ Csv.is_crnl b = false
  | _, _ => False
  end.

(** No value of the batch is a date/time. *)
Definition no_datetime (data : TableRows) : Prop :=
  Forall (fun r => Forall (fun kv => match snd kv with VDatetime _ => False | _ => True end) r)
         data.

(** The keys of every record are distinct, as in every [dict]. *)
Definition distinct_keys (data : TableRows) : Prop :=
  Forall (fun r => NoDup (keys r)) data.

(** The items of the dict that a record is. *)
Definition record_items (r : record) : list (pykey * pyval) :=
  map (fun kv => (KStr (fst kv), py_of_scalar (snd kv))) r.

(** Every value of the batch is text. *)
Definition all_text (data : TableRows) : Prop :=
  Forall (fun r => Forall (fun kv => exists s, snd kv = VText s) r) data.

(** A batch for the examples. *)
Definition example_rows : TableRows :=
  [[("id", VInt 7); ("name", VText "a|b"); ("ok", VBool true)];
   [("id", VInt (-12)); ("name", VNull); ("ok", VBool false)]].

Definition example_json : JSON.JSON :=
  {| JSON.directory := "out"; JSON.encoding := None |}.

(** The two lines that a command prints when it has caught an
    [HTTPStatusError]. *)
Definition http_error_lines (response content : string) : list GitConfig.printed :=
  [GitConfig.Line ("[b red]Error creating the configuration: " +:+ response +:+ ".");
   GitConfig.Line ("[b red]" +:+ content +:+ ".")].

(** A remote API that answers every call with HTTP status 400. *)
Definition failing_api : GitConfig.ThoughtSpot :=
  let bad {J} : result (GitConfig.Response J) :=
    Raise (HTTPStatusError "<Response [400 Bad Request]>" "b'no such repository'") in
  {| GitConfig.org_switch := fun _ => Ok tt;
     GitConfig.vcs_git_config_create := fun _ _ _ _ _ _ _ _ => bad;
     GitConfig.vcs_git_config_update := fun _ _ _ _ _ _ _ => bad;
     GitConfig.vcs_git_config_search := fun _ => bad;
     GitConfig.vcs_git_config_delete := fun _ => bad |}.

(** The text of the cells of a record, as [dump] writes them. *)
Definition cells (dt_format : string) (r : record) : list string :=
  map (fun kv => cell_text dt_format (snd kv)) r.

(** A world with a CSV file of three records, for the examples. *)
Definition example_csv_world : World :=
  {| files := {[ "out/t.csv" :=
                   list_ascii_of_string "id|name" ++ [CR; LF]
                   ++ list_ascii_of_string "1|a" ++ [CR; LF]
                   ++ list_ascii_of_string "2|b" ++ [CR; LF]
                   ++ list_ascii_of_string "3|c" ++ [CR; LF] ]};
     dirs := {["out"]};
     log := [] |}.

(** A syncer that writes no header. *)
Definition example_syncer_no_header : CSV.CSV :=
  {| CSV.directory := "out"; CSV.delimiter := "|"; CSV.escape_character := "\";
     CSV.quoting := Csv.QUOTE_MINIMAL; CSV.date_time_format := "%Y-%m-%d %H:%M:%S";
     CSV.header := false; CSV.save_strategy := CSV.OVERWRITE; CSV._written_header := ∅ |}.

(** A file name without a path separator. *)
Definition plain_name (name : string) : Prop :=
  "/"%char ∉ list_ascii_of_string name.

(** A world in which the directory ["out"] is yet to be made. *)
Definition example_world_no_directory : World :=
  {| files := ∅; dirs := {["."]}; log := [] |}.

(** The characters that a JSON file can hold: none below the space, and
    under [ensure_ascii] none above the tilde. *)
Definition json_char (ensure_ascii : bool) (c : ascii) : bool :=
  (32 <=? nat_of_ascii c)%nat && (negb ensure_ascii || (nat_of_ascii c <=? 126)%nat).

(** A record of the batch holds a date/time. *)
Definition has_datetime (data : TableRows) : Prop :=
  Exists (fun r => Exists (fun kv => exists d, snd kv = VDatetime d) r) data.

(** [ensure_ascii] as [dump] sets it. *)
Definition ensure_ascii_of (self : JSON.JSON) : bool :=
  match JSON.encoding self with None => true | Some _ => false end.

(** The loop of [deep_update] over the items of [new], by itself. *)
Fixpoint update_items (items : list (pykey * pyval)) (old ignore : pyval) : result pyval :=
  match items with
  | [] => Ok old
  | (k, v) :: items' =>
      skip ← UtilsValues.ignored v ignore;
      if (skip : bool) then update_items items' old ignore
      else
        v ← match v with
             | PyDict _ =>
                 sub ← Builtins.get old k (PyDict []);
                 UtilsValues.deep_update sub v ignore
             | _ => Ok v
             end;
        old ← Builtins.setitem (match old with PyNone => PyDict [] | _ => old end) k v;
        update_items items' old ignore
  end.



Definition is_dict (v : pyval) : bool :=
  match v with PyDict _ => true | _ => false end.





(** Induction on a value that goes through the items of lists and dicts. *)
Section PyvalInduction.
Variable P : pyval -> Prop.
Hypothesis HNone : P PyNone.
Hypothesis HBool : forall b, P (PyBool b).
Hypothesis HInt : forall z, P (PyInt z).
Hypothesis HFloat : forall literal, P (PyFloat literal).
Hypothesis HStr : forall s, P (PyStr s).
Hypothesis HDatetime : forall d, P (PyDatetime d).
Hypothesis HList : forall items, Forall P items -> P (PyList items).
Hypothesis HDict : forall items, Forall (fun kv => P (snd kv)) items -> P (PyDict items).

End PyvalInduction.

(** Two dicts for the examples: a configuration and an update of it. *)
Definition example_old : pyval :=
  PyDict [(KStr "server", PyDict [(KStr "host", PyStr "localhost"); (KStr "port", PyInt 80)]);
          (KStr "debug", PyBool false)].


(** The text of the cell of a record in a column: the empty text when the
    record lacks the column. *)
Definition column_text (dt_format : string) (r : record) (column : string) : string :=
  cell_text dt_format (record_get r column (VText "")).

(** A record as it is read back under the columns of a file. *)
Definition read_back (dt_format : string) (columns : list string) (r : record) : pyval :=
  PyDict (map (fun column => (KStr column, PyStr (column_text dt_format r column))) columns).

(** A batch whose second record lacks a column and has the others in
    another order. *)
Definition example_ragged_rows : TableRows :=
  [[("id", VInt 1); ("name", VText "a"); ("ok", VBool true)];
   [("ok", VBool false); ("id", VInt 2)]].

(** [user in text] *)
Definition mentions (text user : string) : bool :=
  Builtins.contains (list_ascii_of_string text) (list_ascii_of_string user).

(** A world with an empty file for each syncer. *)
Definition example_empty_files : World :=
  {| files := {[ "out/t.csv" := []; "out/t.json" := [] ]}; dirs := {["out"]}; log := [] |}.

(** A remote API that answers every call with a configuration. *)
Definition working_api : GitConfig.ThoughtSpot :=
  let config : record := [("repository_url", VText "https://example.com/repo.git");
                          ("enable_guid_mapping", VBool true)] in
  {| GitConfig.org_switch := fun _ => Ok tt;
     GitConfig.vcs_git_config_create := fun _ _ _ _ _ _ _ _ =>
       Ok {| GitConfig.text_of := "<Response [200 OK]>"; GitConfig.json := config |};
     GitConfig.vcs_git_config_update := fun _ _ _ _ _ _ _ =>
       Ok {| GitConfig.text_of := "<Response [200 OK]>"; GitConfig.json := config |};
     GitConfig.vcs_git_config_search := fun _ =>
       Ok {| GitConfig.text_of := "<Response [200 OK]>"; GitConfig.json := [config; config] |};
     GitConfig.vcs_git_config_delete := fun _ =>
       Ok {| GitConfig.text_of := "<Response [204 No Content]>"; GitConfig.json := tt |} |}.

(** * Properties *)

(** ** Chunking *)

(** The stop argument of [islice]: let through between zero and
    [sys.maxsize], refused above. *)
Lemma islice_stop_ok (n : Z) :
  (0 <= n <= Sys.maxsize)%Z -> Utils.islice_stop n = Ok (Z.to_nat n).
Proof.
  intros Hn. unfold Utils.islice_stop.
  destruct (Z.ltb_spec n 0) as [|_]; [lia|].
  destruct (Z.ltb_spec Sys.maxsize n) as [|_]; [lia|]. reflexivity.
Qed.

Lemma islice_stop_above (n : Z) :
  (Sys.maxsize < n)%Z ->
  Utils.islice_stop n
  = Raise (ValueError
      "Stop argument for islice() must be None or an integer: 0 <= x <= sys.maxsize.").
Proof.
  intros Hn. unfold Utils.islice_stop.
  destruct (Z.ltb_spec Sys.maxsize n) as [_|]; [|lia].
  rewrite orb_true_r. reflexivity.
Qed.

Section ChunksFacts.
Context {T : Type}.
Implicit Types (l : list T) (n : nat).

Lemma chunks_loop_unfold n l :
  Utils.chunks_loop n l =
  match take n l with
  | [] => []
  | batch => batch :: Utils.chunks_loop n (drop n l)
  end.
Proof.
  rewrite Utils.chunks_loop_equation_1. unfold Utils.chunks_loop_clause_1.
  destruct (inspect (Utils.islice l n)) as [[[|x batch] rest] H]; simpl;
    unfold Utils.islice in H; injection H as H <-; rewrite H; reflexivity.
Qed.

Lemma chunks_loop_nil n : Utils.chunks_loop n ([] : list T) = [].
Proof. rewrite chunks_loop_unfold, take_nil. reflexivity. Qed.

(** The batches put end to end are the input. *)
Lemma chunks_loop_concat n l : (0 < n)%nat -> concat (Utils.chunks_loop n l) = l.
Proof.
  intros Hn. remember (length l) as k eqn:Hk. revert l Hk.
  induction k as [k IH] using lt_wf_ind. intros l Hk.
  rewrite chunks_loop_unfold.
  destruct l as [|x l].
  - rewrite take_nil. reflexivity.
  - destruct n as [|n]; [lia|]. simpl take. simpl drop. cbn [concat].
    rewrite (IH (length (drop n l))); [| rewrite length_drop; simpl in Hk; lia | reflexivity].
    simpl. f_equal. apply take_drop.
Qed.

(** Every batch but the last has [n] items; the last has between one and
    [n]. *)
Lemma chunks_loop_sizes n l i batch :
  (0 < n)%nat ->
  Utils.chunks_loop n l !! i = Some batch ->
  (0 < length batch <= n)%nat
  /\ ((S i < length (Utils.chunks_loop n l))%nat -> length batch = n).
Proof.
  intros Hn. remember (length l) as k eqn:Hk. revert l i Hk.
  induction k as [k IH] using lt_wf_ind. intros l i Hk.
  rewrite chunks_loop_unfold.
  destruct l as [|x l]; [rewrite take_nil; discriminate|].
  destruct n as [|n]; [lia|]. simpl take. simpl drop.
  destruct i as [|i]; simpl.
  - intros [= <-]. simpl. rewrite length_take. split; [lia|].
    rewrite chunks_loop_unfold.
    destruct (drop n l) as [|y l'] eqn:Hd; [rewrite take_nil; simpl; lia|].
    intros _. f_equal. apply Nat.min_l.
    assert (length (drop n l) = S (length l')) as Hlen by (rewrite Hd; reflexivity).
    rewrite length_drop in Hlen. lia.
  - intros Hi.
    destruct (IH (length (drop n l))) with (l := drop n l) (i := i) as [H1 H2];
      [rewrite length_drop; simpl in Hk; lia | reflexivity | exact Hi |].
    split; [exact H1 | intros Hlt; apply H2; lia].
Qed.
End ChunksFacts.

(** C9: for a batch size from one to [sys.maxsize], [chunks] yields
    batches that put end to end are the input, each of exactly [n] items
    except the last, which has between one and [n]; [chunks(range(7), n=3)]
    yields [(0,1,2), (3,4,5), (6,)]; for a batch size below one it raises
    [ValueError], and for one above [sys.maxsize] it raises the
    [ValueError] of [itertools.islice], whatever the input. *)
Theorem chunks_spec {T : Type} (iterable : list T) (n : Z) :
  ((1 <= n <= Sys.maxsize)%Z ->
   exists batches,
     Utils.chunks iterable n = Ok batches
     /\ concat batches = iterable
     /\ forall i batch,
         batches !! i = Some batch ->
         (0 < Z.of_nat (length batch) <= n)%Z
         /\ ((S i < length batches)%nat -> Z.of_nat (length batch) = n))
  /\ ((n < 1)%Z ->
      Utils.chunks iterable n = Raise (ValueError "n must be at least one"))
  /\ ((Sys.maxsize < n)%Z ->
      Utils.chunks iterable n
      = Raise (ValueError
          "Stop argument for islice() must be None or an integer: 0 <= x <= sys.maxsize."))
  /\ Utils.chunks (Utils.range 7) 3 = Ok [[0; 1; 2]; [3; 4; 5]; [6]]%Z.
Proof.
  split; [|split; [|split]].
  - intros Hn. unfold Utils.chunks.
    destruct (Z.ltb_spec n 1) as [|_]; [lia|].
    rewrite islice_stop_ok by lia. cbn [mbind result_mbind result_bind].
    exists (Utils.chunks_loop (Z.to_nat n) iterable).
    split; [reflexivity|]. split; [apply chunks_loop_concat; lia|].
    intros i batch Hi.
    destruct (chunks_loop_sizes (Z.to_nat n) iterable i batch) as [H1 H2]; [lia|exact Hi|].
    split; [lia|]. intros Hlt. specialize (H2 Hlt). lia.
  - intros Hn. unfold Utils.chunks.
    destruct (Z.ltb_spec n 1) as [_|]; [reflexivity|lia].
  - intros Hn. unfold Utils.chunks.
    assert (0 < Sys.maxsize)%Z as Hpos by reflexivity.
    destruct (Z.ltb_spec n 1) as [|_]; [lia|].
    rewrite islice_stop_above by exact Hn. reflexivity.
  - reflexivity.
Qed.

Lemma chunks_spec_witness :
  (exists batches,
     Utils.chunks [1; 2; 3; 4; 5]%Z 2 = Ok batches
     /\ concat batches = [1; 2; 3; 4; 5]%Z
     /\ forall i batch,
         batches !! i = Some batch ->
         (0 < Z.of_nat (length batch) <= 2)%Z
         /\ ((S i < length batches)%nat -> Z.of_nat (length batch) = 2%Z))
  /\ Utils.chunks [1; 2; 3; 4; 5]%Z 0 = Raise (ValueError "n must be at least one")
  /\ Utils.chunks [1; 2; 3; 4; 5]%Z (2 ^ 63)
     = Raise (ValueError
         "Stop argument for islice() must be None or an integer: 0 <= x <= sys.maxsize.").
Proof.
  split; [|split].
  - apply (chunks_spec [1; 2; 3; 4; 5]%Z 2). split; [lia | discriminate].
  - apply (chunks_spec [1; 2; 3; 4; 5]%Z 0). lia.
  - apply (chunks_spec [1; 2; 3; 4; 5]%Z (2 ^ 63)). reflexivity.
Defined.

(** C9, where the sentence fails: it promises batches for every batch size
    of at least one, and [list(chunks([1, 2, 3], n=2**63))] raises
    [ValueError] and yields none. *)
Lemma chunks_spec_counterexample :
  (1 <= 2 ^ 63)%Z
  /\ Utils.chunks [1; 2; 3]%Z (2 ^ 63)
     = Raise (ValueError
         "Stop argument for islice() must be None or an integer: 0 <= x <= sys.maxsize.")
  /\ ~ (exists batches,
         Utils.chunks [1; 2; 3]%Z (2 ^ 63) = Ok batches
         /\ concat batches = [1; 2; 3]%Z).
Proof.
  split; [discriminate|]. split; [reflexivity|].
  intros (batches & H & _). discriminate H.
Qed.

(** ** The [State] attribute bag *)

Section StateFacts.
Context {Any : Type}.
Variable on_class : string -> bool.
Implicit Types (self : Utils.State Any) (key : string) (value : Any).

Lemma getattr_method_set self key value :
  Utils.__getattr__ (Utils.__setattr__ self key value) key = Ok value.
Proof. unfold Utils.__getattr__, Utils.__setattr__. simpl. rewrite lookup_insert_eq. reflexivity. Qed.

Lemma getattr_method_other self key key' value :
  key <> key' ->
  Utils.__getattr__ (Utils.__setattr__ self key value) key'
  = Utils.__getattr__ self key'.
Proof.
  intros Hne. unfold Utils.__getattr__, Utils.__setattr__. simpl.
  rewrite lookup_insert_ne by exact Hne. reflexivity.
Qed.

(** The default lookup wins over the stored value. *)
Lemma getattr_state_dict self :
  Utils.getattr on_class self "_state" = Ok (Utils.InstanceDict (Utils._state self)).
Proof. reflexivity. Qed.
End StateFacts.

(** C10, as amended: for every [State] object and every key that the default
    attribute lookup does not resolve (any key but [_state] and the names
    found on the class), getting the attribute after setting it returns
    exactly the value set, and getting an attribute that is not in the
    state raises [AttributeError] with the key in its message. *)
Theorem State_set_then_get {Any : Type} (on_class : string -> bool)
  (self : Utils.State Any) (key : string) (value : Any) :
  key <> "_state" ->
  on_class key = false ->
  Utils.getattr on_class (Utils.setattr self key value) key = Ok (Utils.Stored value)
  /\ (Utils._state self !! key = None ->
      Utils.getattr on_class self key
      = Raise (AttributeError ("'State' object has no attribute '" +:+ key +:+ "'"))).
Proof.
  intros Hkey Hcls. unfold Utils.getattr, Utils.setattr.
  rewrite bool_decide_eq_false_2 by exact Hkey. rewrite Hcls.
  split.
  - rewrite getattr_method_set. reflexivity.
  - intros Hnone. unfold Utils.__getattr__. rewrite Hnone. reflexivity.
Qed.

Lemma State_set_then_get_witness :
  Utils.getattr (fun _ => false) (Utils.setattr (Utils.__init__ None) "token" 7%Z) "token"
  = Ok (Utils.Stored 7%Z)
  /\ Utils.getattr (fun _ => false) (Utils.__init__ (Any := Z) None) "token"
     = Raise (AttributeError "'State' object has no attribute 'token'").
Proof.
  destruct (State_set_then_get (fun _ => false) (Utils.__init__ None) "token" 7%Z)
    as [Hset Hget]; [discriminate | reflexivity |].
  split; [exact Hset|].
  destruct (State_set_then_get (fun _ => false) (Utils.__init__ (Any := Z) None) "token" 7%Z)
    as [_ Hget']; [discriminate | reflexivity |].
  apply Hget'. reflexivity.
Defined.

(** C10 as stated fails at the key [_state]: after [s._state = 1] the read
    [s._state] gives the dict of the object, and on a fresh object, where it
    was never set, it gives the empty dict instead of raising. *)
Lemma State_set_then_get_counterexample :
  Utils.getattr (fun _ => false) (Utils.setattr (Utils.__init__ None) "_state" 1%Z) "_state"
  <> Ok (Utils.Stored 1%Z)
  /\ Utils._state (Utils.__init__ (Any := Z) None) !! "_state" = None
  /\ Utils.getattr (fun _ => false) (Utils.__init__ (Any := Z) None) "_state"
     = Ok (Utils.InstanceDict ∅).
Proof. split; [discriminate | split; reflexivity]. Qed.

(** ** Empty batches *)

(** C3: [dump(name, [])] leaves every file and directory as it was and
    returns normally, on the CSV and on the JSON syncer; the only effect is
    the log record. *)
Theorem dump_empty_is_noop (csv : CSV.CSV) (json : JSON.JSON) (w : World) (name : string) :
  (exists w', CSV.dump csv w name [] = (csv, w', Ok tt)
              /\ files w' = files w /\ dirs w' = dirs w)
  /\ (exists w', JSON.dump json w name [] = (w', Ok tt)
                 /\ files w' = files w /\ dirs w' = dirs w).
Proof.
  split; eexists; (split; [reflexivity|]); split; reflexivity.
Qed.

(** ** Loading what was never written *)

Lemma exists_never_written w path : never_written w path -> Path.exists_ w path = false.
Proof.
  intros [Hf Hd]. unfold Path.exists_, Path.is_file, Path.is_dir.
  rewrite !bool_decide_eq_false_2; [reflexivity | exact Hd |].
  rewrite Hf. intros [x Hx]. discriminate.
Qed.

(** The CSV syncer checks that the file is there. *)
Lemma csv_load_never_written (self : CSV.CSV) (w : World) (name : string) :
  never_written w (CSV.path_of self name) -> CSV.load self w name = Ok (PyList []).
Proof. intros H. unfold CSV.load. rewrite exists_never_written by exact H. reflexivity. Qed.

(** The JSON syncer does not. *)
Lemma json_load_never_written (self : JSON.JSON) (w : World) (name : string) :
  never_written w (JSON.make_filename self name) ->
  JSON.load self w name = Raise (FileNotFoundError (JSON.make_filename self name)).
Proof.
  intros [Hf Hd]. unfold JSON.load, Path.open, Path.is_dir.
  rewrite bool_decide_eq_false_2 by exact Hd. rewrite Hf. reflexivity.
Qed.

(** C2 fails on the JSON syncer: in a world with an empty directory [out],
    [load("t")] raises [FileNotFoundError], where the CSV syncer returns the
    empty list. *)
Theorem json_load_absent_raises :
  let w := {| files := ∅; dirs := {["out"]}; log := [] |} in
  JSON.load {| JSON.directory := "out"; JSON.encoding := None |} w "t"
  = Raise (FileNotFoundError "out/t.json")
  /\ CSV.load {| CSV.directory := "out"; CSV.delimiter := "|";
                 CSV.escape_character := "\"; CSV.quoting := Csv.QUOTE_MINIMAL;
                 CSV.date_time_format := ""; CSV.header := true;
                 CSV.save_strategy := CSV.OVERWRITE; CSV._written_header := ∅ |} w "t"
     = Ok (PyList []).
Proof. split; reflexivity. Qed.

(** ** Construction of a CSV syncer *)

(** The validator rejects every value longer than one character. *)
Lemma validator_rejects_long (value field_name : string) :
  (1 < String.length value)%nat ->
  CSV._only_single_characters_allowed value field_name
  = Raise (ValueError (field_name +:+ " must be a one-character string")).
Proof.
  intros H. unfold CSV._only_single_characters_allowed.
  destruct (Nat.ltb_spec 1 (String.length value)); [reflexivity | lia].
Qed.

(** It accepts every value of at most one character, the empty one
    included. *)
Lemma validator_accepts_short (value field_name : string) :
  (String.length value <= 1)%nat ->
  CSV._only_single_characters_allowed value field_name = Ok value.
Proof.
  intros H. unfold CSV._only_single_characters_allowed.
  destruct (Nat.ltb_spec 1 (String.length value)); [lia | reflexivity].
Qed.

(** Construction with a delimiter or an escape character of more than one
    character raises a [ValidationError] that names the field, and touches
    nothing. *)
Lemma new_rejects_long (w : World) (o : CSV.options) :
  (1 < String.length (CSV.o_delimiter o))%nat
  \/ (1 < String.length (CSV.o_escape_character o))%nat ->
  exists errors,
    CSV.new w o = Raise (ValidationError errors)
    /\ exists msg, (("delimiter", msg) ∈ errors \/ ("escape_character", msg) ∈ errors).
Proof.
  intros H. unfold CSV.new.
  set (e0 := if CSV.directory_ok w (CSV.o_directory o) then [] else _).
  match goal with
  | |- context [e0 ++ ?a ++ ?b] => set (errors := e0 ++ a ++ b)
  end.
  assert (exists msg, ("delimiter", msg) ∈ errors \/ ("escape_character", msg) ∈ errors)
    as [msg Hin].
  { subst errors. destruct H as [H|H].
    - rewrite (validator_rejects_long _ "delimiter" H). cbn [CSV.field_errors].
      eexists. left. apply elem_of_app. right. apply elem_of_app. left.
      apply list_elem_of_here.
    - rewrite (validator_rejects_long _ "escape_character" H). cbn [CSV.field_errors].
      eexists. right. apply elem_of_app. right. apply elem_of_app. right.
      apply list_elem_of_here. }
  destruct errors as [|e errors'] eqn:E.
  - exfalso. destruct Hin as [Hin|Hin]; inversion Hin.
  - exists (e :: errors'). split; [reflexivity|]. exists msg. exact Hin.
Qed.

(** C6 fails at the empty string: it is not one character, and construction
    with an empty delimiter and an empty escape character succeeds; the
    first [dump] then creates the file and fails inside the [csv] module. *)
Theorem new_accepts_empty_delimiter :
  let w := {| files := ∅; dirs := {["out"]}; log := [] |} in
  let o := {| CSV.o_directory := "out"; CSV.o_delimiter := "";
              CSV.o_escape_character := ""; CSV.o_quoting := CSV.MINIMAL;
              CSV.o_date_time_format := ""; CSV.o_header := true;
              CSV.o_save_strategy := CSV.OVERWRITE |} in
  exists self,
    CSV.new w o = Ok self
    /\ CSV.delimiter self = ""
    /\ exists w',
        CSV.dump self w "t" [[("a", VInt 1)]]
        = (self, w', Raise (TypeError (String DQUOTE "delimiter" +:+ String DQUOTE
                                         " must be a 1-character string")))
        /\ files w' !! "out/t.csv" = Some [].
Proof.
  cbv zeta. eexists. split; [reflexivity|]. split; [reflexivity|].
  eexists. split; reflexivity.
Qed.

(** ** The git-configuration commands *)

Section GitConfigFacts.
Import GitConfig.
Variable ts : ThoughtSpot.

(** After an [HTTPStatusError] the command has printed the two lines and
    fails on the unbound [r]. *)
Lemma config_search_http_error org org_ids response content :
  switch_org ts org = Ok tt ->
  vcs_git_config_search ts org_ids = Raise (HTTPStatusError response content) ->
  config_search ts org org_ids
  = (http_error_lines response content, Raise (UnboundLocalError "r")).
Proof. intros Hs Hc. unfold config_search. rewrite Hs, Hc. reflexivity. Qed.

Lemma config_create_http_error url user token org branches commit guid conf
  response content :
  switch_org ts org = Ok tt ->
  vcs_git_config_create ts url user token org branches commit guid conf
  = Raise (HTTPStatusError response content) ->
  config_create ts (Some url) (Some user) (Some token) org branches commit guid conf
  = (http_error_lines response content, Raise (UnboundLocalError "r")).
Proof. intros Hs Hc. unfold config_create. rewrite Hs, Hc. reflexivity. Qed.

Lemma config_update_http_error user token org branches commit guid conf
  response content :
  switch_org ts org = Ok tt ->
  vcs_git_config_update ts user token org branches commit guid conf
  = Raise (HTTPStatusError response content) ->
  config_update ts user token org branches commit guid conf
  = (http_error_lines response content, Raise (UnboundLocalError "r")).
Proof. intros Hs Hc. unfold config_update. rewrite Hs, Hc. reflexivity. Qed.

Lemma config_delete_http_error org cluster_level response content :
  org_switch ts org = Ok tt ->
  vcs_git_config_delete ts cluster_level = Raise (HTTPStatusError response content) ->
  config_delete ts (Some org) cluster_level
  = (http_error_lines response content, Raise (UnboundLocalError "r")).
Proof. intros Hs Hc. unfold config_delete. rewrite Hs, Hc. reflexivity. Qed.
End GitConfigFacts.

(** C8 fails on all four commands: when the remote call raises
    [HTTPStatusError], the error is caught and its response and content are
    printed, and then the command raises [UnboundLocalError] on the variable
    [r], which the failed call never bound. *)
Theorem git_config_commands_raise_after_http_error :
  let lines := http_error_lines "<Response [400 Bad Request]>" "b'no such repository'" in
  GitConfig.config_create failing_api (Some "url") (Some "user") (Some "token") None None
    None false None
  = (lines, Raise (UnboundLocalError "r"))
  /\ GitConfig.config_update failing_api None None None None None false None
     = (lines, Raise (UnboundLocalError "r"))
  /\ GitConfig.config_search failing_api None None
     = (lines, Raise (UnboundLocalError "r"))
  /\ GitConfig.config_delete failing_api (Some "org") false
     = (lines, Raise (UnboundLocalError "r")).
Proof. repeat split; reflexivity. Qed.

(** ** What [dump] writes *)

Lemma dialect_of_syncer (self : CSV.CSV) :
  single_characters self ->
  exists dialect,
    Csv.dialect_new (CSV.dialect_and_format_parameters self) = Ok dialect
    /\ CSV.delimiter self = String (Csv.delimiter dialect) ""
    /\ CSV.escape_character self = String (Csv.escapechar dialect) ""
    /\ Csv.doublequote dialect = false
    /\ Csv.quotechar dialect = DQUOTE
    /\ Csv.lineterminator dialect = [CR; LF]
    /\ Csv.quoting dialect = CSV.quoting self.
Proof.
  intros [Hd He]. unfold Csv.dialect_new, CSV.dialect_and_format_parameters. simpl.
  destruct (CSV.delimiter self) as [|d [|? ?]]; try discriminate.
  destruct (CSV.escape_character self) as [|e [|? ?]]; try discriminate.
  simpl. eexists. split; [reflexivity|]. simpl. repeat split; reflexivity.
Qed.

Lemma writerow_ok (dialect : Csv.Dialect) (fields : list scalar) :
  Csv.quoting dialect <> Csv.QUOTE_NONE ->
  exists line, Csv.writerow dialect fields = Ok line.
Proof.
  intros Hq. unfold Csv.writerow.
  destruct (Csv.join_fields dialect [] 0 fields) as [rec [|n]].
  - eexists; reflexivity.
  - destruct rec; [|eexists; reflexivity].
    destruct (Csv.quoting dialect); [eexists; reflexivity ..|congruence].
Qed.

Lemma wrong_fields_keys (fieldnames : list string) (r : record) :
  (forall k, In k (keys r) -> In k fieldnames) -> Csv.wrong_fields fieldnames r = [].
Proof.
  unfold Csv.wrong_fields. induction (keys r) as [|k ks IH]; intros H; [reflexivity|].
  cbn [filter list_filter]. 
  assert (existsb (String.eqb k) fieldnames = true) as Hk.
  { apply existsb_exists. exists k. split; [apply H; left; reflexivity | apply String.eqb_refl]. }
  rewrite decide_False by (rewrite Hk; simpl; auto).
  apply IH. intros k' Hk'. apply H. right. exact Hk'.
Qed.

Lemma wrong_fields_self (r : record) : Csv.wrong_fields (keys r) r = [].
Proof. apply wrong_fields_keys. auto. Qed.

Lemma keys_format_datetime_values (r : record) (fmt : string) :
  keys (SyncUtils.format_datetime_values r fmt) = keys r.
Proof.
  unfold keys, SyncUtils.format_datetime_values. rewrite map_map. reflexivity.
Qed.

Lemma wrong_fields_format (fieldnames : list string) (r : record) (fmt : string) :
  Csv.wrong_fields fieldnames (SyncUtils.format_datetime_values r fmt)
  = Csv.wrong_fields fieldnames r.
Proof. unfold Csv.wrong_fields. rewrite keys_format_datetime_values. reflexivity. Qed.

Lemma writerows_ok (dialect : Csv.Dialect) (fieldnames : list string) (rows : list record) :
  Csv.quoting dialect <> Csv.QUOTE_NONE ->
  Forall (fun r => Csv.wrong_fields fieldnames r = []) rows ->
  snd (Csv.writerows dialect fieldnames rows) = None.
Proof.
  intros Hq. induction 1 as [|r rows Hr _ IH]; [reflexivity|].
  cbn [Csv.writerows]. unfold Csv._dict_to_list. rewrite Hr. cbn [mbind result_mbind result_bind].
  destruct (writerow_ok dialect (map (fun key => record_get r key (VText "")) fieldnames) Hq)
    as [line ->].
  destruct (Csv.writerows dialect fieldnames rows) as [rest err]. simpl in *. exact IH.
Qed.

Lemma read_set_file w p text : Path.read (Path.set_file w p text) p = text.
Proof. unfold Path.read, Path.set_file. simpl. rewrite lookup_insert_eq. reflexivity. Qed.

Lemma files_write w p text :
  files (Path.write w p text) !! p = Some (Path.read w p ++ text).
Proof. unfold Path.write, Path.set_file. simpl. apply lookup_insert_eq. Qed.

Lemma read_write w p text : Path.read (Path.write w p text) p = Path.read w p ++ text.
Proof. unfold Path.read at 1. rewrite files_write. reflexivity. Qed.

Lemma is_dir_write w p text q : Path.is_dir (Path.write w p text) q = Path.is_dir w q.
Proof. reflexivity. Qed.

(** Opening for appending keeps the text of the file; opening for writing
    empties it. *)
Lemma open_append_read w p w' :
  Path.open w p Path.mode_a = Ok w' -> Path.read w' p = Path.read w p.
Proof.
  unfold Path.open. destruct (Path.is_dir w p); [discriminate|].
  destruct (files w !! p) as [text|] eqn:E.
  - intros [= <-]. reflexivity.
  - destruct (Path.is_dir w (Path.parent p)); [|discriminate].
    intros [= <-]. rewrite read_set_file. unfold Path.read. rewrite E. reflexivity.
Qed.

Lemma open_write_read w p w' :
  Path.open w p Path.mode_w = Ok w' -> Path.read w' p = [].
Proof.
  unfold Path.open. destruct (Path.is_dir w p); [discriminate|].
  assert (Path.is_dir w (Path.parent p) = true -> Ok (Path.set_file w p []) = Ok w' ->
          Path.read w' p = []) as H by (intros _ [= <-]; apply read_set_file).
  destruct (files w !! p), (Path.is_dir w (Path.parent p)); try discriminate; auto.
Qed.

(** A file that was written to can be opened again. *)
Lemma open_append_again w p text :
  Path.is_dir w p = false ->
  Path.open (Path.write w p text) p Path.mode_a = Ok (Path.write w p text).
Proof.
  intros Hd. unfold Path.open.
  change (Path.is_dir (Path.write w p text) p) with (Path.is_dir w p).
  rewrite Hd. pose proof (files_write w p text) as E.
  destruct (files (Path.write w p text) !! p); [reflexivity | discriminate].
Qed.

Lemma open_write_again w p text :
  Path.is_dir w p = false -> Path.is_dir w (Path.parent p) = true ->
  Path.open (Path.write w p text) p Path.mode_w
  = Ok (Path.set_file (Path.write w p text) p []).
Proof.
  intros Hd Hp. unfold Path.open.
  change (Path.is_dir (Path.write w p text) p) with (Path.is_dir w p).
  change (Path.is_dir (Path.write w p text) (Path.parent p))
    with (Path.is_dir w (Path.parent p)).
  rewrite Hd, Hp. destruct (files (Path.write w p text) !! p); reflexivity.
Qed.

Lemma open_is_dir w p m w' q :
  Path.open w p m = Ok w' -> Path.is_dir w' q = Path.is_dir w q /\ Path.is_dir w p = false.
Proof.
  unfold Path.open. destruct (Path.is_dir w p) eqn:E; [discriminate|].
  destruct m, (files w !! p), (Path.is_dir w (Path.parent p));
    try discriminate; intros [= <-]; split; reflexivity.
Qed.

Lemma open_write_parent w p w' :
  Path.open w p Path.mode_w = Ok w' -> Path.is_dir w (Path.parent p) = true.
Proof.
  unfold Path.open. destruct (Path.is_dir w p); [discriminate|].
  destruct (files w !! p), (Path.is_dir w (Path.parent p)); try discriminate; reflexivity.
Qed.

(** A [dump] of a homogeneous batch through a dialect that the [csv] module
    accepts, into a file that can be opened: the header line when it is due,
    then the rows. *)
Lemma dump_succeeds (self : CSV.CSV) (w w' : World) (name : string)
  (first : record) (rest : list record) (dialect : Csv.Dialect) :
  constructed self ->
  Csv.dialect_new (CSV.dialect_and_format_parameters self) = Ok dialect ->
  Csv.quoting dialect = CSV.quoting self ->
  homogeneous (first :: rest) ->
  Path.open w (CSV.path_of self name) (open_mode self) = Ok w' ->
  exists header_line,
    Csv.writeheader dialect (keys first) = Ok header_line
    /\ CSV.dump self w name (first :: rest)
       = (if header_due self name then CSV.mark_header self name else self,
          Path.write (if header_due self name
                      then Path.write w' (CSV.path_of self name) header_line
                      else w')
                     (CSV.path_of self name) (rows_text dialect self (first :: rest)),
          Ok tt).
Proof.
  intros Hc Hd Hq Hh Ho.
  assert (Csv.quoting dialect <> Csv.QUOTE_NONE) as Hqn.
  { rewrite Hq. destruct Hc as [-> | ->]; discriminate. }
  destruct (writerow_ok dialect (map VText (keys first)) Hqn) as [header_line Hhl].
  exists header_line. split; [exact Hhl|].
  unfold CSV.dump. fold (open_mode self). rewrite Ho, Hd.
  fold (header_due self name). unfold Csv.writeheader in Hhl. unfold Csv.writeheader.
  rewrite Hhl.
  assert (snd (Csv.writerows dialect (keys first)
                 (map (fun r => SyncUtils.format_datetime_values r (CSV.date_time_format self))
                      (first :: rest))) = None) as Herr.
  { apply writerows_ok; [exact Hqn|]. apply Forall_map. constructor.
    - simpl. rewrite wrong_fields_format. apply wrong_fields_self.
    - eapply Forall_impl; [exact Hh|]. intros r Hr. simpl. rewrite wrong_fields_format. exact Hr. }
  unfold rows_text.
  destruct (Csv.writerows dialect (keys first) _) as [text err]. simpl in Herr. subst err.
  destruct (header_due self name); reflexivity.
Qed.

Lemma header_due_fresh (self : CSV.CSV) (name : string) :
  CSV.header self = true -> CSV._written_header self !! name = None ->
  header_due self name = true.
Proof. intros Hh Hn. unfold header_due. rewrite Hh, Hn. reflexivity. Qed.

Lemma header_due_marked (self : CSV.CSV) (name : string) :
  header_due (CSV.mark_header self name) name = false.
Proof.
  unfold header_due, CSV.mark_header. simpl. rewrite lookup_insert_eq. simpl.
  apply andb_false_r.
Qed.

Lemma header_due_after_dump (self : CSV.CSV) (name : string) :
  header_due (if header_due self name then CSV.mark_header self name else self) name = false.
Proof.
  destruct (header_due self name) eqn:E; [apply header_due_marked | exact E].
Qed.

(** C4: on a syncer in [APPEND] mode with [header = true] that has not yet
    written to the table, whose delimiter and escape character are one
    character each, when no record has a key that the first record of its
    batch lacks and the file can be opened for appending, two [dump] calls
    with non-empty batches both succeed and leave in the file what was
    there before, then the header line once, then the rows of the first
    batch, then the rows of the second. *)
Theorem csv_append_writes_header_once (self : CSV.CSV) (w w' : World) (name : string)
  (first1 : record) (rest1 : list record) (first2 : record) (rest2 : list record) :
  constructed self ->
  single_characters self ->
  CSV.save_strategy self = CSV.APPEND ->
  CSV.header self = true ->
  CSV._written_header self !! name = None ->
  homogeneous (first1 :: rest1) ->
  homogeneous (first2 :: rest2) ->
  Path.open w (CSV.path_of self name) Path.mode_a = Ok w' ->
  exists dialect header_line self1 w1 self2 w2,
    Csv.dialect_new (CSV.dialect_and_format_parameters self) = Ok dialect
    /\ Csv.writeheader dialect (keys first1) = Ok header_line
    /\ CSV.dump self w name (first1 :: rest1) = (self1, w1, Ok tt)
    /\ CSV.dump self1 w1 name (first2 :: rest2) = (self2, w2, Ok tt)
    /\ files w2 !! CSV.path_of self name
       = Some (Path.read w (CSV.path_of self name)
               ++ header_line
               ++ rows_text dialect self (first1 :: rest1)
               ++ rows_text dialect self (first2 :: rest2)).
Proof.
  intros Hc Hs Ha Hh Hn H1 H2 Ho.
  destruct (dialect_of_syncer self Hs) as (dialect & Hd & _ & _ & _ & _ & _ & Hq).
  assert (open_mode self = Path.mode_a) as Hm by (unfold open_mode; rewrite Ha; reflexivity).
  destruct (dump_succeeds self w w' name first1 rest1 dialect Hc Hd Hq H1) as (hl & Hhl & D1).
  { rewrite Hm. exact Ho. }
  rewrite (header_due_fresh self name Hh Hn) in D1.
  set (p := CSV.path_of self name) in *.
  set (self1 := CSV.mark_header self name) in *.
  set (w1 := Path.write (Path.write w' p hl) p (rows_text dialect self (first1 :: rest1))) in *.
  destruct (open_is_dir w p Path.mode_a w' p Ho) as [Hdir' Hdir].
  assert (Path.open w1 (CSV.path_of self1 name) (open_mode self1) = Ok w1) as Ho1.
  { change (CSV.path_of self1 name) with p. change (open_mode self1) with (open_mode self).
    rewrite Hm. apply open_append_again.
    change (Path.is_dir (Path.write w' p hl) p) with (Path.is_dir w' p). congruence. }
  destruct (dump_succeeds self1 w1 w1 name first2 rest2 dialect) as (hl2 & _ & D2);
    [exact Hc | exact Hd | exact Hq | exact H2 | exact Ho1 |].
  assert (header_due self1 name = false) as Hdue by apply header_due_marked.
  rewrite Hdue in D2.
  exists dialect, hl, self1, w1, self1. eexists. split; [exact Hd|]. split; [exact Hhl|].
  split; [exact D1|]. split; [exact D2|].
  change (CSV.path_of self1 name) with p. rewrite files_write. f_equal.
  change (rows_text dialect self1 (first2 :: rest2))
    with (rows_text dialect self (first2 :: rest2)).
  subst w1. rewrite !read_write. rewrite (open_append_read w p w' Ho).
  rewrite <- !app_assoc. reflexivity.
Qed.

(** C5: on a syncer in [OVERWRITE] mode whose delimiter and escape
    character are one character each, when no record has a key that the
    first record of its batch lacks and the file can be opened for
    writing, a [dump] of a non-empty batch leaves nothing in the file of
    what was there before the call; after two calls on the same table the
    file holds the rows of the second batch and nothing else. *)
Theorem csv_overwrite_keeps_last_dump (self : CSV.CSV) (w w' : World) (name : string)
  (first1 : record) (rest1 : list record) (first2 : record) (rest2 : list record) :
  constructed self ->
  single_characters self ->
  CSV.save_strategy self = CSV.OVERWRITE ->
  homogeneous (first1 :: rest1) ->
  homogeneous (first2 :: rest2) ->
  Path.open w (CSV.path_of self name) Path.mode_w = Ok w' ->
  exists dialect header_line self1 w1 self2 w2,
    Csv.dialect_new (CSV.dialect_and_format_parameters self) = Ok dialect
    /\ Csv.writeheader dialect (keys first1) = Ok header_line
    /\ CSV.dump self w name (first1 :: rest1) = (self1, w1, Ok tt)
    /\ files w1 !! CSV.path_of self name
       = Some ((if header_due self name then header_line else [])
               ++ rows_text dialect self (first1 :: rest1))
    /\ CSV.dump self1 w1 name (first2 :: rest2) = (self2, w2, Ok tt)
    /\ files w2 !! CSV.path_of self name = Some (rows_text dialect self (first2 :: rest2)).
Proof.
  intros Hc Hs Ha H1 H2 Ho.
  destruct (dialect_of_syncer self Hs) as (dialect & Hd & _ & _ & _ & _ & _ & Hq).
  assert (open_mode self = Path.mode_w) as Hm by (unfold open_mode; rewrite Ha; reflexivity).
  destruct (dump_succeeds self w w' name first1 rest1 dialect Hc Hd Hq H1) as (hl & Hhl & D1).
  { rewrite Hm. exact Ho. }
  set (p := CSV.path_of self name) in *.
  set (self1 := if header_due self name then CSV.mark_header self name else self) in *.
  set (w0 := if header_due self name then Path.write w' p hl else w') in *.
  set (w1 := Path.write w0 p (rows_text dialect self (first1 :: rest1))) in *.
  destruct (open_is_dir w p Path.mode_w w' p Ho) as [Hdir' Hdir].
  pose proof (open_write_parent w p w' Ho) as Hpar.
  destruct (open_is_dir w p Path.mode_w w' (Path.parent p) Ho) as [Hpar' _].
  assert (forall q, Path.is_dir w0 q = Path.is_dir w' q) as Hw0
    by (intros q; subst w0; destruct (header_due self name); reflexivity).
  assert (CSV.path_of self1 name = p /\ open_mode self1 = Path.mode_w
          /\ CSV.dialect_and_format_parameters self1 = CSV.dialect_and_format_parameters self
          /\ CSV.quoting self1 = CSV.quoting self
          /\ rows_text dialect self1 (first2 :: rest2) = rows_text dialect self (first2 :: rest2))
    as (Hp1 & Hm1 & Hd1 & Hq1 & Hr1).
  { subst self1. destruct (header_due self name); repeat split; try reflexivity; exact Hm. }
  assert (Path.open w1 (CSV.path_of self1 name) (open_mode self1)
          = Ok (Path.set_file w1 p [])) as Ho1.
  { rewrite Hp1, Hm1. apply open_write_again; rewrite Hw0; congruence. }
  destruct (dump_succeeds self1 w1 (Path.set_file w1 p []) name first2 rest2 dialect)
    as (hl2 & _ & D2);
    [unfold constructed; rewrite Hq1; exact Hc | rewrite Hd1; exact Hd
    | rewrite Hq1; exact Hq | exact H2 | exact Ho1 |].
  assert (header_due self1 name = false) as Hdue by apply header_due_after_dump.
  rewrite Hdue, Hp1, Hr1 in D2.
  exists dialect, hl, self1, w1, self1. eexists. split; [exact Hd|]. split; [exact Hhl|].
  split; [exact D1|]. split; [|split; [exact D2|]].
  - subst w1. rewrite files_write. f_equal. f_equal. subst w0.
    destruct (header_due self name).
    + rewrite read_write, (open_write_read w p w' Ho). reflexivity.
    + apply (open_write_read w p w' Ho).
  - rewrite files_write, read_set_file. reflexivity.
Qed.

Lemma csv_append_writes_header_once_witness :
  exists dialect header_line self1 w1 self2 w2,
    Csv.dialect_new (CSV.dialect_and_format_parameters (example_syncer CSV.APPEND))
    = Ok dialect
    /\ Csv.writeheader dialect ["a"; "b"] = Ok header_line
    /\ CSV.dump (example_syncer CSV.APPEND) example_world "t"
         [[("a", VInt 1); ("b", VText "x")]] = (self1, w1, Ok tt)
    /\ CSV.dump self1 w1 "t" [[("a", VInt 2); ("b", VNull)]] = (self2, w2, Ok tt)
    /\ files w2 !! "out/t.csv"
       = Some (Path.read example_world "out/t.csv"
               ++ header_line
               ++ rows_text dialect (example_syncer CSV.APPEND)
                    [[("a", VInt 1); ("b", VText "x")]]
               ++ rows_text dialect (example_syncer CSV.APPEND)
                    [[("a", VInt 2); ("b", VNull)]]).
Proof.
  apply (csv_append_writes_header_once (example_syncer CSV.APPEND) example_world
           (Path.set_file example_world "out/t.csv" []) "t"
           [("a", VInt 1); ("b", VText "x")] [] [("a", VInt 2); ("b", VNull)] []).
  - right. reflexivity.
  - split; reflexivity.
  - reflexivity.
  - reflexivity.
  - reflexivity.
  - constructor.
  - constructor.
  - reflexivity.
Defined.

Lemma csv_overwrite_keeps_last_dump_witness :
  exists dialect header_line self1 w1 self2 w2,
    Csv.dialect_new (CSV.dialect_and_format_parameters (example_syncer CSV.OVERWRITE))
    = Ok dialect
    /\ Csv.writeheader dialect ["a"; "b"] = Ok header_line
    /\ CSV.dump (example_syncer CSV.OVERWRITE) example_world "t"
         [[("a", VInt 1); ("b", VText "x")]] = (self1, w1, Ok tt)
    /\ files w1 !! "out/t.csv"
       = Some ((if header_due (example_syncer CSV.OVERWRITE) "t" then header_line else [])
               ++ rows_text dialect (example_syncer CSV.OVERWRITE)
                    [[("a", VInt 1); ("b", VText "x")]])
    /\ CSV.dump self1 w1 "t" [[("a", VInt 2); ("b", VNull)]] = (self2, w2, Ok tt)
    /\ files w2 !! "out/t.csv"
       = Some (rows_text dialect (example_syncer CSV.OVERWRITE)
                 [[("a", VInt 2); ("b", VNull)]]).
Proof.
  apply (csv_overwrite_keeps_last_dump (example_syncer CSV.OVERWRITE) example_world
           (Path.set_file example_world "out/t.csv" []) "t"
           [("a", VInt 1); ("b", VText "x")] [] [("a", VInt 2); ("b", VNull)] []).
  - right. reflexivity.
  - split; reflexivity.
  - reflexivity.
  - constructor.
  - constructor.
  - reflexivity.
Defined.

(** C4, where the sentence fails.  A record with a key that the first
    record of its batch lacks stops the [dump] with [ValueError]: of the
    batch [{"a": 1}, {"a": 2, "b": 3}] only the first record reaches the
    file.  A syncer constructed on a directory that is not there, or with
    an empty delimiter, raises in both calls and writes neither header nor
    record. *)
Lemma csv_append_writes_header_once_counterexample :
  (exists self1 w1 msg self2 w2,
     CSV.dump (example_syncer CSV.APPEND) example_world "t"
       [[("a", VInt 1)]; [("a", VInt 2); ("b", VInt 3)]]
     = (self1, w1, Raise (ValueError msg))
     /\ CSV.dump self1 w1 "t" [[("a", VInt 4)]] = (self2, w2, Ok tt)
     /\ files w2 !! "out/t.csv"
        = Some (list_ascii_of_string "a" ++ [CR; LF]
                ++ list_ascii_of_string "1" ++ [CR; LF]
                ++ list_ascii_of_string "4" ++ [CR; LF]))
  /\ (let o := {| CSV.o_directory := "out"; CSV.o_delimiter := "|";
                  CSV.o_escape_character := "\"; CSV.o_quoting := CSV.MINIMAL;
                  CSV.o_date_time_format := "%Y-%m-%d %H:%M:%S"; CSV.o_header := true;
                  CSV.o_save_strategy := CSV.APPEND |} in
      exists self,
        CSV.new example_world_no_directory o = Ok self
        /\ CSV.dump self example_world_no_directory "t" [[("a", VInt 1)]]
           = (self, example_world_no_directory, Raise (FileNotFoundError "out/t.csv"))
        /\ CSV.dump self example_world_no_directory "t" [[("a", VInt 2)]]
           = (self, example_world_no_directory, Raise (FileNotFoundError "out/t.csv"))
        /\ files example_world_no_directory !! "out/t.csv" = None)
  /\ (let o := {| CSV.o_directory := "out"; CSV.o_delimiter := "";
                  CSV.o_escape_character := "\"; CSV.o_quoting := CSV.MINIMAL;
                  CSV.o_date_time_format := "%Y-%m-%d %H:%M:%S"; CSV.o_header := true;
                  CSV.o_save_strategy := CSV.APPEND |} in
      exists self w1 msg,
        CSV.new example_world o = Ok self
        /\ CSV.dump self example_world "t" [[("a", VInt 1)]] = (self, w1, Raise (TypeError msg))
        /\ CSV.dump self w1 "t" [[("a", VInt 2)]] = (self, w1, Raise (TypeError msg))
        /\ files w1 !! "out/t.csv" = Some []).
Proof.
  split; [|split].
  - do 5 eexists. split; [reflexivity|]. split; reflexivity.
  - cbv zeta. eexists. split; [reflexivity|]. repeat split; reflexivity.
  - cbv zeta. do 3 eexists. split; [reflexivity|]. split; [reflexivity|].
    split; reflexivity.
Qed.

(** C5, where the sentence fails.  When a record of the second batch has a
    key that the first record of the batch lacks, the file is left with
    the records before it and not with the batch; a syncer constructed on
    a directory that is not there leaves no file, and one constructed with
    an empty delimiter leaves an empty file. *)
Lemma csv_overwrite_keeps_last_dump_counterexample :
  (exists self1 w1 self2 w2 msg,
     CSV.dump (example_syncer CSV.OVERWRITE) example_world "t" [[("a", VInt 1)]]
     = (self1, w1, Ok tt)
     /\ CSV.dump self1 w1 "t" [[("a", VInt 2)]; [("a", VInt 3); ("b", VInt 4)]]
        = (self2, w2, Raise (ValueError msg))
     /\ files w2 !! "out/t.csv" = Some (list_ascii_of_string "2" ++ [CR; LF]))
  /\ (exists self,
        CSV.new example_world_no_directory (CSV.default_options "out" "%Y-%m-%d %H:%M:%S")
        = Ok self
        /\ CSV.save_strategy self = CSV.OVERWRITE
        /\ CSV.dump self example_world_no_directory "t" [[("a", VInt 1)]]
           = (self, example_world_no_directory, Raise (FileNotFoundError "out/t.csv"))
        /\ CSV.dump self example_world_no_directory "t" [[("a", VInt 2)]]
           = (self, example_world_no_directory, Raise (FileNotFoundError "out/t.csv"))
        /\ files example_world_no_directory !! "out/t.csv" = None)
  /\ (let o := {| CSV.o_directory := "out"; CSV.o_delimiter := "";
                  CSV.o_escape_character := "\"; CSV.o_quoting := CSV.MINIMAL;
                  CSV.o_date_time_format := "%Y-%m-%d %H:%M:%S"; CSV.o_header := true;
                  CSV.o_save_strategy := CSV.OVERWRITE |} in
      exists self w1 msg,
        CSV.new example_world o = Ok self
        /\ CSV.dump self example_world "t" [[("a", VInt 1)]] = (self, w1, Raise (TypeError msg))
        /\ CSV.dump self w1 "t" [[("a", VInt 2)]] = (self, w1, Raise (TypeError msg))
        /\ files w1 !! "out/t.csv" = Some []).
Proof.
  split; [|split].
  - do 5 eexists. split; [reflexivity|]. split; reflexivity.
  - eexists. split; [reflexivity|]. repeat split; reflexivity.
  - cbv zeta. do 3 eexists. split; [reflexivity|]. split; [reflexivity|].
    split; reflexivity.
Qed.

(** ** Escaping of the quote character *)

Lemma join_append_data_app (dialect : Csv.Dialect) (s1 s2 : list ascii) (quoted : bool) :
  Csv.join_append_data dialect (s1 ++ s2) quoted
  = (fst (Csv.join_append_data dialect s1 quoted)
     ++ fst (Csv.join_append_data dialect s2 (snd (Csv.join_append_data dialect s1 quoted))),
     snd (Csv.join_append_data dialect s2 (snd (Csv.join_append_data dialect s1 quoted)))).
Proof.
  revert quoted. induction s1 as [|c s1 IH]; intros quoted.
  - simpl. destruct (Csv.join_append_data dialect s2 quoted). reflexivity.
  - cbn [app Csv.join_append_data].
    destruct (Csv.join_append_char dialect c quoted) as [out q1].
    rewrite IH.
    destruct (Csv.join_append_data dialect s1 q1) as [o1 q2]. cbn [fst snd].
    destruct (Csv.join_append_data dialect s2 q2) as [o2 q3]. cbn [fst snd].
    rewrite app_assoc. reflexivity.
Qed.

(** Under the dialect of the syncer a quote character is written as the
    escape character and the quote character, and decides nothing about the
    quoting of the field. *)
Lemma join_append_char_quote (dialect : Csv.Dialect) (quoted : bool) :
  Csv.doublequote dialect = false -> Csv.quotechar dialect = DQUOTE ->
  Csv.join_append_char dialect DQUOTE quoted = ([Csv.escapechar dialect; DQUOTE], quoted).
Proof.
  intros Hdq Hq. unfold Csv.join_append_char, Csv.special. rewrite Hq, Hdq.
  rewrite Ascii.eqb_refl, !orb_true_r. simpl. destruct (Csv.quoting dialect); reflexivity.
Qed.

(** C7, as amended: under the dialect that the syncer hands to the [csv]
    module, a quote character anywhere in a field, quoted or not, is written
    as the escape character followed by the quote character; that differs
    from a doubled quote character when the escape character is not itself
    the quote character. *)
Theorem csv_quote_is_escaped (self : CSV.CSV) (dialect : Csv.Dialect)
  (before after : list ascii) (quoted : bool) :
  Csv.dialect_new (CSV.dialect_and_format_parameters self) = Ok dialect ->
  CSV.escape_character self = String (Csv.escapechar dialect) ""
  /\ (let done := Csv.join_append_data dialect before quoted in
      let rest := Csv.join_append_data dialect after (snd done) in
      Csv.join_append_data dialect (before ++ DQUOTE :: after) quoted
      = (fst done ++ [Csv.escapechar dialect; DQUOTE] ++ fst rest, snd rest))
  /\ (Csv.escapechar dialect <> DQUOTE ->
      [Csv.escapechar dialect; DQUOTE] <> [DQUOTE; DQUOTE]).
Proof.
  intros Hd.
  assert (CSV.escape_character self = String (Csv.escapechar dialect) ""
          /\ Csv.doublequote dialect = false /\ Csv.quotechar dialect = DQUOTE)
    as (He & Hdq & Hq).
  { unfold Csv.dialect_new, CSV.dialect_and_format_parameters in Hd. simpl in Hd.
    destruct (CSV.delimiter self) as [|d [|? ?]]; try discriminate.
    destruct (CSV.escape_character self) as [|e [|? ?]]; try discriminate.
    simpl in Hd. injection Hd as <-. repeat split; reflexivity. }
  split; [exact He|]. split; [|congruence].
  cbv zeta. rewrite join_append_data_app. cbn [Csv.join_append_data].
  rewrite join_append_char_quote by assumption.
  destruct (Csv.join_append_data dialect before quoted) as [o1 q1]. cbn [fst snd].
  destruct (Csv.join_append_data dialect after q1) as [o2 q2]. reflexivity.
Qed.

Lemma csv_quote_is_escaped_witness :
  exists dialect,
    Csv.dialect_new (CSV.dialect_and_format_parameters (example_syncer CSV.APPEND))
    = Ok dialect
    /\ CSV.escape_character (example_syncer CSV.APPEND) = String (Csv.escapechar dialect) ""
    /\ Csv.join_append_data dialect (["a"%char] ++ DQUOTE :: ["b"%char]) false
       = (fst (Csv.join_append_data dialect ["a"%char] false)
          ++ [Csv.escapechar dialect; DQUOTE]
          ++ fst (Csv.join_append_data dialect ["b"%char]
                    (snd (Csv.join_append_data dialect ["a"%char] false))),
          snd (Csv.join_append_data dialect ["b"%char]
                 (snd (Csv.join_append_data dialect ["a"%char] false))))
    /\ (Csv.escapechar dialect <> DQUOTE ->
        [Csv.escapechar dialect; DQUOTE] <> [DQUOTE; DQUOTE]).
Proof.
  eexists. split; [reflexivity|].
  apply (csv_quote_is_escaped (example_syncer CSV.APPEND) _ ["a"%char] ["b"%char] false).
  reflexivity.
Defined.

(** C7 as stated fails when the escape character is the quote character: the
    constructor accepts it, and the quote inside the quoted field is then
    written doubled. *)
Lemma csv_quote_is_escaped_counterexample :
  let o := {| CSV.o_directory := "out"; CSV.o_delimiter := "|";
              CSV.o_escape_character := String DQUOTE ""; CSV.o_quoting := CSV.ALL;
              CSV.o_date_time_format := ""; CSV.o_header := true;
              CSV.o_save_strategy := CSV.OVERWRITE |} in
  exists self dialect,
    CSV.new example_world o = Ok self
    /\ Csv.dialect_new (CSV.dialect_and_format_parameters self) = Ok dialect
    /\ Csv.writerow dialect [VText (String "a" (String DQUOTE "b"))]
       = Ok [DQUOTE; "a"; DQUOTE; DQUOTE; "b"; DQUOTE; CR; LF]%char.
Proof. cbv zeta. eexists. eexists. repeat split; reflexivity. Qed.

(** ** The text of a written record *)

Section WriterFacts.
Variable d : Csv.Dialect.
Hypothesis Hsep : separable d.

Lemma join_append_char_separable (c : ascii) (quoted : bool) :
  Csv.join_append_char d c quoted = (escaped d c, quoted || forces_quotes d c).
Proof.
  destruct Hsep as [Hdq Hq Hlt Hqn Hde Hdq' Hdc Heq Hec].
  unfold Csv.join_append_char, Csv.special, escaped, forces_quotes.
  rewrite Hq, Hdq, Hlt. cbn [existsb].
  unfold Csv.is_crnl in *.
  destruct (Ascii.eqb_spec c DQUOTE) as [->|Hcq].
  - destruct (Ascii.eqb_spec DQUOTE (Csv.delimiter d)); [congruence|].
    rewrite !orb_true_r. simpl. rewrite orb_false_r.
    destruct (Csv.quoting d); try reflexivity; congruence.
  - destruct (Ascii.eqb_spec c (Csv.escapechar d)) as [->|Hce].
    + destruct (Ascii.eqb_spec (Csv.escapechar d) (Csv.delimiter d)); [congruence|].
      rewrite Hec. simpl. rewrite orb_false_r.
      destruct (Csv.quoting d); try reflexivity; congruence.
    + simpl. rewrite !orb_false_r.
      destruct (Ascii.eqb c (Csv.delimiter d)), (Ascii.eqb c LF), (Ascii.eqb c CR);
        simpl; rewrite ?orb_true_r, ?orb_false_r;
        destruct (Csv.quoting d); try reflexivity; congruence.
Qed.

Lemma join_append_data_separable (t : list ascii) (quoted : bool) :
  Csv.join_append_data d t quoted
  = (flat_map (escaped d) t, quoted || existsb (forces_quotes d) t).
Proof.
  revert quoted. induction t as [|c t IH]; intros quoted.
  - simpl. rewrite orb_false_r. reflexivity.
  - cbn [Csv.join_append_data]. rewrite join_append_char_separable, IH.
    cbn [flat_map existsb]. rewrite orb_assoc. reflexivity.
Qed.

Lemma join_append_separable (rec t : list ascii) (n : nat) :
  Csv.join_append d rec n t
    (match Csv.quoting d with Csv.QUOTE_ALL => true | _ => false end)
  = rec ++ (if n is O then [] else [Csv.delimiter d]) ++ encoded d t.
Proof.
  destruct Hsep as [_ Hq _ _ _ _ _ _ _].
  unfold Csv.join_append, encoded, is_quoted. rewrite join_append_data_separable, Hq.
  destruct (Csv.quoting d); cbn [orb];
    destruct (existsb (forces_quotes d) t); cbn [app]; rewrite ?app_nil_r; reflexivity.
Qed.

Lemma join_fields_separable (fields : list scalar) (rec : list ascii) (n : nat) :
  Csv.join_fields d rec (S n) fields
  = (rec ++ encoded_tail d (map Csv.field_text fields), (S n + length fields)%nat).
Proof.
  revert rec n. induction fields as [|v fields IH]; intros rec n.
  - simpl. rewrite app_nil_r. f_equal. lia.
  - cbn [Csv.join_fields]. rewrite join_append_separable, IH.
    unfold encoded_tail. cbn [map flat_map length]. rewrite <- !app_assoc. f_equal. lia.
Qed.

Lemma encoded_nil_iff (t : list ascii) : encoded d t = [] <-> t = [] /\ is_quoted d t = false.
Proof.
  unfold encoded. destruct (is_quoted d t); [split; [discriminate | intros [_ ?]; discriminate]|].
  destruct t as [|c t]; [tauto|].
  cbn [flat_map]. unfold escaped at 1.
  destruct (_ || _); split; try discriminate; intros [? _]; discriminate.
Qed.

(** [writerow] writes the encoded fields between delimiters, then CRLF. *)
Lemma writerow_separable (fields : list scalar) :
  Csv.writerow d fields = Ok (encoded_row d (map Csv.field_text fields)).
Proof.
  destruct Hsep as [Hdq Hq Hlt Hqn Hde Hdq' Hdc Heq Hec].
  unfold Csv.writerow. destruct fields as [|v fields].
  - simpl. rewrite Hlt. reflexivity.
  - cbn [Csv.join_fields]. rewrite join_append_separable, join_fields_separable.
    cbn [app Nat.add]. rewrite Hlt.
    destruct (encoded d (Csv.field_text v) ++ encoded_tail d (map Csv.field_text fields))
      as [|c rec] eqn:E.
    + apply app_eq_nil in E as [E1 E2]. apply encoded_nil_iff in E1 as [Ht Hnq].
      destruct fields as [|v' fields]; [|discriminate E2].
      cbn [map]. rewrite Ht. cbn [encoded_row].
      unfold Csv.join_append. rewrite join_append_data_separable, Hq. simpl.
      destruct (Csv.quoting d); try reflexivity; congruence.
    + f_equal. cbn [map encoded_row]. rewrite <- E.
      destruct (Csv.field_text v) as [|c0 t0] eqn:Ev.
      * destruct fields as [|v' fields].
        -- simpl in E. rewrite app_nil_r in E. cbn [map encoded_tail flat_map app].
           rewrite app_nil_r. unfold encoded in *.
           destruct (is_quoted d []); [reflexivity | discriminate].
        -- cbn [map]. rewrite <- app_assoc. reflexivity.
      * rewrite <- app_assoc. reflexivity.
Qed.
End WriterFacts.

(** ** The reader, character by character *)

Section ReaderFacts.
Variable d : Csv.Dialect.
Implicit Types (self : Csv.Reader) (line text : list ascii).

Lemma feed_snoc self line c :
  feed d self (line ++ [c])
  = (self' ← feed d self line; Csv.parse_process_char d self' (Csv.Char c)).
Proof. unfold feed. rewrite foldl_app. reflexivity. Qed.

Lemma feed_raise e line :
  foldl (fun r c => self ← r; Csv.parse_process_char d self (Csv.Char c)) (Raise e) line
  = Raise e.
Proof. induction line as [|c line IH]; [reflexivity | exact IH]. Qed.

Lemma feed_cons self line c :
  feed d self (c :: line)
  = (self' ← Csv.parse_process_char d self (Csv.Char c); feed d self' line).
Proof.
  unfold feed. cbn [foldl]. cbn [mbind result_mbind result_bind].
  destruct (Csv.parse_process_char d self (Csv.Char c)); [reflexivity | apply feed_raise].
Qed.

Lemma parse_line_feed self line :
  Csv.parse_line d self line
  = (self' ← feed d self line; Csv.parse_process_char d self' Csv.EOL).
Proof.
  revert self. induction line as [|c line IH]; intros self.
  - reflexivity.
  - cbn [Csv.parse_line]. rewrite feed_cons.
    destruct (Csv.parse_process_char d self (Csv.Char c)); [apply IH | reflexivity].
Qed.

Lemma reader_rows_nil self : Csv.reader_rows d self [] = end_of_input self.
Proof. reflexivity. Qed.

(** A line and the lines after it, in the words of [end_of_line]. *)
Lemma reader_rows_cons self0 self line lines :
  feed d self0 line = Ok self ->
  Csv.reader_rows d self0 (line :: lines)
  = end_of_line d self (fun self => Csv.reader_rows d self lines).
Proof.
  intros Hf. cbn [Csv.reader_rows]. rewrite parse_line_feed, Hf. reflexivity.
Qed.

(** Whenever the run over the text succeeds, the reader gives the same rows
    on the lines of the text. *)
Lemma reader_rows_read_text text : forall self0 line self rows,
  feed d self0 line = Ok self ->
  read_text d self (negb (bool_decide (line = []))) text = Ok rows ->
  Csv.reader_rows d self0 (Csv.splitlines line text) = Ok rows.
Proof.
  remember (length text) as n eqn:Hn. revert text Hn.
  induction n as [n IH] using lt_wf_ind. intros text Hn self0 line self rows Hf Hr.
  destruct text as [|c text].
  - cbn [Csv.splitlines read_text] in *. destruct line as [|c0 line].
    + simpl in Hr. injection Hf as <-. exact Hr.
    + simpl in Hr. rewrite (reader_rows_cons _ _ _ _ Hf). exact Hr.
  - cbn [Csv.splitlines read_text] in *.
    destruct (Csv.parse_process_char d self (Csv.Char c)) as [self1|e] eqn:Hc;
      [|discriminate Hr].
    cbn [mbind result_mbind result_bind] in Hr.
    assert (feed d self0 (line ++ [c]) = Ok self1) as Hf1
      by (rewrite feed_snoc, Hf; exact Hc).
    assert (forall text' self' rows',
              (length text' < n)%nat ->
              read_text d self' false text' = Ok rows' ->
              Csv.reader_rows d self' (Csv.splitlines [] text') = Ok rows') as IH0.
    { intros text' self' rows' Hlt Hr'. eapply (IH _ Hlt text' eq_refl self' [] self');
        [reflexivity | exact Hr']. }
    assert (forall line' self' text' rows',
              feed d self0 line' = Ok self' -> (length text' < n)%nat ->
              end_of_line d self' (fun self => read_text d self false text') = Ok rows' ->
              Csv.reader_rows d self0 (line' :: Csv.splitlines [] text') = Ok rows') as Hline.
    { intros line' self' text' rows' Hf' Hlt He.
      rewrite (reader_rows_cons _ _ _ _ Hf'). unfold end_of_line in *.
      destruct (Csv.parse_process_char d self' Csv.EOL) as [self2|e]; [|discriminate He].
      cbn [mbind result_mbind result_bind] in *.
      destruct (Csv.state self2);
        try (apply IH0; [exact Hlt | exact He]).
      destruct (read_text d Csv.parse_reset false text') as [rows2|e] eqn:E;
        [|discriminate He].
      rewrite (IH0 _ _ _ Hlt E). exact He. }
    simpl in Hn.
    destruct (Ascii.eqb c LF).
    + eapply Hline; [exact Hf1 | lia | exact Hr].
    + destruct (Ascii.eqb c CR).
      * destruct text as [|c' text].
        -- rewrite (reader_rows_cons _ _ _ _ Hf1). exact Hr.
        -- destruct (Ascii.eqb c' LF).
           ++ destruct (Csv.parse_process_char d self1 (Csv.Char c')) as [self2|e] eqn:Hc';
                [|discriminate Hr].
              cbn [mbind result_mbind result_bind] in Hr.
              eapply (Hline (line ++ [c; c'])); [|simpl in Hn; lia | exact Hr].
              change (line ++ [c; c']) with (line ++ [c] ++ [c']).
              rewrite app_assoc, feed_snoc, Hf1. exact Hc'.
           ++ eapply Hline; [exact Hf1 | lia | exact Hr].
      * eapply (IH _ _ text eq_refl self0 (line ++ [c]) self1); [exact Hf1|].
        destruct line; exact Hr.
Unshelve. all: simpl in *; lia.
Qed.
End ReaderFacts.

(** ** Reading back what the writer wrote *)

Section RoundTripFacts.
Variable d : Csv.Dialect.
Hypothesis Hsep : separable d.

Local Abbreviation e := (Csv.escapechar d).
Local Abbreviation dl := (Csv.delimiter d).

Lemma eqb_false (a b : ascii) : a <> b -> Ascii.eqb a b = false.
Proof. apply Ascii.eqb_neq. Qed.

Lemma is_crnl_false_iff (c : ascii) : Csv.is_crnl c = false <-> c <> LF /\ c <> CR.
Proof.
  unfold Csv.is_crnl. rewrite orb_false_iff, !Ascii.eqb_neq. reflexivity.
Qed.

Lemma quoting_enabled_separable : Csv.quoting_enabled d = true.
Proof.
  unfold Csv.quoting_enabled. destruct Hsep as [_ _ _ Hq _ _ _ _ _].
  destruct (Csv.quoting d); congruence.
Qed.

(** Decide the character tests of the reader from what is known about the
    characters. *)
Ltac decide_chars :=
  repeat first
    [ rewrite Ascii.eqb_refl
    | rewrite (sep_quotechar d Hsep)
    | rewrite quoting_enabled_separable
    | rewrite (sep_doublequote d Hsep)
    | match goal with
      | H : ?a <> ?b |- context [Ascii.eqb ?a ?b] => rewrite (eqb_false a b H)
      | H : ?b <> ?a |- context [Ascii.eqb ?a ?b] =>
          rewrite (eqb_false a b (fun E => H (eq_sym E)))
      | H : Csv.is_crnl ?a = false |- context [Csv.is_crnl ?a] => rewrite H
      end ];
  cbn [andb orb].

Lemma add_char_ok st fs f c :
  (Z.of_nat (length f) < Csv.field_limit)%Z ->
  Csv.parse_add_char (R st fs f) c = Ok (R st fs (f ++ [c])).
Proof.
  intros H. unfold Csv.parse_add_char, R. simpl.
  destruct (Z.leb_spec Csv.field_limit (Z.of_nat (length f))); [lia | reflexivity].
Qed.

(** Inside the quotes. *)
Lemma step_quoted_plain fs f c :
  c <> e -> c <> DQUOTE -> (Z.of_nat (length f) < Csv.field_limit)%Z ->
  Csv.parse_process_char d (R Csv.IN_QUOTED_FIELD fs f) (Csv.Char c)
  = Ok (R Csv.IN_QUOTED_FIELD fs (f ++ [c])).
Proof.
  intros He Hq Hl. unfold Csv.parse_process_char. cbn [Csv.state R].
  decide_chars. apply add_char_ok. exact Hl.
Qed.

Lemma step_quoted_escape fs f :
  Csv.parse_process_char d (R Csv.IN_QUOTED_FIELD fs f) (Csv.Char e)
  = Ok (R Csv.ESCAPE_IN_QUOTED_FIELD fs f).
Proof.
  unfold Csv.parse_process_char. cbn [Csv.state R]. decide_chars. reflexivity.
Qed.

Lemma step_escaped_in_quotes fs f c :
  (Z.of_nat (length f) < Csv.field_limit)%Z ->
  Csv.parse_process_char d (R Csv.ESCAPE_IN_QUOTED_FIELD fs f) (Csv.Char c)
  = Ok (R Csv.IN_QUOTED_FIELD fs (f ++ [c])).
Proof.
  intros Hl. unfold Csv.parse_process_char. cbn [Csv.state R].
  rewrite (add_char_ok _ _ _ _ Hl). reflexivity.
Qed.

Lemma step_quoted_close fs f :
  Csv.parse_process_char d (R Csv.IN_QUOTED_FIELD fs f) (Csv.Char DQUOTE)
  = Ok (R Csv.IN_FIELD fs f).
Proof.
  pose proof (sep_escape_quote d Hsep) as Hq.
  unfold Csv.parse_process_char. cbn [Csv.state R]. decide_chars. reflexivity.
Qed.

Lemma step_quoted_eol fs f :
  Csv.parse_process_char d (R Csv.IN_QUOTED_FIELD fs f) Csv.EOL
  = Ok (R Csv.IN_QUOTED_FIELD fs f).
Proof. reflexivity. Qed.

(** At the start of a field and inside an unquoted one. *)
Lemma step_open_quote st fs :
  st = Csv.START_RECORD \/ st = Csv.START_FIELD ->
  Csv.parse_process_char d (R st fs []) (Csv.Char DQUOTE) = Ok (R Csv.IN_QUOTED_FIELD fs []).
Proof.
  intros [-> | ->]; unfold Csv.parse_process_char, Csv.start_field;
    cbn [Csv.state R Csv.set_state];
    replace (Csv.is_crnl DQUOTE) with false by reflexivity;
    decide_chars; reflexivity.
Qed.

Lemma step_escape st fs f :
  at_field st ->
  Csv.parse_process_char d (R st fs f) (Csv.Char e) = Ok (R Csv.ESCAPED_CHAR fs f).
Proof.
  pose proof (sep_escape_crnl d Hsep) as Hc. pose proof (sep_escape_quote d Hsep) as Hq.
  intros [-> | [-> | ->]];
    unfold Csv.parse_process_char, Csv.start_field, Csv.in_field;
    cbn [Csv.state R Csv.set_state]; decide_chars; reflexivity.
Qed.

Lemma step_escaped fs f c :
  Csv.is_crnl c = false -> (Z.of_nat (length f) < Csv.field_limit)%Z ->
  Csv.parse_process_char d (R Csv.ESCAPED_CHAR fs f) (Csv.Char c)
  = Ok (R Csv.IN_FIELD fs (f ++ [c])).
Proof.
  intros Hc Hl. unfold Csv.parse_process_char. cbn [Csv.state R].
  rewrite (add_char_ok _ _ _ _ Hl), Hc. reflexivity.
Qed.

Lemma step_plain st fs f c :
  at_field st -> c <> e -> c <> DQUOTE -> c <> dl -> Csv.is_crnl c = false ->
  (Z.of_nat (length f) < Csv.field_limit)%Z ->
  Csv.parse_process_char d (R st fs f) (Csv.Char c) = Ok (R Csv.IN_FIELD fs (f ++ [c])).
Proof.
  intros Hst He Hq Hd Hc Hl.
  destruct Hst as [-> | [-> | ->]];
    unfold Csv.parse_process_char, Csv.start_field, Csv.in_field;
    cbn [Csv.state R Csv.set_state]; decide_chars;
    try (change (Csv.set_state (R Csv.START_RECORD fs f) Csv.START_FIELD)
           with (R Csv.START_FIELD fs f));
    rewrite (add_char_ok _ _ _ _ Hl); reflexivity.
Qed.

Lemma step_delimiter st fs f :
  at_field st ->
  Csv.parse_process_char d (R st fs f) (Csv.Char dl) = Ok (R Csv.START_FIELD (fs ++ [f]) []).
Proof.
  pose proof (sep_delim_crnl d Hsep) as Hc. pose proof (sep_delim_quote d Hsep) as Hq.
  pose proof (sep_delim_escape d Hsep) as He.
  intros [-> | [-> | ->]];
    unfold Csv.parse_process_char, Csv.start_field, Csv.in_field;
    cbn [Csv.state R Csv.set_state]; decide_chars; reflexivity.
Qed.

Lemma step_cr st fs f :
  st = Csv.START_FIELD \/ st = Csv.IN_FIELD ->
  Csv.parse_process_char d (R st fs f) (Csv.Char CR) = Ok (R Csv.EAT_CRNL (fs ++ [f]) []).
Proof. intros [-> | ->]; reflexivity. Qed.

Lemma step_eat_lf fs f :
  Csv.parse_process_char d (R Csv.EAT_CRNL fs f) (Csv.Char LF) = Ok (R Csv.EAT_CRNL fs f).
Proof. reflexivity. Qed.

Lemma step_eat_eol fs f :
  Csv.parse_process_char d (R Csv.EAT_CRNL fs f) Csv.EOL = Ok (R Csv.START_RECORD fs f).
Proof. reflexivity. Qed.

(** How [read_text] moves over one character and over a line end. *)
Lemma read_text_char self self' pending c text :
  Csv.parse_process_char d self (Csv.Char c) = Ok self' ->
  Csv.is_crnl c = false ->
  read_text d self pending (c :: text) = read_text d self' true text.
Proof.
  intros Hc Hn. apply is_crnl_false_iff in Hn as [Hlf Hcr].
  cbn [read_text]. rewrite Hc. cbn [mbind result_mbind result_bind].
  rewrite (eqb_false _ _ Hlf), (eqb_false _ _ Hcr). reflexivity.
Qed.

Lemma end_of_line_quoted fs f continue :
  end_of_line d (R Csv.IN_QUOTED_FIELD fs f) continue = continue (R Csv.IN_QUOTED_FIELD fs f).
Proof. reflexivity. Qed.

Lemma read_text_lf_quoted self pending fs f text :
  Csv.parse_process_char d self (Csv.Char LF) = Ok (R Csv.IN_QUOTED_FIELD fs f) ->
  read_text d self pending (LF :: text) = read_text d (R Csv.IN_QUOTED_FIELD fs f) false text.
Proof. intros Hc. cbn [read_text]. rewrite Hc. reflexivity. Qed.

Lemma read_text_cr_lf_quoted self self1 pending fs f text :
  Csv.parse_process_char d self (Csv.Char CR) = Ok self1 ->
  Csv.parse_process_char d self1 (Csv.Char LF) = Ok (R Csv.IN_QUOTED_FIELD fs f) ->
  read_text d self pending (CR :: LF :: text)
  = read_text d (R Csv.IN_QUOTED_FIELD fs f) false text.
Proof.
  intros Hc Hl. cbn [read_text]. rewrite Hc. cbn [mbind result_mbind result_bind].
  change (Ascii.eqb CR LF) with false. change (Ascii.eqb CR CR) with true.
  change (Ascii.eqb LF LF) with true. cbv iota. rewrite Hl. reflexivity.
Qed.

Lemma read_text_cr_quoted self pending fs f c text :
  Csv.parse_process_char d self (Csv.Char CR) = Ok (R Csv.IN_QUOTED_FIELD fs f) ->
  c <> LF ->
  read_text d self pending (CR :: c :: text)
  = read_text d (R Csv.IN_QUOTED_FIELD fs f) false (c :: text).
Proof.
  intros Hc Hn. cbn [read_text]. rewrite Hc. cbn [mbind result_mbind result_bind].
  change (Ascii.eqb CR LF) with false. change (Ascii.eqb CR CR) with true. cbv iota.
  rewrite (eqb_false _ _ Hn). reflexivity.
Qed.

Lemma escaped_plain c : c <> DQUOTE -> c <> e -> escaped d c = [c].
Proof. intros Hq He. unfold escaped. decide_chars. reflexivity. Qed.

Lemma escaped_head_not_lf c text :
  c <> LF -> exists c' text', escaped d c ++ text = c' :: text' /\ c' <> LF.
Proof.
  intros Hc. pose proof (sep_escape_crnl d Hsep) as He.
  apply is_crnl_false_iff in He as [He _].
  unfold escaped. destruct (_ || _); eexists; eexists; (split; [reflexivity|]); assumption.
Qed.

(** The text of a quoted field, up to the closing quote. *)
Lemma read_quoted_body t : forall fs f pending k,
  (Z.of_nat (length f + length t) <= Csv.field_limit)%Z ->
  exists pending',
    read_text d (R Csv.IN_QUOTED_FIELD fs f) pending (flat_map (escaped d) t ++ DQUOTE :: k)
    = read_text d (R Csv.IN_QUOTED_FIELD fs (f ++ t)) pending' (DQUOTE :: k).
Proof.
  pose proof (sep_escape_crnl d Hsep) as Hec. pose proof (sep_escape_quote d Hsep) as Heq.
  pose proof Hec as Hec'. apply is_crnl_false_iff in Hec' as [Helf Hecr].
  remember (length t) as n eqn:Hn. revert t Hn.
  induction n as [n IH] using lt_wf_ind. intros t Hn fs f pending k Hl.
  destruct t as [|c t].
  - exists pending. simpl. rewrite app_nil_r. reflexivity.
  - simpl in Hn. cbn [length] in Hl.
    assert (forall f' pending' t', (length t' < n)%nat ->
              (length f' + length t' = length f + S (length t))%nat ->
              f' ++ t' = f ++ c :: t ->
              exists p,
                read_text d (R Csv.IN_QUOTED_FIELD fs f') pending'
                  (flat_map (escaped d) t' ++ DQUOTE :: k)
                = read_text d (R Csv.IN_QUOTED_FIELD fs (f ++ c :: t)) p (DQUOTE :: k)) as IH'.
    { intros f' pending' t' Hlt Hlen Heq'.
      destruct (IH (length t') Hlt t' eq_refl fs f' pending' k) as [p Hp]; [lia|].
      exists p. rewrite Hp, Heq'. reflexivity. }
    assert (Z.of_nat (length f) < Csv.field_limit)%Z as Hf by lia.
    assert (Z.of_nat (length (f ++ [c])) < Csv.field_limit
            \/ t = [])%Z as Hf1.
    { destruct t; [right; reflexivity | left; rewrite length_app; simpl in *; lia]. }
    cbn [flat_map]. rewrite <- app_assoc.
    destruct (Ascii.eqb_spec c DQUOTE) as [->|Hcq];
      [|destruct (Ascii.eqb_spec c e) as [->|Hce]].
    + (* a quote: escape, quote *)
      unfold escaped at 1. decide_chars. cbn [app].
      rewrite (read_text_char _ _ _ _ _ (step_quoted_escape fs f) Hec).
      rewrite (read_text_char _ _ _ DQUOTE _ (step_escaped_in_quotes fs f DQUOTE Hf) eq_refl).
      apply IH'; [lia | rewrite length_app; simpl; lia | rewrite <- app_assoc; reflexivity].
    + (* the escape character: escape, escape *)
      unfold escaped at 1. decide_chars. cbn [app].
      rewrite (read_text_char _ _ _ _ _ (step_quoted_escape fs f) Hec).
      rewrite (read_text_char _ _ _ _ _ (step_escaped_in_quotes fs f e Hf) Hec).
      apply IH'; [lia | rewrite length_app; simpl; lia | rewrite <- app_assoc; reflexivity].
    + rewrite (escaped_plain c Hcq Hce). cbn [app].
      pose proof (step_quoted_plain fs f c Hce Hcq Hf) as Hstep.
      destruct (Ascii.eqb_spec c LF) as [->|Hlf]; [|destruct (Ascii.eqb_spec c CR) as [->|Hcr]].
      * rewrite (read_text_lf_quoted _ _ _ _ _ Hstep).
        apply IH'; [lia | rewrite length_app; simpl; lia | rewrite <- app_assoc; reflexivity].
      * destruct t as [|c' t].
        -- cbn [flat_map app]. rewrite (read_text_cr_quoted _ _ _ _ DQUOTE _ Hstep) by discriminate.
           exists false. reflexivity.
        -- destruct (Ascii.eqb_spec c' LF) as [->|Hlf'].
           ++ cbn [flat_map]. rewrite (escaped_plain LF) by (try discriminate; congruence).
              cbn [app].
              assert (Z.of_nat (length (f ++ [CR])) < Csv.field_limit)%Z as Hf2
                by (rewrite length_app; simpl in *; lia).
              rewrite (read_text_cr_lf_quoted _ _ _ _ _ _ Hstep
                         (step_quoted_plain fs (f ++ [CR]) LF
                            (fun E => Helf (eq_sym E)) ltac:(discriminate) Hf2)).
              apply IH'; [simpl in *; lia | rewrite !length_app; simpl; lia
                         | rewrite <- !app_assoc; reflexivity].
           ++ destruct (escaped_head_not_lf c' (flat_map (escaped d) t ++ DQUOTE :: k) Hlf')
                as (c1 & text1 & E1 & Hc1).
              assert (flat_map (escaped d) (c' :: t) ++ DQUOTE :: k = c1 :: text1) as E2
                by (cbn [flat_map]; rewrite <- app_assoc; exact E1).
              rewrite E2, (read_text_cr_quoted _ _ _ _ c1 _ Hstep Hc1), <- E2.
              apply IH'; [simpl in *; lia | rewrite length_app; simpl; lia
                         | rewrite <- app_assoc; reflexivity].
      * assert (Csv.is_crnl c = false) as Hn' by (apply is_crnl_false_iff; split; assumption).
        rewrite (read_text_char _ _ _ _ _ Hstep Hn').
        apply IH'; [lia | rewrite length_app; simpl; lia | rewrite <- app_assoc; reflexivity].
Qed.

(** The text of an unquoted field. *)
Lemma read_unquoted t : forall st fs f pending k,
  at_field st ->
  existsb (forces_quotes d) t = false ->
  (Z.of_nat (length f + length t) <= Csv.field_limit)%Z ->
  read_text d (R st fs f) pending (flat_map (escaped d) t ++ k)
  = read_text d (match t with [] => R st fs f | _ :: _ => R Csv.IN_FIELD fs (f ++ t) end)
      (match t with [] => pending | _ :: _ => true end) k.
Proof.
  pose proof (sep_escape_crnl d Hsep) as Hec. pose proof (sep_escape_quote d Hsep) as Heq.
  induction t as [|c t IH]; intros st fs f pending k Hst Hnq Hl; [reflexivity|].
  cbn [existsb] in Hnq. apply orb_false_iff in Hnq as [Hc Hnq].
  unfold forces_quotes in Hc. apply orb_false_iff in Hc as [Hcd Hcn].
  apply Ascii.eqb_neq in Hcd. cbn [length] in Hl.
  assert (Z.of_nat (length f) < Csv.field_limit)%Z as Hf by lia.
  assert (read_text d (R st fs f) pending (flat_map (escaped d) (c :: t) ++ k)
          = read_text d (R Csv.IN_FIELD fs (f ++ [c])) true (flat_map (escaped d) t ++ k))
    as Hstep.
  { cbn [flat_map]. rewrite <- app_assoc.
    destruct (Ascii.eqb_spec c DQUOTE) as [->|Hcq];
      [|destruct (Ascii.eqb_spec c e) as [->|Hce]].
    - unfold escaped at 1. decide_chars. cbn [app].
      rewrite (read_text_char _ _ _ _ _ (step_escape st fs f Hst) Hec).
      rewrite (read_text_char _ _ _ _ _ (step_escaped fs f DQUOTE eq_refl Hf) eq_refl).
      reflexivity.
    - unfold escaped at 1. decide_chars. cbn [app].
      rewrite (read_text_char _ _ _ _ _ (step_escape st fs f Hst) Hec).
      rewrite (read_text_char _ _ _ _ _ (step_escaped fs f e Hec Hf) Hec).
      reflexivity.
    - rewrite (escaped_plain c Hcq Hce). cbn [app].
      rewrite (read_text_char _ _ _ _ _ (step_plain st fs f c Hst Hce Hcq Hcd Hcn Hf) Hcn).
      reflexivity. }
  rewrite Hstep, (IH Csv.IN_FIELD fs (f ++ [c]) true k);
    [| right; right; reflexivity | exact Hnq | rewrite length_app; simpl; lia].
  destruct t; rewrite <- ?app_assoc; reflexivity.
Qed.

(** A whole field as the writer puts it. *)
Lemma read_encoded st fs t pending k :
  st = Csv.START_RECORD \/ st = Csv.START_FIELD ->
  within_limit t ->
  exists pending',
    read_text d (R st fs []) pending (encoded d t ++ k)
    = read_text d (R (behind d st t) fs t) pending' k.
Proof.
  intros Hst Hl. unfold within_limit in Hl. unfold encoded, behind.
  destruct (is_quoted d t) eqn:Hq.
  - cbn [app]. rewrite (read_text_char _ _ _ _ _ (step_open_quote st fs Hst) eq_refl).
    rewrite <- app_assoc. cbn [app].
    destruct (read_quoted_body t fs [] true k) as [p Hp]; [simpl; lia|].
    rewrite Hp. cbn [app].
    rewrite (read_text_char _ _ _ _ _ (step_quoted_close fs t) eq_refl).
    exists true. reflexivity.
  - assert (existsb (forces_quotes d) t = false) as Hnq.
    { unfold is_quoted in Hq. destruct (Csv.quoting d); try discriminate; exact Hq. }
    rewrite (read_unquoted t st fs [] pending k); [| | exact Hnq | simpl; lia].
    + destruct t; eexists; reflexivity.
    + destruct Hst as [-> | ->]; [left | right; left]; reflexivity.
Qed.

Lemma behind_cases st t :
  st = Csv.START_RECORD \/ st = Csv.START_FIELD ->
  behind d st t = Csv.IN_FIELD \/ (behind d st t = st /\ t = [] /\ is_quoted d t = false).
Proof.
  intros Hst. unfold behind. destruct (is_quoted d t); [left; reflexivity|].
  destruct t; [right; repeat split | left]; reflexivity.
Qed.

(** The line end behind the last field, and the records after it. *)
Lemma read_line_end st fs f pending text :
  st = Csv.START_FIELD \/ st = Csv.IN_FIELD ->
  read_text d (R st fs f) pending (CR :: LF :: text)
  = (rows ← read_text d Csv.parse_reset false text; Ok ((fs ++ [f]) :: rows)).
Proof.
  intros Hst. cbn [read_text]. rewrite (step_cr st fs f Hst).
  cbn [mbind result_mbind result_bind].
  change (Ascii.eqb CR LF) with false. change (Ascii.eqb CR CR) with true.
  change (Ascii.eqb LF LF) with true. cbv iota. rewrite step_eat_lf.
  cbn [mbind result_mbind result_bind]. unfold end_of_line. rewrite step_eat_eol.
  reflexivity.
Qed.

(** The fields after the first, each behind its delimiter, and the line
    end. *)
Lemma read_encoded_tail ts : forall st fs f pending text,
  at_field st ->
  (st = Csv.START_RECORD -> ts <> []) ->
  Forall within_limit ts ->
  read_text d (R st fs f) pending (encoded_tail d ts ++ CR :: LF :: text)
  = (rows ← read_text d Csv.parse_reset false text; Ok ((fs ++ f :: ts) :: rows)).
Proof.
  induction ts as [|t ts IH]; intros st fs f pending text Hst Hne Hl.
  - cbn [encoded_tail flat_map app]. apply read_line_end.
    destruct Hst as [-> | [-> | ->]]; [exfalso; apply Hne; reflexivity | left | right];
      reflexivity.
  - inversion Hl as [|? ? Ht Hts]; subst.
    unfold encoded_tail. cbn [flat_map]. fold (encoded_tail d ts).
    rewrite <- app_assoc. cbn [app].
    rewrite (read_text_char _ _ _ _ _ (step_delimiter st fs f Hst) (sep_delim_crnl d Hsep)).
    destruct (read_encoded Csv.START_FIELD (fs ++ [f]) t true
                (encoded_tail d ts ++ CR :: LF :: text)) as [p Hp];
      [right; reflexivity | exact Ht |].
    rewrite Hp, IH; [rewrite <- app_assoc; reflexivity | | | exact Hts].
    + destruct (behind_cases Csv.START_FIELD t) as [-> | [-> _]];
        [right; reflexivity | right; right; reflexivity | right; left; reflexivity].
    + intros Hb. destruct (behind_cases Csv.START_FIELD t) as [E | [E _]];
        [right; reflexivity | |]; rewrite E in Hb; discriminate.
Qed.

(** A record as the writer puts it is read as its fields. *)
Lemma read_encoded_row ts pending text :
  ts <> [] ->
  Forall within_limit ts ->
  read_text d Csv.parse_reset pending (encoded_row d ts ++ text)
  = (rows ← read_text d Csv.parse_reset false text; Ok (ts :: rows)).
Proof.
  intros Hne Hl. destruct ts as [|t ts]; [congruence|].
  inversion Hl as [|? ? Ht Hts]; subst.
  assert (read_text d Csv.parse_reset pending
            ((encoded d t ++ encoded_tail d ts ++ [CR; LF]) ++ text)
          = (rows ← read_text d Csv.parse_reset false text; Ok ((t :: ts) :: rows))
          \/ (t = [] /\ ts = [] /\ is_quoted d [] = false)) as [H|(-> & -> & Hq)].
  { rewrite <- !app_assoc. cbn [app].
    destruct (read_encoded Csv.START_RECORD [] t pending
                (encoded_tail d ts ++ CR :: LF :: text)) as [p Hp];
      [left; reflexivity | exact Ht |].
    change Csv.parse_reset with (R Csv.START_RECORD [] []) at 1.
    destruct (behind_cases Csv.START_RECORD t) as [E | (E & -> & Hq)]; [left; reflexivity | |].
    - left. rewrite Hp, E.
      apply (read_encoded_tail ts Csv.IN_FIELD [] t p text);
        [right; right; reflexivity | discriminate | exact Hts].
    - destruct ts as [|t' ts]; [right; repeat split; exact Hq|].
      left. rewrite Hp, E.
      apply (read_encoded_tail (t' :: ts) Csv.START_RECORD [] [] p text);
        [left; reflexivity | discriminate | exact Hts]. }
  - destruct t as [|c t]; [destruct ts as [|t' ts]|]; cbn [encoded_row]; try exact H.
    (* the single empty field, written as two quotes *)
    cbn [app].
    change Csv.parse_reset with (R Csv.START_RECORD [] []) at 1.
    rewrite (read_text_char _ _ _ _ _ (step_open_quote _ [] (or_introl eq_refl)) eq_refl).
    rewrite (read_text_char _ _ _ _ _ (step_quoted_close [] []) eq_refl).
    apply (read_line_end Csv.IN_FIELD [] [] true text). right. reflexivity.
  - cbn [encoded_row app].
    change Csv.parse_reset with (R Csv.START_RECORD [] []) at 1.
    rewrite (read_text_char _ _ _ _ _ (step_open_quote _ [] (or_introl eq_refl)) eq_refl).
    rewrite (read_text_char _ _ _ _ _ (step_quoted_close [] []) eq_refl).
    apply (read_line_end Csv.IN_FIELD [] [] true text). right. reflexivity.
Qed.

(** The records of a text, one after the other. *)
Lemma read_encoded_rows rows :
  Forall (fun ts => ts <> [] /\ Forall within_limit ts) rows ->
  read_text d Csv.parse_reset false (flat_map (encoded_row d) rows) = Ok rows.
Proof.
  induction 1 as [|ts rows [Hne Hl] _ IH]; [reflexivity|].
  cbn [flat_map]. rewrite (read_encoded_row ts false _ Hne Hl), IH. reflexivity.
Qed.

(** [csv.reader] gives back the fields of the records that the writer
    wrote. *)
Lemma reader_encoded_rows rows :
  Forall (fun ts => ts <> [] /\ Forall within_limit ts) rows ->
  Csv.reader d (flat_map (encoded_row d) rows) = Ok rows.
Proof.
  intros H. unfold Csv.reader.
  apply (reader_rows_read_text d _ Csv.parse_reset [] Csv.parse_reset rows eq_refl).
  apply read_encoded_rows. exact H.
Qed.
End RoundTripFacts.

(** ** The CSV round trip *)

Lemma string_of_list_ascii_inv (s : string) :
  string_of_list_ascii (list_ascii_of_string s) = s.
Proof. apply string_of_list_ascii_of_string. Qed.

Lemma length_list_ascii_of_string (s : string) :
  length (list_ascii_of_string s) = String.length s.
Proof. induction s as [|c s IH]; [reflexivity | simpl; rewrite IH; reflexivity]. Qed.

Lemma short_within_limit (s : string) : short s -> within_limit (list_ascii_of_string s).
Proof. unfold short, within_limit. rewrite length_list_ascii_of_string. auto. Qed.

Lemma field_text_formatted (fmt : string) (v : scalar) :
  Csv.field_text (SyncUtils.format_datetime_value fmt v)
  = list_ascii_of_string (cell_text fmt v).
Proof. destruct v as [s|z|[|]|dt|]; reflexivity. Qed.

(** With the keys of the record as field names, the writer takes the values
    of the record in their order. *)
Lemma record_get_keys (r : record) (restval : scalar) :
  NoDup (keys r) -> map (fun key => record_get r key restval) (keys r) = map snd r.
Proof.
  induction r as [|[k v] r IH]; intros Hnd; [reflexivity|].
  cbn [keys map fst snd] in *. apply NoDup_cons in Hnd as [Hk Hnd].
  cbn [record_get]. rewrite String.eqb_refl. f_equal.
  rewrite <- (IH Hnd). apply map_ext_in. intros k' Hk'.
  destruct (String.eqb_spec k k') as [->|_]; [|reflexivity].
  exfalso. apply Hk. apply list_elem_of_In. exact Hk'.
Qed.

Lemma same_columns_homogeneous (data : TableRows) : same_columns data -> homogeneous data.
Proof.
  destruct data as [|first rest]; [auto|]. intros (_ & _ & H).
  cbn [homogeneous]. eapply Forall_impl; [exact H|].
  intros r Hr. simpl in Hr. rewrite <- Hr. apply wrong_fields_self.
Qed.

Section CsvFileFacts.
Variable d : Csv.Dialect.
Hypothesis Hsep : separable d.

Lemma writerows_separable (fieldnames : list string) (rows : list record) :
  Forall (fun r => Csv.wrong_fields fieldnames r = []) rows ->
  Csv.writerows d fieldnames rows
  = (flat_map (fun r => encoded_row d
                          (map Csv.field_text
                               (map (fun key => record_get r key (VText "")) fieldnames)))
              rows,
     None).
Proof.
  induction 1 as [|r rows Hr _ IH]; [reflexivity|].
  cbn [Csv.writerows]. unfold Csv._dict_to_list. rewrite Hr.
  cbn [mbind result_mbind result_bind]. rewrite (writerow_separable d Hsep), IH.
  reflexivity.
Qed.

Lemma writeheader_separable (fieldnames : list string) :
  Csv.writeheader d fieldnames = Ok (encoded_row d (map list_ascii_of_string fieldnames)).
Proof.
  unfold Csv.writeheader. rewrite (writerow_separable d Hsep), map_map. reflexivity.
Qed.

Lemma rows_text_separable (self : CSV.CSV) (first : record) (rest : list record) :
  same_columns (first :: rest) ->
  rows_text d self (first :: rest)
  = flat_map (encoded_row d)
      (map (fun r => map (fun kv => list_ascii_of_string
                                      (cell_text (CSV.date_time_format self) (snd kv))) r)
           (first :: rest)).
Proof.
  intros (Hne & Hnd & Hsame). unfold rows_text.
  rewrite writerows_separable.
  - cbn [fst]. rewrite !flat_map_concat_map, !map_map. f_equal.
    apply map_ext_in. intros r Hr.
    assert (keys r = keys first) as Hk.
    { destruct Hr as [<- | Hr]; [reflexivity|].
      rewrite Forall_forall in Hsame. apply Hsame. apply list_elem_of_In. exact Hr. }
    f_equal. cbn [keys map fst]. fold (keys first). rewrite <- Hk.
    rewrite <- (keys_format_datetime_values r (CSV.date_time_format self)).
    rewrite record_get_keys
      by (rewrite keys_format_datetime_values, Hk; exact Hnd).
    unfold SyncUtils.format_datetime_values. rewrite !map_map. apply map_ext.
    intros [k v]. apply field_text_formatted.
  - apply Forall_map. apply Forall_forall. intros r Hr. simpl.
    rewrite wrong_fields_format.
    apply list_elem_of_In in Hr. destruct Hr as [<- | Hr]; [apply wrong_fields_self|].
    rewrite Forall_forall in Hsame. rewrite <- (Hsame r); [apply wrong_fields_self|].
    apply list_elem_of_In. exact Hr.
Qed.
End CsvFileFacts.

(** Building a dict from items with distinct keys keeps the items. *)
Lemma dict_set_fresh {V : Type} (dict : list (pykey * V)) (key : pykey) (value : V) :
  key ∉ map fst dict -> dict_set dict key value = dict ++ [(key, value)].
Proof.
  induction dict as [|[k v] dict IH]; intros Hk; [reflexivity|].
  cbn [dict_set]. cbn [map fst] in Hk. apply not_elem_of_cons in Hk as [Hne Hk].
  rewrite decide_False by congruence. rewrite IH by exact Hk. reflexivity.
Qed.

Lemma dict_of_items_distinct {V : Type} (items : list (pykey * V)) :
  NoDup (map fst items) -> dict_of_items items = items.
Proof.
  unfold dict_of_items.
  assert (forall acc, NoDup (map fst (acc ++ items)) ->
            fold_left (fun dict kv => dict_set dict (fst kv) (snd kv)) items acc
            = acc ++ items) as H.
  { induction items as [|[k v] items IH]; intros acc Hnd.
    - simpl. rewrite app_nil_r. reflexivity.
    - cbn [fold_left fst snd]. rewrite dict_set_fresh.
      + rewrite IH; rewrite <- app_assoc; [reflexivity | exact Hnd].
      + rewrite map_app in Hnd. apply NoDup_app in Hnd as (_ & Hd & _).
        intros Hin. apply (Hd k Hin). cbn [map fst]. apply list_elem_of_here. }
  intros Hnd. apply (H []). exact Hnd.
Qed.

Lemma map_fst_zip {A B : Type} (l : list A) (k : list B) :
  length l = length k -> map fst (zip l k) = l.
Proof.
  revert k. induction l as [|a l IH]; intros [|b k] Hlen; try discriminate; [reflexivity|].
  simpl. f_equal. apply IH. simpl in Hlen. lia.
Qed.

(** A row with as many fields as there are field names, under distinct
    field names, becomes the dict of the names and the fields. *)
Lemma row_dict_same_length (fieldnames row : list string) :
  NoDup fieldnames -> length row = length fieldnames ->
  Csv.row_dict fieldnames row = PyDict (zip (map KStr fieldnames) (map PyStr row)).
Proof.
  intros Hnd Hlen. unfold Csv.row_dict. rewrite Hlen, Nat.ltb_irrefl.
  rewrite drop_all. cbn [fold_left]. f_equal. apply dict_of_items_distinct.
  rewrite map_fst_zip by (rewrite !length_map; lia).
  apply NoDup_fmap_2; [|exact Hnd]. intros a b [= ->]. reflexivity.
Qed.

Section DictReaderFacts.
Variable d : Csv.Dialect.
Hypothesis Hsep : separable d.

(** [csv.DictReader] on the text of a header and records that have a cell
    for every column. *)
Lemma DictReader_encoded (fieldnames : list string) (rows : list (list string)) :
  fieldnames <> [] -> NoDup fieldnames -> Forall short fieldnames ->
  Forall (fun row => length row = length fieldnames /\ Forall short row) rows ->
  Csv.DictReader d
    (flat_map (encoded_row d)
       (map list_ascii_of_string fieldnames :: map (map list_ascii_of_string) rows))
  = Ok (map (fun row => PyDict (zip (map KStr fieldnames) (map PyStr row))) rows).
Proof.
  intros Hne Hnd Hshort Hrows. unfold Csv.DictReader.
  rewrite (reader_encoded_rows d Hsep).
  - cbn [mbind result_mbind result_bind map].
    assert (forall l, map string_of_list_ascii (map list_ascii_of_string l) = l) as Hinv.
    { intros l. rewrite map_map. rewrite <- (map_id l) at 2. apply map_ext.
      intros s. apply string_of_list_ascii_inv. }
    rewrite Hinv. f_equal.
    rewrite map_map.
    rewrite (map_ext _ (fun row => row)) by (intros row; apply Hinv). rewrite map_id.
    induction Hrows as [|row rows [Hlen _] _ IH]; [reflexivity|].
    cbn [filter list_filter]. rewrite decide_True.
    + cbn [map]. rewrite row_dict_same_length by assumption. f_equal. exact IH.
    + rewrite bool_decide_eq_false_2; [exact I|].
      intros ->. destruct fieldnames; [congruence | discriminate].
  - constructor.
    + split; [destruct fieldnames; [congruence | discriminate]|].
      apply Forall_map. eapply Forall_impl; [exact Hshort|]. apply short_within_limit.
    + apply Forall_map. eapply Forall_impl; [exact Hrows|].
      intros row [Hlen Hs]. simpl. split.
      * destruct row; [|discriminate]. destruct fieldnames; [congruence | discriminate].
      * apply Forall_map. eapply Forall_impl; [exact Hs|]. apply short_within_limit.
Qed.
End DictReaderFacts.

Lemma separable_of_syncer (self : CSV.CSV) :
  constructed self -> distinct_specials self ->
  exists dialect,
    Csv.dialect_new (CSV.dialect_and_format_parameters self) = Ok dialect
    /\ Csv.quoting dialect = CSV.quoting self
    /\ separable dialect.
Proof.
  intros Hc Hd. unfold distinct_specials in Hd.
  destruct (CSV.delimiter self) as [|a [|? ?]] eqn:Ea; try contradiction.
  destruct (CSV.escape_character self) as [|b [|? ?]] eqn:Eb; try contradiction.
  destruct Hd as (Hab & Haq & Hac & Hbq & Hbc).
  destruct (dialect_of_syncer self) as (dialect & Hnew & Hdl & Hesc & Hdq & Hq & Hlt & Hqu).
  { unfold single_characters. rewrite Ea, Eb. split; reflexivity. }
  rewrite Ea in Hdl. rewrite Eb in Hesc. injection Hdl as Hdl. injection Hesc as Hesc.
  exists dialect. split; [exact Hnew|]. split; [exact Hqu|].
  constructor; try assumption; try (rewrite <- ?Hdl, <- ?Hesc; assumption).
  rewrite Hqu. destruct Hc as [-> | ->]; discriminate.
Qed.

Lemma zip_keys_cells (fmt : string) (r : record) :
  zip (map KStr (keys r)) (map PyStr (map (fun kv => cell_text fmt (snd kv)) r))
  = map (fun kv => (KStr (fst kv), PyStr (cell_text fmt (snd kv)))) r.
Proof. induction r as [|[k v] r IH]; [reflexivity | simpl; f_equal; exact IH]. Qed.

Lemma py_of_record_as_text (fmt : string) (r : record) :
  py_of_record (as_text fmt r)
  = PyDict (map (fun kv => (KStr (fst kv), PyStr (cell_text fmt (snd kv)))) r).
Proof. unfold py_of_record, as_text. rewrite map_map. reflexivity. Qed.

(** The CSV round trip: a first [dump] of records with the same columns
    into an empty or new file, then [load], gives the records with every
    value as its text. *)
Lemma csv_round_trip (self : CSV.CSV) (w w' : World) (name : string)
  (first : record) (rest : list record) :
  constructed self ->
  distinct_specials self ->
  CSV.header self = true ->
  CSV._written_header self !! name = None ->
  same_columns (first :: rest) ->
  cells_short (CSV.date_time_format self) (first :: rest) ->
  Path.open w (CSV.path_of self name) (open_mode self) = Ok w' ->
  Path.read w' (CSV.path_of self name) = [] ->
  exists self1 w1,
    CSV.dump self w name (first :: rest) = (self1, w1, Ok tt)
    /\ CSV.load self1 w1 name
       = Ok (py_of_rows (map (as_text (CSV.date_time_format self)) (first :: rest))).
Proof.
  intros Hc Hd Hh Hn Hcols Hshort Ho Hempty.
  destruct (separable_of_syncer self Hc Hd) as (dialect & Hnew & Hq & Hsep).
  destruct (dump_succeeds self w w' name first rest dialect Hc Hnew Hq
              (same_columns_homogeneous _ Hcols) Ho) as (hl & Hhl & Hdump).
  rewrite (header_due_fresh self name Hh Hn) in Hdump.
  rewrite (writeheader_separable dialect Hsep) in Hhl. injection Hhl as <-.
  set (p := CSV.path_of self name) in *.
  set (fmt := CSV.date_time_format self) in *.
  eexists. eexists. split; [exact Hdump|].
  unfold CSV.load. change (CSV.path_of (CSV.mark_header self name) name) with p.
  match goal with |- context [Path.exists_ ?x p] => set (w1 := x) end.
  assert (files w1 !! p
          = Some (flat_map (encoded_row dialect)
                    (map list_ascii_of_string (keys first)
                     :: map (map list_ascii_of_string)
                          (map (fun r => map (fun kv => cell_text fmt (snd kv)) r)
                               (first :: rest))))) as Hfile.
  { subst w1. rewrite files_write, read_write, Hempty. cbn [app]. f_equal.
    rewrite (rows_text_separable dialect Hsep self first rest Hcols).
    cbn [flat_map]. f_equal. f_equal. rewrite map_map. apply map_ext.
    intros r. rewrite map_map. reflexivity. }
  destruct (open_is_dir w p (open_mode self) w' p Ho) as [Hdir' Hdir].
  assert (Path.is_dir w1 p = false) as Hd1
    by (subst w1; change (Path.is_dir w' p = false); congruence).
  assert (Path.exists_ w1 p = true) as Hex.
  { unfold Path.exists_, Path.is_file. rewrite Hfile.
    rewrite bool_decide_eq_true_2 by eauto. reflexivity. }
  rewrite Hex. cbn [negb]. unfold Path.open. rewrite Hd1, Hfile.
  cbn [mbind result_mbind result_bind].
  change (CSV.dialect_and_format_parameters (CSV.mark_header self name))
    with (CSV.dialect_and_format_parameters self).
  rewrite Hnew. cbn [mbind result_mbind result_bind].
  unfold Path.read. rewrite Hfile. cbn [default from_option id].
  destruct Hcols as (Hne & Hnd & Hsame).
  rewrite (DictReader_encoded dialect Hsep).
  - cbn [mbind result_mbind result_bind]. unfold py_of_rows. f_equal. f_equal.
    rewrite !map_map. apply map_ext_in. intros r Hr.
    rewrite py_of_record_as_text. f_equal.
    assert (keys r = keys first) as Hk.
    { destruct Hr as [<- | Hr]; [reflexivity|].
      rewrite Forall_forall in Hsame. apply Hsame. apply list_elem_of_In. exact Hr. }
    rewrite <- Hk. apply zip_keys_cells.
  - exact Hne.
  - exact Hnd.
  - unfold cells_short in Hshort. apply Forall_cons in Hshort as [Hf _].
    unfold keys. apply Forall_map. eapply Forall_impl; [exact Hf|]. intros kv [Hk _]. exact Hk.
  - apply Forall_map. apply Forall_forall. intros r Hr. simpl.
    assert (keys r = keys first) as Hk.
    { apply list_elem_of_In in Hr. destruct Hr as [<- | Hr]; [reflexivity|].
      rewrite Forall_forall in Hsame. apply Hsame. apply list_elem_of_In. exact Hr. }
    split.
    + rewrite length_map. rewrite <- Hk. unfold keys. rewrite length_map. reflexivity.
    + apply Forall_map. unfold cells_short in Hshort. rewrite Forall_forall in Hshort.
      eapply Forall_impl; [exact (Hshort r Hr)|]. intros kv [_ Hv]. exact Hv.
Qed.

(** ** The JSON round trip *)

(** A character as it is written inside a string is read back as that
    character. *)
Lemma scanstring_encode_char (b : bool) (c : ascii) (s chunks : list ascii) :
  Json.scanstring (Json.encode_char b c ++ s) chunks = Json.scanstring s (chunks ++ [c]).
Proof. destruct c as [[|] [|] [|] [|] [|] [|] [|] [|]], b; reflexivity. Qed.

Lemma scanstring_encoded (b : bool) (t s chunks : list ascii) :
  Json.scanstring (flat_map (Json.encode_char b) t ++ DQUOTE :: s) chunks
  = Ok (chunks ++ t, s).
Proof.
  revert chunks. induction t as [|c t IH]; intros chunks.
  - simpl. rewrite app_nil_r. reflexivity.
  - cbn [flat_map]. rewrite <- app_assoc, scanstring_encode_char, IH, <- app_assoc.
    reflexivity.
Qed.

(** A string as [json.dumps] writes it is scanned as that string. *)
Lemma scan_once_string (b : bool) (fuel : nat) (str : string) (s : list ascii) :
  Json.scan_once (S fuel) (Json.encode_basestring b str ++ s)
  = Ok (PyStr str, s).
Proof.
  unfold Json.encode_basestring. cbn [app Json.scan_once].
  change (Ascii.eqb DQUOTE DQUOTE) with true. cbv iota.
  rewrite <- app_assoc. cbn [app]. rewrite scanstring_encoded.
  cbn [mbind result_mbind result_bind app]. rewrite string_of_list_ascii_inv. reflexivity.
Qed.

(** The digits of an integer. *)
Lemma digits_of_uint (u : Decimal.uint) :
  Forall (fun c => Json.is_digit c = true)
         (list_ascii_of_string (NilEmpty.string_of_uint u)).
Proof. induction u; simpl; constructor; (reflexivity || assumption). Qed.

Lemma span_digits_app (ds rest : list ascii) :
  Forall (fun c => Json.is_digit c = true) ds ->
  match rest with [] => True | c :: _ => Json.is_digit c = false end ->
  Json.span_digits (ds ++ rest) = (ds, rest).
Proof.
  intros Hds Hrest. induction Hds as [|c ds Hc _ IH].
  - destruct rest as [|c rest]; [reflexivity|]. simpl. rewrite Hrest. reflexivity.
  - cbn [app Json.span_digits]. rewrite Hc, IH. reflexivity.
Qed.

(** The decimal digits of a positive number do not start with a zero. *)
Lemma to_uint_head (p : positive) :
  match Pos.to_uint p with
  | Decimal.Nil | Decimal.D0 _ => False
  | _ => True
  end.
Proof.
  pose proof (DecimalPos.Unsigned.to_of (Pos.to_uint p)) as H.
  rewrite DecimalPos.Unsigned.of_to in H. simpl in H.
  destruct (Pos.to_uint p) as [|u|u|u|u|u|u|u|u|u|u] eqn:E; try exact I.
  - exact (DecimalPos.Unsigned.to_uint_nonnil p E).
  - unfold Decimal.unorm in H. cbn [Decimal.nzhead] in H.
    destruct (Decimal.nzhead u) eqn:En; try discriminate H.
    + rewrite H in E. exact (DecimalPos.Unsigned.to_uint_nonzero p E).
    + exact (DecimalFacts.nzhead_nonzero u _ En).
Qed.

Lemma is_digit_not_separator (c : ascii) :
  c = ","%char \/ c = "}"%char -> Json.is_digit c = false.
Proof. intros [-> | ->]; reflexivity. Qed.

(** The integer part of the number pattern takes the text of an integer
    that is followed by a separator. *)
Lemma match_integer_str_of_int (z : Z) (c : ascii) (s : list ascii) :
  c = ","%char \/ c = "}"%char ->
  Json.match_integer (list_ascii_of_string (str_of_int z) ++ c :: s)
  = Some (list_ascii_of_string (str_of_int z), c :: s).
Proof.
  intros Hc. pose proof (is_digit_not_separator c Hc) as Hd.
  unfold str_of_int. destruct z as [|p|p]; [reflexivity| |];
    pose proof (to_uint_head p) as Hh; pose proof (digits_of_uint (Pos.to_uint p)) as Hds;
    cbn [Z.to_int NilZero.string_of_int];
    unfold NilZero.string_of_uint;
    destruct (Pos.to_uint p) as [|u|u|u|u|u|u|u|u|u|u]; try contradiction;
    cbn [NilEmpty.string_of_uint list_ascii_of_string] in *;
    apply Forall_cons in Hds as [_ Hds];
    unfold Json.match_integer; cbn [app Ascii.eqb Bool.eqb Json.is_digit];
    cbn -[Json.span_digits]; rewrite (span_digits_app _ (c :: s) Hds Hd); reflexivity.
Qed.

Lemma parse_int_str_of_int (z : Z) :
  Json.parse_int (list_ascii_of_string (str_of_int z)) = z.
Proof.
  unfold Json.parse_int, str_of_int. rewrite string_of_list_ascii_inv.
  rewrite NilZero.isi.
  - apply DecimalZ.of_to.
  - destruct z as [|p|p]; try discriminate.
    intros [= H]. exact (DecimalPos.Unsigned.to_uint_nonnil p H).
  - destruct z as [|p|p]; try discriminate.
    intros [= H]. exact (DecimalPos.Unsigned.to_uint_nonnil p H).
Qed.

Lemma match_number_str_of_int (z : Z) (c : ascii) (s : list ascii) :
  c = ","%char \/ c = "}"%char ->
  Json.match_number (list_ascii_of_string (str_of_int z) ++ c :: s)
  = Some (PyInt z, c :: s).
Proof.
  intros Hc. unfold Json.match_number. rewrite (match_integer_str_of_int z c s Hc).
  rewrite parse_int_str_of_int. destruct Hc as [-> | ->]; reflexivity.
Qed.

(** A text that starts like a number and matches the number pattern is
    scanned as that number. *)
Lemma scan_once_number (fuel : nat) (c : ascii) (s : list ascii) (res : pyval * list ascii) :
  Json.is_digit c = true \/ c = "-"%char ->
  Json.match_number (c :: s) = Some res ->
  Json.scan_once (S fuel) (c :: s) = Ok res.
Proof.
  intros Hc Hm.
  destruct c as [[|] [|] [|] [|] [|] [|] [|] [|]];
    try (exfalso; destruct Hc as [Hc|Hc]; cbv in Hc; discriminate Hc);
    cbn [Json.scan_once Ascii.eqb Bool.eqb Json.after_word list_ascii_of_string DQUOTE];
    rewrite Hm; reflexivity.
Qed.

Lemma str_of_int_head (z : Z) :
  exists c s, list_ascii_of_string (str_of_int z) = c :: s
              /\ (Json.is_digit c = true \/ c = "-"%char).
Proof.
  unfold str_of_int. destruct z as [|p|p].
  - eexists; eexists; split; [reflexivity | left; reflexivity].
  - pose proof (to_uint_head p) as Hh. cbn [Z.to_int NilZero.string_of_int].
    unfold NilZero.string_of_uint.
    destruct (Pos.to_uint p); try contradiction;
      eexists; eexists; (split; [reflexivity | left; reflexivity]).
  - eexists; eexists; split; [reflexivity | right; reflexivity].
Qed.

(** A scalar as [json.dumps] writes it, followed by a separator, is scanned
    as that scalar. *)
Lemma scan_once_scalar (b : bool) (fuel : nat) (v : scalar) (text : list ascii)
  (c : ascii) (s : list ascii) :
  Json.encode_scalar b v = Ok text ->
  c = ","%char \/ c = "}"%char ->
  Json.scan_once (S fuel) (text ++ c :: s) = Ok (py_of_scalar v, c :: s).
Proof.
  intros He Hc. destruct v as [str|z|[|]|dt|]; simpl in He; try discriminate He;
    injection He as <-.
  - apply scan_once_string.
  - destruct (str_of_int_head z) as (c0 & s0 & E & Hc0).
    pose proof (match_number_str_of_int z c s Hc) as Hm.
    rewrite E in *. cbn [app] in *. apply scan_once_number; assumption.
  - reflexivity.
  - reflexivity.
  - reflexivity.
Qed.

Lemma skip_ws_nonws (c : ascii) (s : list ascii) :
  Json.is_ws c = false -> Json.skip_ws (c :: s) = c :: s.
Proof. intros H. cbn [Json.skip_ws]. rewrite H. reflexivity. Qed.

Lemma skip_ws_space (s : list ascii) : Json.skip_ws (" "%char :: s) = Json.skip_ws s.
Proof. reflexivity. Qed.

Lemma encode_scalar_head (b : bool) (v : scalar) (text : list ascii) :
  Json.encode_scalar b v = Ok text ->
  exists c s, text = c :: s /\ Json.is_ws c = false.
Proof.
  destruct v as [str|z|[|]|dt|]; simpl; intros He; try discriminate He; injection He as <-;
    try (eexists; eexists; split; reflexivity).
  destruct (str_of_int_head z) as (c & s & E & [Hc | ->]).
  - exists c, s. split; [exact E|].
    destruct c as [[|] [|] [|] [|] [|] [|] [|] [|]]; try reflexivity; discriminate Hc.
  - eexists; eexists; split; [exact E | reflexivity].
Qed.

(** One pass of the loop of [JSONObject]: a key, the colon, a value and the
    separator behind it. *)
Lemma object_pairs_last (b : bool) (fuel : nat) (k : string) (v : scalar)
  (value s : list ascii) (pairs : list (pykey * pyval)) :
  Json.encode_scalar b v = Ok value ->
  Json.object_pairs (S (S fuel))
    (flat_map (Json.encode_char b) (list_ascii_of_string k)
     ++ DQUOTE :: Json.key_separator ++ value ++ "}"%char :: s) pairs
  = Ok (PyDict (dict_of_items (pairs ++ [(KStr k, py_of_scalar v)])), s).
Proof.
  intros He. cbn [Json.object_pairs]. rewrite scanstring_encoded.
  cbn [mbind result_mbind result_bind app].
  change Json.key_separator with [":"; " "]%char. cbn [app].
  rewrite (skip_ws_nonws ":") by reflexivity.
  change (Ascii.eqb ":" ":") with true. cbv iota. rewrite skip_ws_space.
  destruct (encode_scalar_head b v value He) as (c0 & s0 & -> & Hws).
  cbn [app]. rewrite (skip_ws_nonws c0) by exact Hws.
  change (c0 :: s0 ++ "}"%char :: s) with ((c0 :: s0) ++ "}"%char :: s).
  rewrite (scan_once_scalar b fuel v (c0 :: s0) "}" s He) by (right; reflexivity).
  cbn [mbind result_mbind result_bind].
  rewrite (skip_ws_nonws "}") by reflexivity.
  change (Ascii.eqb "}" "}") with true. cbv iota.
  rewrite string_of_list_ascii_inv. reflexivity.
Qed.

Lemma object_pairs_next (b : bool) (fuel : nat) (k : string) (v : scalar)
  (value s : list ascii) (pairs : list (pykey * pyval)) :
  Json.encode_scalar b v = Ok value ->
  Json.object_pairs (S (S fuel))
    (flat_map (Json.encode_char b) (list_ascii_of_string k)
     ++ DQUOTE :: Json.key_separator ++ value ++ Json.item_separator ++ DQUOTE :: s) pairs
  = Json.object_pairs (S fuel) s (pairs ++ [(KStr k, py_of_scalar v)]).
Proof.
  intros He. cbn [Json.object_pairs]. rewrite scanstring_encoded.
  cbn [mbind result_mbind result_bind app].
  change Json.key_separator with [":"; " "]%char.
  change Json.item_separator with [","; " "]%char. cbn [app].
  rewrite (skip_ws_nonws ":") by reflexivity.
  change (Ascii.eqb ":" ":") with true. cbv iota. rewrite skip_ws_space.
  destruct (encode_scalar_head b v value He) as (c0 & s0 & -> & Hws).
  cbn [app]. rewrite (skip_ws_nonws c0) by exact Hws.
  change (c0 :: s0 ++ ","%char :: " "%char :: DQUOTE :: s)
    with ((c0 :: s0) ++ ","%char :: " "%char :: DQUOTE :: s).
  rewrite (scan_once_scalar b fuel v (c0 :: s0) "," _ He) by (left; reflexivity).
  cbn [mbind result_mbind result_bind].
  rewrite (skip_ws_nonws ",") by reflexivity.
  change (Ascii.eqb "," "}") with false. change (Ascii.eqb "," ",") with true. cbv iota.
  rewrite skip_ws_space, (skip_ws_nonws DQUOTE) by reflexivity.
  change (Ascii.eqb DQUOTE DQUOTE) with true. cbv iota.
  rewrite string_of_list_ascii_inv. reflexivity.
Qed.

Lemma join_cons (sep item : list ascii) (items : list (list ascii)) :
  items <> [] -> Json.join sep (item :: items) = item ++ sep ++ Json.join sep items.
Proof. destruct items; [congruence | reflexivity]. Qed.

Lemma join_length (sep : list ascii) (items : list (list ascii)) :
  Forall (fun item => item <> []) items ->
  (length items <= length (Json.join sep items))%nat.
Proof.
  induction 1 as [|item items Hi _ IH]; [reflexivity|].
  destruct items as [|item' items].
  - simpl. destruct item; [congruence | simpl; lia].
  - rewrite join_cons by discriminate. rewrite !length_app.
    destruct item; [congruence|]. simpl in *. lia.
Qed.

Lemma encode_items_spec (b : bool) (r : record) (items : list (list ascii)) :
  Json.encode_items b r = Ok items ->
  length items = length r /\ Forall (fun item => item <> []) items.
Proof.
  revert items. induction r as [|[k v] r IH]; intros items He.
  - injection He as <-. split; [reflexivity | constructor].
  - cbn [Json.encode_items] in He.
    destruct (Json.encode_scalar b v) as [value|]; [|discriminate He].
    destruct (Json.encode_items b r) as [rest|]; [|discriminate He].
    injection He as <-. destruct (IH rest eq_refl) as [Hlen Hne].
    split; [simpl; rewrite Hlen; reflexivity|]. constructor; [discriminate | exact Hne].
Qed.

(** The loop of [JSONObject] over the items of a record. *)
Lemma object_pairs_record (b : bool) (r : record) : forall items fuel pairs s,
  Json.encode_items b r = Ok items ->
  r <> [] ->
  (length r < fuel)%nat ->
  exists tail,
    Json.join Json.item_separator items = DQUOTE :: tail
    /\ Json.object_pairs fuel (tail ++ "}"%char :: s) pairs
       = Ok (PyDict (dict_of_items (pairs ++ record_items r)), s).
Proof.
  induction r as [|[k v] r IH]; intros items fuel pairs s He Hne Hf; [congruence|].
  cbn [Json.encode_items] in He.
  destruct (Json.encode_scalar b v) as [value|] eqn:Ev; [|discriminate He].
  destruct (Json.encode_items b r) as [rest|] eqn:Er; [|discriminate He].
  cbn [mbind result_mbind result_bind] in He. injection He as <-.
  destruct fuel as [|[|fuel]]; [simpl in Hf; lia | simpl in Hf; lia |].
  unfold Json.encode_basestring.
  destruct r as [|kv r].
  - injection Er as <-. eexists. split; [reflexivity|].
    cbn [Json.join]. rewrite <- !app_assoc. cbn [app].
    apply (object_pairs_last b fuel k v value s pairs Ev).
  - destruct (IH rest (S fuel) (pairs ++ [(KStr k, py_of_scalar v)]) s eq_refl)
      as (tail & Ht & Hp); [discriminate | simpl in *; lia |].
    assert (rest <> []) as Hrest.
    { destruct (encode_items_spec b (kv :: r) rest Er) as [Hlen _].
      destruct rest; [discriminate Hlen | discriminate]. }
    rewrite join_cons by exact Hrest. rewrite Ht.
    eexists. split; [reflexivity|].
    rewrite <- !app_assoc. cbn [app].
    transitivity (Json.object_pairs (S fuel) (tail ++ "}"%char :: s)
                    (pairs ++ [(KStr k, py_of_scalar v)]));
      [exact (object_pairs_next b fuel k v value (tail ++ "}"%char :: s) pairs Ev)|].
    rewrite Hp. cbn [record_items map fst snd]. rewrite <- app_assoc. reflexivity.
Qed.

Lemma record_items_distinct (r : record) :
  NoDup (keys r) -> dict_of_items (record_items r) = record_items r.
Proof.
  intros Hnd. apply dict_of_items_distinct. unfold record_items. rewrite map_map.
  cbn [fst]. replace (map (fun x => KStr (fst x)) r) with (map KStr (keys r))
    by (unfold keys; rewrite map_map; reflexivity).
  apply NoDup_fmap_2; [|exact Hnd]. intros x y [= ->]. reflexivity.
Qed.

(** A record as [json.dumps] writes it is scanned as the dict of the
    record. *)
Lemma scan_once_record (b : bool) (r : record) (text s : list ascii) (fuel : nat) :
  Json.encode_record b r = Ok text ->
  NoDup (keys r) ->
  (length text <= fuel)%nat ->
  Json.scan_once fuel (text ++ s) = Ok (py_of_record r, s).
Proof.
  intros He Hnd Hf. unfold Json.encode_record in He.
  destruct (Json.encode_items b r) as [items|] eqn:Ei; [|discriminate He].
  cbn [mbind result_mbind result_bind] in He. injection He as <-.
  destruct (encode_items_spec b r items Ei) as [Hlen Hne].
  pose proof (join_length Json.item_separator items Hne) as Hj.
  cbn [length] in Hf. rewrite length_app in Hf. cbn [length] in Hf.
  destruct fuel as [|fuel]; [lia|].
  destruct r as [|kv r].
  - injection Ei as <-. reflexivity.
  - destruct (object_pairs_record b (kv :: r) items fuel [] s Ei) as (tail & Ht & Hp);
      [discriminate | lia |].
    rewrite Ht. cbn [app Json.scan_once].
    change (Ascii.eqb "{" DQUOTE) with false. change (Ascii.eqb "{" "{") with true.
    cbv iota. rewrite <- app_assoc. cbn [app].
    change (Ascii.eqb DQUOTE DQUOTE) with true. cbv iota.
    rewrite Hp. cbn [app]. rewrite record_items_distinct by exact Hnd. reflexivity.
Qed.

Lemma encode_record_head (b : bool) (r : record) (text : list ascii) :
  Json.encode_record b r = Ok text -> exists t, text = "{"%char :: t.
Proof.
  unfold Json.encode_record. destruct (Json.encode_items b r); [|discriminate].
  intros [= <-]. eexists. reflexivity.
Qed.

Lemma encode_records_cons (b : bool) (r : record) (rows : TableRows)
  (items : list (list ascii)) :
  Json.encode_records b (r :: rows) = Ok items ->
  exists item rest,
    items = item :: rest
    /\ Json.encode_record b r = Ok item
    /\ Json.encode_records b rows = Ok rest.
Proof.
  cbn [Json.encode_records].
  destruct (Json.encode_record b r) as [item|]; [|discriminate].
  destruct (Json.encode_records b rows) as [rest|]; [|discriminate].
  intros [= <-]. eexists; eexists; repeat split.
Qed.

(** The loop of [JSONArray] over the records of a batch. *)
Lemma array_values_rows (b : bool) (rows : TableRows) : forall items fuel values s,
  Json.encode_records b rows = Ok items ->
  rows <> [] ->
  distinct_keys rows ->
  (length (Json.join Json.item_separator items) < fuel)%nat ->
  Json.array_values fuel (Json.join Json.item_separator items ++ "]"%char :: s) values
  = Ok (PyList (values ++ map py_of_record rows), s).
Proof.
  induction rows as [|r rows IH]; intros items fuel values s He Hne Hd Hf; [congruence|].
  destruct (encode_records_cons b r rows items He) as (item & rest & -> & Hr & Hrest).
  apply Forall_cons in Hd as [Hnd Hd].
  destruct fuel as [|fuel]; [lia|].
  destruct rows as [|r' rows].
  - injection Hrest as <-. cbn [Json.join] in *. cbn [Json.array_values].
    rewrite (scan_once_record b r item _ fuel Hr Hnd) by lia.
    cbn [mbind result_mbind result_bind].
    rewrite (skip_ws_nonws "]") by reflexivity.
    change (Ascii.eqb "]" "]") with true. reflexivity.
  - destruct (encode_records_cons b r' rows rest Hrest) as (item' & rest' & -> & Hr' & _).
    rewrite join_cons in * by discriminate.
    destruct (encode_record_head b r' item' Hr') as [t Ht].
    assert (exists t', Json.join Json.item_separator (item' :: rest') = "{"%char :: t')
      as [t' Ht'].
    { subst item'. destruct rest'; eexists; reflexivity. }
    set (J := Json.join Json.item_separator (item' :: rest')) in *.
    assert (Json.skip_ws (J ++ "]"%char :: s) = J ++ "]"%char :: s) as Hskip
      by (rewrite Ht'; reflexivity).
    rewrite !length_app in Hf.
    rewrite <- !app_assoc. cbn [Json.array_values].
    rewrite (scan_once_record b r item _ fuel Hr Hnd) by lia.
    cbn [mbind result_mbind result_bind].
    change Json.item_separator with [","; " "]%char in *. cbn [app length] in *.
    rewrite (skip_ws_nonws ",") by reflexivity.
    change (Ascii.eqb "," "]") with false. change (Ascii.eqb "," ",") with true. cbv iota.
    rewrite skip_ws_space, Hskip.
    subst J.
    rewrite (IH (item' :: rest') fuel (values ++ [py_of_record r]) s Hrest);
      [rewrite <- app_assoc; reflexivity | discriminate | exact Hd |].
    change Json.item_separator with [","; " "]%char. lia.
Qed.

(** [json.loads] gives back the batch that [json.dumps] wrote. *)
Lemma loads_dumps (b : bool) (data : TableRows) (text : list ascii) :
  Json.dumps data b = Ok text ->
  distinct_keys data ->
  Json.loads text = Ok (py_of_rows data).
Proof.
  intros He Hd. unfold Json.dumps in He.
  destruct (Json.encode_records b data) as [items|] eqn:Ei; [|discriminate He].
  cbn [mbind result_mbind result_bind] in He. injection He as <-.
  unfold Json.loads. rewrite (skip_ws_nonws "[") by reflexivity.
  destruct data as [|r data].
  - injection Ei as <-. reflexivity.
  - destruct (encode_records_cons b r data items Ei) as (item & rest & -> & Hr & _).
    destruct (encode_record_head b r item Hr) as [t Ht].
    assert (exists t', Json.join Json.item_separator (item :: rest) = "{"%char :: t')
      as [t' Ht'].
    { subst item. destruct rest; eexists; reflexivity. }
    pose proof (array_values_rows b (r :: data) (item :: rest)
                  (length ("["%char :: Json.join Json.item_separator (item :: rest) ++ ["]"%char]))
                  [] [] Ei) as Ha.
    rewrite Ht' in *. cbn [Json.scan_once app].
    change (Ascii.eqb "[" DQUOTE) with false. change (Ascii.eqb "[" "{") with false.
    change (Ascii.eqb "[" "[") with true. cbv iota.
    rewrite (skip_ws_nonws "{") by reflexivity.
    change (Ascii.eqb "{" "]") with false. cbv iota.
    cbn [app] in Ha. rewrite Ha; [reflexivity | discriminate | exact Hd |].
    cbn [length]. rewrite length_app. cbn [length]. lia.
Qed.

Lemma encode_scalar_ok (b : bool) (v : scalar) :
  match v with VDatetime _ => False | _ => True end ->
  exists text, Json.encode_scalar b v = Ok text.
Proof. destruct v as [?|?|[|]|?|]; intros H; try contradiction; eexists; reflexivity. Qed.

Lemma dumps_ok (b : bool) (data : TableRows) :
  no_datetime data -> exists text, Json.dumps data b = Ok text /\ text <> [].
Proof.
  intros Hnd. unfold Json.dumps.
  assert (exists items, Json.encode_records b data = Ok items) as [items ->].
  { induction Hnd as [|r data Hr _ [rest IH]]; [eexists; reflexivity|].
    cbn [Json.encode_records]. unfold Json.encode_record.
    assert (exists items, Json.encode_items b r = Ok items) as [items ->].
    { induction Hr as [|[k v] r Hv _ [items IHr]]; [eexists; reflexivity|].
      cbn [Json.encode_items]. destruct (encode_scalar_ok b v Hv) as [text ->].
      rewrite IHr. eexists. reflexivity. }
    rewrite IH. eexists. reflexivity. }
  eexists. split; [reflexivity | discriminate].
Qed.

(** The JSON round trip: [dump] of a batch without date/times, then [load],
    gives the batch. *)
Lemma json_round_trip (self : JSON.JSON) (w w' : World) (name : string) (data : TableRows) :
  data <> [] ->
  no_datetime data ->
  distinct_keys data ->
  Path.open w (JSON.make_filename self name) Path.mode_w = Ok w' ->
  exists w1,
    JSON.dump self w name data = (w1, Ok tt)
    /\ JSON.load self w1 name = Ok (py_of_rows data).
Proof.
  intros Hne Hnd Hd Ho. unfold JSON.dump.
  destruct data as [|r data]; [congruence|].
  set (b := match JSON.encoding self with None => true | Some _ => false end).
  destruct (dumps_ok b (r :: data) Hnd) as (text & Ht & Hnil). rewrite Ht, Ho.
  eexists. split; [reflexivity|].
  set (p := JSON.make_filename self name) in *.
  destruct (open_is_dir w p Path.mode_w w' p Ho) as [Hdir' Hdir].
  unfold JSON.load. fold p. unfold Path.open.
  change (Path.is_dir (Path.write w' p text) p) with (Path.is_dir w' p).
  rewrite Hdir', Hdir.
  pose proof (files_write w' p text) as Hf. rewrite (open_write_read w p w' Ho) in Hf.
  cbn [app] in Hf.
  destruct (files (Path.write w' p text) !! p) as [content|] eqn:E; [|discriminate Hf].
  injection Hf as ->. cbn [mbind result_mbind result_bind].
  unfold Path.read. rewrite E. cbn [default from_option id].
  destruct text as [|c text]; [congruence|].
  apply (loads_dumps b (r :: data) (c :: text) Ht Hd).
Qed.

(** ** Dump, then load *)

Lemma as_text_all_text (fmt : string) (data : TableRows) :
  all_text data -> map (as_text fmt) data = data.
Proof.
  induction 1 as [|r data Hr _ IH]; [reflexivity|].
  cbn [map]. rewrite IH. f_equal.
  induction Hr as [|[k v] r [s Hs] _ IHr]; [reflexivity|].
  cbn [as_text map fst snd] in *. subst v. cbn [cell_text py_str].
  f_equal. exact IHr.
Qed.

(** C1, as amended.  For a non-empty batch:

    - on the CSV syncer, when the header is enabled and not yet written for
      the table, the delimiter and the escape character are single
      characters different from each other, from the quote character and
      from CR and LF, every record has the columns of the first (at least
      one), no column name or cell text is longer than the field size limit
      of the [csv] module, and the file is new or empty once opened (as it
      always is in [OVERWRITE] mode): [dump] succeeds and [load] then
      returns the records with every value replaced by its text, which is
      the value itself for text, the formatted text for a date/time, [str()]
      of the value for a number or a boolean and the empty text for [None];
      so a batch of text values comes back equal;

    - on the JSON syncer, when no value is a date/time: [dump] succeeds and
      [load] then returns records equal to the batch. *)
Theorem dump_then_load (csv : CSV.CSV) (json : JSON.JSON) (w wc wj : World)
  (name : string) (data : TableRows) :
  data <> [] ->
  (constructed csv ->
   distinct_specials csv ->
   CSV.header csv = true ->
   CSV._written_header csv !! name = None ->
   same_columns data ->
   cells_short (CSV.date_time_format csv) data ->
   Path.open w (CSV.path_of csv name) (open_mode csv) = Ok wc ->
   Path.read wc (CSV.path_of csv name) = [] ->
   exists csv1 w1,
     CSV.dump csv w name data = (csv1, w1, Ok tt)
     /\ CSV.load csv1 w1 name
        = Ok (py_of_rows (map (as_text (CSV.date_time_format csv)) data))
     /\ (all_text data -> CSV.load csv1 w1 name = Ok (py_of_rows data)))
  /\ (no_datetime data ->
      distinct_keys data ->
      Path.open w (JSON.make_filename json name) Path.mode_w = Ok wj ->
      exists w1,
        JSON.dump json w name data = (w1, Ok tt)
        /\ JSON.load json w1 name = Ok (py_of_rows data)).
Proof.
  intros Hne. split.
  - intros Hc Hd Hh Hn Hcols Hshort Ho Hempty.
    destruct data as [|first rest]; [congruence|].
    destruct (csv_round_trip csv w wc name first rest Hc Hd Hh Hn Hcols Hshort Ho Hempty)
      as (csv1 & w1 & Hdump & Hload).
    exists csv1, w1. split; [exact Hdump|]. split; [exact Hload|].
    intros Ht. rewrite Hload, (as_text_all_text _ _ Ht). reflexivity.
  - intros Hnd Hd Ho. apply (json_round_trip json w wj name data Hne Hnd Hd Ho).
Qed.

Lemma dump_then_load_witness :
  (exists csv1 w1,
     CSV.dump (example_syncer CSV.OVERWRITE) example_world "t" example_rows
     = (csv1, w1, Ok tt)
     /\ CSV.load csv1 w1 "t"
        = Ok (py_of_rows (map (as_text "%Y-%m-%d %H:%M:%S") example_rows))
     /\ (all_text example_rows -> CSV.load csv1 w1 "t" = Ok (py_of_rows example_rows)))
  /\ (exists w1,
        JSON.dump example_json example_world "t" example_rows = (w1, Ok tt)
        /\ JSON.load example_json w1 "t" = Ok (py_of_rows example_rows)).
Proof.
  destruct (dump_then_load (example_syncer CSV.OVERWRITE) example_json example_world
              (Path.set_file example_world "out/t.csv" [])
              (Path.set_file example_world "out/t.json" [])
              "t" example_rows) as [Hcsv Hjson]; [discriminate|].
  split.
  - apply Hcsv.
    + right. reflexivity.
    + repeat split; discriminate.
    + reflexivity.
    + reflexivity.
    + split; [discriminate|]. split.
      * apply (bool_decide_unpack _). vm_compute. exact I.
      * repeat constructor.
    + repeat constructor; cbv; discriminate.
    + reflexivity.
    + reflexivity.
  - apply Hjson.
    + repeat constructor.
    + unfold distinct_keys. apply (bool_decide_unpack _). vm_compute. exact I.
    + reflexivity.
Defined.

(** C1 as stated fails on the CSV syncer for a number: the record
    [{"a": 1}] is loaded as [{"a": "1"}]. *)
Lemma dump_then_load_counterexample :
  exists csv1 w1,
    CSV.dump (example_syncer CSV.OVERWRITE) example_world "t" [[("a", VInt 1)]]
    = (csv1, w1, Ok tt)
    /\ CSV.load csv1 w1 "t" = Ok (PyList [PyDict [(KStr "a", PyStr "1")]])
    /\ CSV.load csv1 w1 "t" <> Ok (py_of_rows [[("a", VInt 1)]]).
Proof. eexists. eexists. split; [reflexivity|]. split; [reflexivity | discriminate]. Qed.

(** * Further properties of the code *)

(** ** More on chunking *)

Section ChunksCount.
Context {T : Type}.
Implicit Types (l : list T) (n : nat).

(** The number of batches: the length over [n], rounded up. *)
Lemma chunks_loop_length n l :
  (0 < n)%nat -> length (Utils.chunks_loop n l) = ((length l + n - 1) / n)%nat.
Proof.
  intros Hn. remember (length l) as k eqn:Hk. revert l Hk.
  induction k as [k IH] using lt_wf_ind. intros l Hk.
  rewrite chunks_loop_unfold.
  destruct l as [|x l].
  - rewrite take_nil. simpl in *. subst k. simpl.
    symmetry. apply Nat.div_small. lia.
  - destruct n as [|n]; [lia|]. simpl take. simpl drop. cbn [length].
    rewrite (IH (length (drop n l))); [| rewrite length_drop; simpl in Hk; lia | reflexivity].
    rewrite length_drop. simpl in Hk. subst k.
    destruct (le_lt_dec (length l) n) as [Hle|Hgt].
    + replace (length l - n)%nat with 0%nat by lia.
      rewrite (Nat.div_small (0 + S n - 1)) by lia.
      apply (Nat.div_unique _ _ 1 (length l)); lia.
    + replace (S (length l) + S n - 1)%nat with ((length l - n + S n - 1) + 1 * S n)%nat by lia.
      rewrite Nat.div_add by lia. lia.
Qed.

Lemma chunks_from_ok l (n : Z) : Utils.chunks_from (Ok l) n = Utils.chunks l n.
Proof. reflexivity. Qed.
End ChunksCount.

(** X1: for a batch size from one to [sys.maxsize], [chunks] yields as
    many batches as the length of the input divided by the batch size,
    rounded up; an empty input yields no batch. *)
Theorem chunks_count {T : Type} (iterable : list T) (n : Z) :
  (1 <= n <= Sys.maxsize)%Z ->
  exists batches,
    Utils.chunks iterable n = Ok batches
    /\ Z.of_nat (length batches) = ((Z.of_nat (length iterable) + n - 1) / n)%Z
    /\ (iterable = [] -> batches = []).
Proof.
  intros Hn. exists (Utils.chunks_loop (Z.to_nat n) iterable).
  unfold Utils.chunks. destruct (Z.ltb_spec n 1) as [Hlt|_]; [lia|].
  rewrite islice_stop_ok by lia. cbn [mbind result_mbind result_bind].
  split; [reflexivity|]. split.
  - rewrite chunks_loop_length by lia.
    rewrite Nat2Z.inj_div, Nat2Z.inj_sub by lia.
    rewrite Nat2Z.inj_add, Z2Nat.id by lia. reflexivity.
  - intros ->. apply chunks_loop_nil.
Qed.

Lemma chunks_count_witness :
  exists batches,
    Utils.chunks (Utils.range 7) 3 = Ok batches
    /\ Z.of_nat (length batches) = ((Z.of_nat (length (Utils.range 7)) + 3 - 1) / 3)%Z
    /\ (Utils.range 7 = [] -> batches = []).
Proof. apply (chunks_count (Utils.range 7) 3). split; [lia | discriminate]. Defined.

(** ** [find] *)

(** X2: [find] returns the first element of the sequence for which the
    predicate holds, every element before it failing the predicate; when
    no element passes, it returns [None]. *)
Theorem find_first_match (predicate : pyval -> bool) (iterable : list pyval) :
  (Forall (fun element => predicate element = false) iterable
   /\ UtilsValues.find predicate iterable = PyNone)
  \/ (exists before after,
        iterable = before ++ UtilsValues.find predicate iterable :: after
        /\ predicate (UtilsValues.find predicate iterable) = true
        /\ Forall (fun element => predicate element = false) before).
Proof.
  induction iterable as [|element rest IH].
  - left. split; [constructor | reflexivity].
  - cbn [UtilsValues.find]. destruct (predicate element) eqn:Hp.
    + right. exists [], rest. repeat split; [exact Hp | constructor].
    + destruct IH as [[Hall Hnone]|(before & after & Heq & Hfound & Hbefore)].
      * left. split; [constructor; assumption | exact Hnone].
      * right. exists (element :: before), after. split; [|split].
        -- simpl. f_equal. exact Heq.
        -- exact Hfound.
        -- constructor; assumption.
Qed.

(** ** Deleting from a [State] *)

(** X3: deleting an attribute that was set removes it from the stored
    state: reading it afterwards raises [AttributeError] and the other
    attributes read as before; deleting it once more, like deleting any
    attribute that is not stored, raises [KeyError], which the class does
    not turn into an [AttributeError]. *)
Theorem State_delete {Any : Type} (on_class : string -> bool) (self : Utils.State Any)
  (key : string) (value : Any) :
  key <> "_state" ->
  on_class key = false ->
  (exists self',
     Utils.__delattr__ (Utils.setattr self key value) key = Ok self'
     /\ Utils._state self' = delete key (Utils._state self)
     /\ Utils.getattr on_class self' key
        = Raise (AttributeError ("'State' object has no attribute '" +:+ key +:+ "'"))
     /\ (forall key', key' <> key -> key' <> "_state" ->
           Utils.getattr on_class self' key' = Utils.getattr on_class self key')
     /\ Utils.__delattr__ self' key = Raise (KeyError key))
  /\ (Utils._state self !! key = None -> Utils.__delattr__ self key = Raise (KeyError key)).
Proof.
  intros Hkey Hclass. split.
  - unfold Utils.__delattr__, Utils.setattr, Utils.__setattr__. cbn [Utils._state].
    rewrite lookup_insert_eq. eexists. split; [reflexivity|]. cbn [Utils._state].
    rewrite delete_insert_eq.
    split; [reflexivity|]. split; [|split].
    + unfold Utils.getattr. rewrite bool_decide_eq_false_2 by exact Hkey. rewrite Hclass.
      unfold Utils.__getattr__. cbn [Utils._state]. rewrite lookup_delete_eq. reflexivity.
    + intros key' Hne Hs. unfold Utils.getattr. rewrite !bool_decide_eq_false_2 by exact Hs.
      unfold Utils.__getattr__. cbn [Utils._state].
      rewrite lookup_delete_ne by congruence. reflexivity.
    + rewrite lookup_delete_eq. reflexivity.
  - intros Hnone. unfold Utils.__delattr__. rewrite Hnone. reflexivity.
Qed.

Lemma State_delete_witness :
  (exists self',
     Utils.__delattr__ (Utils.setattr (Utils.__init__ None) "token" 7%Z) "token" = Ok self'
     /\ Utils._state self' = delete "token" (Utils._state (Utils.__init__ None))
     /\ Utils.getattr (fun _ => false) self' "token"
        = Raise (AttributeError ("'State' object has no attribute '" +:+ "token" +:+ "'"))
     /\ (forall key', key' <> "token" -> key' <> "_state" ->
           Utils.getattr (fun _ => false) self' key'
           = Utils.getattr (fun _ => false) (Utils.__init__ None) key')
     /\ Utils.__delattr__ self' "token" = Raise (KeyError "token"))
  /\ (Utils._state (Utils.__init__ (Any := Z) None) !! "token" = None ->
      Utils.__delattr__ (Utils.__init__ (Any := Z) None) "token" = Raise (KeyError "token")).
Proof.
  apply (State_delete (fun _ => false) (Utils.__init__ (Any := Z) None) "token" 7%Z).
  - discriminate.
  - reflexivity.
Defined.

(** ** [deep_update] *)

Lemma deep_update_dict (old ignore : pyval) (items : list (pykey * pyval)) :
  UtilsValues.deep_update old (PyDict items) ignore = update_items items old ignore.
Proof.
  cbn [UtilsValues.deep_update]. revert old.
  induction items as [|[k v] items IH]; intros old; [reflexivity|].
  cbn [update_items].
  destruct (UtilsValues.ignored v ignore) as [[|]|e]; cbn [mbind result_mbind result_bind];
    [apply IH | | reflexivity].
  destruct (match v with
            | PyDict _ => _
            | _ => _
            end) as [v'|e]; cbn [mbind result_mbind result_bind]; [|reflexivity].
  destruct (Builtins.setitem _ k v') as [old'|e]; cbn [mbind result_mbind result_bind];
    [apply IH | reflexivity].
Qed.















Lemma update_items_ignored (ignore : pyval) (items : list (pykey * pyval)) (old : pyval) :
  Forall (fun kv => UtilsValues.ignored (snd kv) ignore = Ok true) items ->
  update_items items old ignore = Ok old.
Proof.
  induction 1 as [|[k v] items Hv _ IH]; [reflexivity|].
  cbn [update_items]. cbn [snd] in Hv. rewrite Hv. exact IH.
Qed.

(** X6: an item of [new] whose value is ignored changes nothing; with the
    default [ignore] the ignored values are [None] and also the text
    ["None"], since the test compares texts.  When every value of [new]
    is ignored the result is [old] as it was given, whatever it is. *)
Theorem deep_update_skips_ignored (old ignore : pyval) (items : list (pykey * pyval)) :
  (Forall (fun kv => UtilsValues.ignored (snd kv) ignore = Ok true) items ->
   UtilsValues.deep_update old (PyDict items) ignore = Ok old)
  /\ (Forall (fun kv => snd kv = PyNone \/ snd kv = PyStr "None") items ->
      UtilsValues.deep_update old (PyDict items) PyNone = Ok old).
Proof.
  split; intros Hall; rewrite deep_update_dict; apply update_items_ignored; [exact Hall|].
  eapply Forall_impl; [exact Hall|]. intros [k v] [->| ->]; reflexivity.
Qed.

Lemma deep_update_skips_ignored_witness :
  UtilsValues.deep_update example_old
    (PyDict [(KStr "debug", PyNone); (KStr "user", PyStr "None")]) PyNone
  = Ok example_old.
Proof.
  apply (deep_update_skips_ignored example_old PyNone
           [(KStr "debug", PyNone); (KStr "user", PyStr "None")]).
  constructor; [left; reflexivity|]. constructor; [right; reflexivity|]. constructor.
Defined.

(** X7: a value of [old] that is no dict cannot be merged with a dict of
    [new] that brings a value: next to [None], which is taken for an
    empty dict, unless the value brought is itself a dict; otherwise
    [deep_update] raises, [TypeError] from the assignment when the value
    brought is no dict and [AttributeError] from [get] when it is one. *)
Theorem deep_update_conflicts (d : list (pykey * pyval)) (k k2 : pykey)
  (x v2 ignore : pyval) :
  Builtins.dict_get d k = Some x ->
  UtilsValues.ignored (PyDict [(k2, v2)]) ignore = Ok false ->
  UtilsValues.ignored v2 ignore = Ok false ->
  let new := PyDict [(k, PyDict [(k2, v2)])] in
  (x = PyNone -> is_dict v2 = false ->
   UtilsValues.deep_update (PyDict d) new ignore
   = Ok (PyDict (dict_set d k (PyDict [(k2, v2)]))))
  /\ (is_dict x = false -> x <> PyNone -> is_dict v2 = false ->
      exists msg,
        Builtins.setitem x k2 v2 = Raise (TypeError msg)
        /\ UtilsValues.deep_update (PyDict d) new ignore = Raise (TypeError msg))
  /\ (is_dict x = false -> is_dict v2 = true ->
      UtilsValues.deep_update (PyDict d) new ignore
      = Raise (AttributeError ("'" +:+ Builtins.type_name x
                               +:+ "' object has no attribute 'get'"))).
Proof.
  intros Hx Hig1 Hig2 new. subst new.
  assert (forall r : result pyval,
            UtilsValues.deep_update x (PyDict [(k2, v2)]) ignore = r ->
            UtilsValues.deep_update (PyDict d) (PyDict [(k, PyDict [(k2, v2)])]) ignore
            = (v ← r; Ok (PyDict (dict_set d k v)))) as Hstep.
  { intros r <-. rewrite (deep_update_dict (PyDict d)). cbn [update_items].
    rewrite Hig1. cbn [mbind result_mbind result_bind Builtins.get].
    rewrite Hx. cbn [from_option id].
    destruct (UtilsValues.deep_update x (PyDict [(k2, v2)]) ignore); reflexivity. }
  split; [|split].
  - intros -> Hd. rewrite (Hstep (Ok (PyDict [(k2, v2)]))); [reflexivity|].
    rewrite deep_update_dict. cbn [update_items]. rewrite Hig2.
    destruct v2; try discriminate; reflexivity.
  - intros Hd Hn Hd2.
    assert (exists msg, Builtins.setitem x k2 v2 = Raise (TypeError msg)) as [msg Hmsg].
    { destruct x; try discriminate; try congruence; eexists; reflexivity. }
    exists msg. split; [exact Hmsg|].
    rewrite (Hstep (Raise (TypeError msg))); [reflexivity|].
    rewrite deep_update_dict. cbn [update_items]. rewrite Hig2.
    cbn [mbind result_mbind result_bind].
    destruct v2; try discriminate; cbn [mbind result_mbind result_bind];
      (destruct x; try discriminate; try congruence; rewrite Hmsg; reflexivity).
  - intros Hd Hd2.
    rewrite (Hstep (Raise (AttributeError ("'" +:+ Builtins.type_name x
                                           +:+ "' object has no attribute 'get'"))));
      [reflexivity|].
    rewrite deep_update_dict. cbn [update_items]. rewrite Hig2.
    cbn [mbind result_mbind result_bind].
    destruct v2; try discriminate. destruct x; try discriminate; reflexivity.
Qed.

Lemma deep_update_conflicts_witness :
  (PyInt 80 = PyNone -> is_dict (PyInt 1) = false ->
   UtilsValues.deep_update (PyDict [(KStr "port", PyInt 80)])
     (PyDict [(KStr "port", PyDict [(KStr "http", PyInt 1)])]) PyNone
   = Ok (PyDict (dict_set [(KStr "port", PyInt 80)] (KStr "port")
                   (PyDict [(KStr "http", PyInt 1)]))))
  /\ (is_dict (PyInt 80) = false -> PyInt 80 <> PyNone -> is_dict (PyInt 1) = false ->
      exists msg,
        Builtins.setitem (PyInt 80) (KStr "http") (PyInt 1) = Raise (TypeError msg)
        /\ UtilsValues.deep_update (PyDict [(KStr "port", PyInt 80)])
             (PyDict [(KStr "port", PyDict [(KStr "http", PyInt 1)])]) PyNone
           = Raise (TypeError msg))
  /\ (is_dict (PyInt 80) = false -> is_dict (PyInt 1) = true ->
      UtilsValues.deep_update (PyDict [(KStr "port", PyInt 80)])
        (PyDict [(KStr "port", PyDict [(KStr "http", PyInt 1)])]) PyNone
      = Raise (AttributeError ("'" +:+ Builtins.type_name (PyInt 80)
                               +:+ "' object has no attribute 'get'"))).
Proof.
  apply (deep_update_conflicts [(KStr "port", PyInt 80)] (KStr "port") (KStr "http")
           (PyInt 80) (PyInt 1) PyNone); reflexivity.
Defined.





(** ** Reading a CSV file in batches *)

(** X9: for a batch size from one to [sys.maxsize], the batches of
    [read_stream] put end to end are the rows that [load] returns, every
    batch but the last has [batch] rows, and [read_stream] raises whatever
    [load] raises. *)
Theorem read_stream_batches (self : CSV.CSV) (w : World) (name : string) (batch : Z) :
  (1 <= batch <= Sys.maxsize)%Z ->
  (forall rows,
     CSV.load self w name = Ok (PyList rows) ->
     exists batches,
       CSV.read_stream self w name batch = Ok batches
       /\ concat batches = rows
       /\ forall i b,
           batches !! i = Some b ->
           (0 < Z.of_nat (length b) <= batch)%Z
           /\ ((S i < length batches)%nat -> Z.of_nat (length b) = batch))
  /\ (forall e, CSV.load self w name = Raise e -> CSV.read_stream self w name batch = Raise e).
Proof.
  intros Hn. unfold CSV.load, CSV.read_stream.
  destruct (Path.exists_ w (CSV.path_of self name)); cbn [negb].
  - destruct (Path.open w (CSV.path_of self name) Path.mode_r) as [w'|e'];
      cbn [mbind result_mbind result_bind]; [|split; [discriminate | intros e [= ->]; reflexivity]].
    destruct (Csv.dialect_new (CSV.dialect_and_format_parameters self)) as [dialect|e'];
      cbn [mbind result_mbind result_bind]; [|split; [discriminate | intros e [= ->]; reflexivity]].
    unfold Utils.chunks_from. destruct (Z.ltb_spec batch 1) as [Hlt|_]; [lia|].
    rewrite islice_stop_ok by lia. cbn [mbind result_mbind result_bind].
    destruct (Csv.DictReader dialect (Path.read w' (CSV.path_of self name))) as [data|e'];
      cbn [mbind result_mbind result_bind]; [|split; [discriminate | intros e [= ->]; reflexivity]].
    split; [|discriminate].
    intros rows [= <-]. eexists. split; [reflexivity|]. split.
    + apply chunks_loop_concat. lia.
    + intros i b Hb.
      destruct (chunks_loop_sizes (Z.to_nat batch) data i b) as [H1 H2]; [lia | exact Hb |].
      split; [lia|]. intros Hlt. specialize (H2 Hlt). lia.
  - split; [|discriminate].
    intros rows [= <-]. exists []. split; [reflexivity|]. split; [reflexivity|].
    intros i b Hb. discriminate.
Qed.

Lemma read_stream_batches_witness :
  (forall rows,
     CSV.load (example_syncer CSV.APPEND) example_csv_world "t" = Ok (PyList rows) ->
     exists batches,
       CSV.read_stream (example_syncer CSV.APPEND) example_csv_world "t" 2 = Ok batches
       /\ concat batches = rows
       /\ forall i b,
           batches !! i = Some b ->
           (0 < Z.of_nat (length b) <= 2)%Z
           /\ ((S i < length batches)%nat -> Z.of_nat (length b) = 2%Z))
  /\ (forall e,
        CSV.load (example_syncer CSV.APPEND) example_csv_world "t" = Raise e ->
        CSV.read_stream (example_syncer CSV.APPEND) example_csv_world "t" 2 = Raise e).
Proof.
  apply (read_stream_batches (example_syncer CSV.APPEND) example_csv_world "t" 2).
  split; [lia | discriminate].
Defined.

(** X10: on a table that was never written [read_stream] yields no batch,
    whatever the batch size; on a file that is there, a batch size below
    one raises [ValueError] before a row is read. *)
Theorem read_stream_edges (self : CSV.CSV) (w : World) (name : string) (batch : Z) :
  (never_written w (CSV.path_of self name) -> CSV.read_stream self w name batch = Ok [])
  /\ (is_Some (files w !! CSV.path_of self name) ->
      CSV.path_of self name ∉ dirs w ->
      single_characters self ->
      (batch < 1)%Z ->
      CSV.read_stream self w name batch = Raise (ValueError "n must be at least one")).
Proof.
  split.
  - intros Hnw. unfold CSV.read_stream. rewrite (exists_never_written _ _ Hnw). reflexivity.
  - intros [text Hfile] Hdir Hs Hlt. unfold CSV.read_stream.
    assert (Path.is_dir w (CSV.path_of self name) = false) as Hd
      by (apply bool_decide_eq_false_2; exact Hdir).
    assert (Path.exists_ w (CSV.path_of self name) = true) as Hex.
    { unfold Path.exists_, Path.is_file. rewrite Hfile.
      rewrite bool_decide_eq_true_2 by eauto. reflexivity. }
    rewrite Hex. cbn [negb]. unfold Path.open. rewrite Hd, Hfile.
    cbn [mbind result_mbind result_bind].
    destruct (dialect_of_syncer self Hs) as (dialect & -> & _).
    cbn [mbind result_mbind result_bind]. unfold Utils.chunks_from.
    destruct (Z.ltb_spec batch 1) as [_|Hge]; [reflexivity | lia].
Qed.

Lemma read_stream_edges_witness :
  CSV.read_stream (example_syncer CSV.APPEND) example_world "t" 0 = Ok []
  /\ CSV.read_stream (example_syncer CSV.APPEND) example_csv_world "t" 0
     = Raise (ValueError "n must be at least one").
Proof.
  split.
  - apply (read_stream_edges (example_syncer CSV.APPEND) example_world "t" 0).
    split; [reflexivity|]. apply (bool_decide_unpack _). vm_compute. exact I.
  - apply (read_stream_edges (example_syncer CSV.APPEND) example_csv_world "t" 0).
    + eexists. reflexivity.
    + apply (bool_decide_unpack _). vm_compute. exact I.
    + split; reflexivity.
    + lia.
Defined.

(** ** The header of a CSV file *)

(** X11: the header is tracked by the syncer object, not by the file: when
    a second syncer with the same options appends to the file that a first
    one has written, the header line is written again, between the rows of
    the two batches. *)
Theorem csv_header_once_per_instance (self : CSV.CSV) (w w' : World) (name : string)
  (first1 : record) (rest1 : list record) (first2 : record) (rest2 : list record) :
  constructed self ->
  single_characters self ->
  CSV.save_strategy self = CSV.APPEND ->
  CSV.header self = true ->
  CSV._written_header self !! name = None ->
  homogeneous (first1 :: rest1) ->
  homogeneous (first2 :: rest2) ->
  Path.open w (CSV.path_of self name) Path.mode_a = Ok w' ->
  exists dialect header1 header2 self1 w1 self2 w2,
    Csv.dialect_new (CSV.dialect_and_format_parameters self) = Ok dialect
    /\ Csv.writeheader dialect (keys first1) = Ok header1
    /\ Csv.writeheader dialect (keys first2) = Ok header2
    /\ CSV.dump self w name (first1 :: rest1) = (self1, w1, Ok tt)
    /\ CSV.dump self w1 name (first2 :: rest2) = (self2, w2, Ok tt)
    /\ files w2 !! CSV.path_of self name
       = Some (Path.read w (CSV.path_of self name)
               ++ header1
               ++ rows_text dialect self (first1 :: rest1)
               ++ header2
               ++ rows_text dialect self (first2 :: rest2)).
Proof.
  intros Hc Hs Ha Hh Hn H1 H2 Ho.
  destruct (dialect_of_syncer self Hs) as (dialect & Hd & _ & _ & _ & _ & _ & Hq).
  assert (open_mode self = Path.mode_a) as Hm by (unfold open_mode; rewrite Ha; reflexivity).
  destruct (dump_succeeds self w w' name first1 rest1 dialect Hc Hd Hq H1) as (hl & Hhl & D1).
  { rewrite Hm. exact Ho. }
  rewrite (header_due_fresh self name Hh Hn) in D1.
  set (p := CSV.path_of self name) in *.
  set (w1 := Path.write (Path.write w' p hl) p (rows_text dialect self (first1 :: rest1))) in *.
  destruct (open_is_dir w p Path.mode_a w' p Ho) as [Hdir' Hdir].
  assert (Path.open w1 p (open_mode self) = Ok w1) as Ho1.
  { rewrite Hm. apply open_append_again.
    change (Path.is_dir (Path.write w' p hl) p) with (Path.is_dir w' p). congruence. }
  destruct (dump_succeeds self w1 w1 name first2 rest2 dialect Hc Hd Hq H2 Ho1)
    as (hl2 & Hhl2 & D2).
  rewrite (header_due_fresh self name Hh Hn) in D2. fold p in D2.
  exists dialect, hl, hl2. eexists. exists w1. eexists. eexists.
  split; [exact Hd|]. split; [exact Hhl|]. split; [exact Hhl2|].
  split; [exact D1|]. split; [exact D2|].
  rewrite files_write. f_equal.
  subst w1. rewrite !read_write. rewrite (open_append_read w p w' Ho).
  rewrite <- !app_assoc. reflexivity.
Qed.

Lemma csv_header_once_per_instance_witness :
  exists dialect header1 header2 self1 w1 self2 w2,
    Csv.dialect_new (CSV.dialect_and_format_parameters (example_syncer CSV.APPEND))
    = Ok dialect
    /\ Csv.writeheader dialect ["a"; "b"] = Ok header1
    /\ Csv.writeheader dialect ["a"; "b"] = Ok header2
    /\ CSV.dump (example_syncer CSV.APPEND) example_world "t"
         [[("a", VInt 1); ("b", VText "x")]] = (self1, w1, Ok tt)
    /\ CSV.dump (example_syncer CSV.APPEND) w1 "t"
         [[("a", VInt 2); ("b", VNull)]] = (self2, w2, Ok tt)
    /\ files w2 !! "out/t.csv"
       = Some (Path.read example_world "out/t.csv"
               ++ header1
               ++ rows_text dialect (example_syncer CSV.APPEND)
                    [[("a", VInt 1); ("b", VText "x")]]
               ++ header2
               ++ rows_text dialect (example_syncer CSV.APPEND)
                    [[("a", VInt 2); ("b", VNull)]]).
Proof.
  apply (csv_header_once_per_instance (example_syncer CSV.APPEND) example_world
           (Path.set_file example_world "out/t.csv" []) "t"
           [("a", VInt 1); ("b", VText "x")] [] [("a", VInt 2); ("b", VNull)] []).
  - right. reflexivity.
  - split; reflexivity.
  - reflexivity.
  - reflexivity.
  - reflexivity.
  - constructor.
  - constructor.
  - reflexivity.
Defined.

Section HeaderlessFacts.
Variable d : Csv.Dialect.
Hypothesis Hsep : separable d.

(** [csv.DictReader] on the text of records without a header line: the
    first record gives the field names. *)
Lemma DictReader_first_row (row0 : list string) (rows : list (list string)) :
  row0 <> [] -> Forall short row0 ->
  Forall (fun row => row <> [] /\ Forall short row) rows ->
  Csv.DictReader d (flat_map (encoded_row d) (map (map list_ascii_of_string) (row0 :: rows)))
  = Ok (map (Csv.row_dict row0) rows).
Proof.
  intros Hne Hshort Hrows. unfold Csv.DictReader.
  rewrite (reader_encoded_rows d Hsep).
  - cbn [mbind result_mbind result_bind map].
    assert (forall l, map string_of_list_ascii (map list_ascii_of_string l) = l) as Hinv.
    { intros l. rewrite map_map. rewrite <- (map_id l) at 2. apply map_ext.
      intros s. apply string_of_list_ascii_inv. }
    rewrite Hinv. f_equal.
    rewrite map_map.
    rewrite (map_ext _ (fun row => row)) by (intros row; apply Hinv). rewrite map_id.
    f_equal. induction Hrows as [|row rows [Hrow _] _ IH]; [reflexivity|].
    cbn [filter list_filter]. rewrite decide_True.
    + f_equal. exact IH.
    + rewrite bool_decide_eq_false_2; [exact I | exact Hrow].
  - constructor.
    + split; [destruct row0; [congruence | discriminate]|].
      apply Forall_map. eapply Forall_impl; [exact Hshort|]. apply short_within_limit.
    + apply Forall_map. eapply Forall_impl; [exact Hrows|].
      intros row [Hrow Hs]. simpl. split.
      * destruct row; [congruence | discriminate].
      * apply Forall_map. eapply Forall_impl; [exact Hs|]. apply short_within_limit.
Qed.
End HeaderlessFacts.

Lemma length_cells (fmt : string) (r : record) : length (cells fmt r) = length (keys r).
Proof. unfold cells, keys. rewrite !length_map. reflexivity. Qed.

(** X12: when [dump] writes no header (the option [header] is off, or the
    syncer has written the header of this table before) into a file that
    is empty once opened, [load] takes the first record for the header:
    the texts of its cells become the column names and the record itself
    is not returned. *)
Theorem csv_load_without_header (self : CSV.CSV) (w w' : World) (name : string)
  (first : record) (rest : list record) :
  constructed self ->
  distinct_specials self ->
  header_due self name = false ->
  same_columns (first :: rest) ->
  cells_short (CSV.date_time_format self) (first :: rest) ->
  Path.open w (CSV.path_of self name) (open_mode self) = Ok w' ->
  Path.read w' (CSV.path_of self name) = [] ->
  let fmt := CSV.date_time_format self in
  exists w1,
    CSV.dump self w name (first :: rest) = (self, w1, Ok tt)
    /\ CSV.load self w1 name
       = Ok (PyList (map (fun r => Csv.row_dict (cells fmt first) (cells fmt r)) rest))
    /\ (NoDup (cells fmt first) ->
        CSV.load self w1 name
        = Ok (PyList (map (fun r => PyDict (zip (map KStr (cells fmt first))
                                                (map PyStr (cells fmt r)))) rest))).
Proof.
  intros Hc Hd Hdue Hcols Hshort Ho Hempty fmt.
  destruct (separable_of_syncer self Hc Hd) as (dialect & Hnew & Hq & Hsep).
  destruct (dump_succeeds self w w' name first rest dialect Hc Hnew Hq
              (same_columns_homogeneous _ Hcols) Ho) as (hl & Hhl & Hdump).
  rewrite Hdue in Hdump.
  set (p := CSV.path_of self name) in *.
  eexists. split; [exact Hdump|].
  match goal with |- context [CSV.load self ?x name] => set (w1 := x) end.
  assert (files w1 !! p
          = Some (flat_map (encoded_row dialect)
                    (map (map list_ascii_of_string)
                         (cells fmt first :: map (cells fmt) rest)))) as Hfile.
  { subst w1. rewrite files_write, Hempty. cbn [app]. f_equal.
    rewrite (rows_text_separable dialect Hsep self first rest Hcols).
    f_equal. change (cells fmt first :: map (cells fmt) rest)
      with (map (cells fmt) (first :: rest)).
    rewrite map_map. apply map_ext. intros r. unfold cells. rewrite map_map. reflexivity. }
  destruct (open_is_dir w p (open_mode self) w' p Ho) as [Hdir' Hdir].
  assert (Path.is_dir w1 p = false) as Hd1
    by (subst w1; change (Path.is_dir w' p = false); congruence).
  assert (Path.exists_ w1 p = true) as Hex.
  { unfold Path.exists_, Path.is_file. rewrite Hfile.
    rewrite bool_decide_eq_true_2 by eauto. reflexivity. }
  destruct Hcols as (Hne & Hnd & Hsame).
  assert (forall r, r ∈ first :: rest -> keys r = keys first) as Hkeys.
  { intros r Hr. apply elem_of_cons in Hr as [-> | Hr]; [reflexivity|].
    rewrite Forall_forall in Hsame. apply Hsame. exact Hr. }
  assert (CSV.load self w1 name
          = Ok (PyList (map (fun r => Csv.row_dict (cells fmt first) (cells fmt r)) rest)))
    as Hload.
  { unfold CSV.load. fold p. rewrite Hex. cbn [negb]. unfold Path.open. rewrite Hd1, Hfile.
    cbn [mbind result_mbind result_bind]. rewrite Hnew.
    cbn [mbind result_mbind result_bind].
    unfold Path.read. rewrite Hfile. cbn [default from_option id].
    rewrite (DictReader_first_row dialect Hsep).
    - cbn [mbind result_mbind result_bind]. rewrite map_map. reflexivity.
    - intros Hnil. apply Hne. apply length_zero_iff_nil.
      rewrite <- length_cells with (fmt := fmt). rewrite Hnil. reflexivity.
    - unfold cells_short in Hshort. apply Forall_cons in Hshort as [Hf _].
      unfold cells. apply Forall_map. eapply Forall_impl; [exact Hf|].
      intros kv [_ Hv]. exact Hv.
    - apply Forall_map. apply Forall_forall. intros r Hr. simpl. split.
      + intros Hnil. apply Hne. apply length_zero_iff_nil.
        rewrite <- (Hkeys r) by (apply elem_of_cons; right; exact Hr).
        rewrite <- length_cells with (fmt := fmt). rewrite Hnil. reflexivity.
      + unfold cells_short in Hshort. rewrite Forall_forall in Hshort.
        unfold cells. apply Forall_map.
        eapply Forall_impl; [apply (Hshort r); apply elem_of_cons; right; exact Hr|].
        intros kv [_ Hv]. exact Hv. }
  split; [exact Hload|].
  intros Hdistinct. rewrite Hload. f_equal. f_equal.
  apply map_ext_in. intros r Hr. apply row_dict_same_length; [exact Hdistinct|].
  rewrite !length_cells. f_equal. apply Hkeys. apply elem_of_cons. right.
  apply list_elem_of_In. exact Hr.
Qed.

Lemma csv_load_without_header_witness :
  exists w1,
    CSV.dump example_syncer_no_header example_world "t"
      [[("a", VText "x"); ("b", VInt 1)]; [("a", VText "y"); ("b", VInt 2)]]
    = (example_syncer_no_header, w1, Ok tt)
    /\ CSV.load example_syncer_no_header w1 "t"
       = Ok (PyList [PyDict [(KStr "x", PyStr "y"); (KStr "1", PyStr "2")]]).
Proof.
  destruct (csv_load_without_header example_syncer_no_header example_world
              (Path.set_file example_world "out/t.csv" []) "t"
              [("a", VText "x"); ("b", VInt 1)] [[("a", VText "y"); ("b", VInt 2)]])
    as (w1 & Hdump & Hload & _).
  - right. reflexivity.
  - repeat split; discriminate.
  - reflexivity.
  - split; [discriminate|]. split.
    + apply (bool_decide_unpack _). vm_compute. exact I.
    + repeat constructor.
  - repeat constructor; cbv; discriminate.
  - reflexivity.
  - reflexivity.
  - exists w1. split; [exact Hdump | exact Hload].
Defined.

(** ** The columns of a CSV file *)

Lemma record_get_format (r : record) (fmt key : string) :
  record_get (SyncUtils.format_datetime_values r fmt) key (VText "")
  = SyncUtils.format_datetime_value fmt (record_get r key (VText "")).
Proof.
  induction r as [|[k v] r IH]; [reflexivity|].
  cbn [SyncUtils.format_datetime_values map record_get fst snd].
  destruct (String.eqb k key); [reflexivity | exact IH].
Qed.

Lemma zip_map_same {A B C : Type} (f : A -> B) (g : A -> C) (l : list A) :
  zip (map f l) (map g l) = map (fun x => (f x, g x)) l.
Proof. induction l as [|x l IH]; [reflexivity | simpl; f_equal; exact IH]. Qed.

Section ColumnsFacts.
Variable d : Csv.Dialect.
Hypothesis Hsep : separable d.

(** The rows that [dump] writes, column by column of the first record. *)
Lemma rows_text_homogeneous (self : CSV.CSV) (first : record) (rest : list record) :
  homogeneous (first :: rest) ->
  rows_text d self (first :: rest)
  = flat_map (encoded_row d)
      (map (fun r => map (fun column =>
                            list_ascii_of_string
                              (column_text (CSV.date_time_format self) r column))
                         (keys first))
           (first :: rest)).
Proof.
  intros Hh. unfold rows_text. rewrite (writerows_separable d Hsep).
  - cbn [fst]. rewrite !flat_map_concat_map, !map_map. f_equal.
    apply map_ext. intros r. f_equal. rewrite map_map. apply map_ext. intros key.
    rewrite record_get_format. apply field_text_formatted.
  - apply Forall_map. constructor.
    + simpl. rewrite wrong_fields_format. apply wrong_fields_self.
    + eapply Forall_impl; [exact Hh|]. intros r Hr. simpl.
      rewrite wrong_fields_format. exact Hr.
Qed.
End ColumnsFacts.

(** X13: the columns of the file and their order are those of the first
    record of the batch.  A later record may have its keys in any order
    and may lack some: after [dump] into an empty or new file, [load]
    returns every record under the columns of the first, with the text of
    its value in each column and the empty text where it has none. *)
Theorem csv_columns_of_first_record (self : CSV.CSV) (w w' : World) (name : string)
  (first : record) (rest : list record) :
  constructed self ->
  distinct_specials self ->
  CSV.header self = true ->
  CSV._written_header self !! name = None ->
  keys first <> [] ->
  NoDup (keys first) ->
  homogeneous (first :: rest) ->
  Forall short (keys first) ->
  Forall (fun r => Forall (fun column =>
                             short (column_text (CSV.date_time_format self) r column))
                          (keys first))
         (first :: rest) ->
  Path.open w (CSV.path_of self name) (open_mode self) = Ok w' ->
  Path.read w' (CSV.path_of self name) = [] ->
  exists self1 w1,
    CSV.dump self w name (first :: rest) = (self1, w1, Ok tt)
    /\ CSV.load self1 w1 name
       = Ok (PyList (map (read_back (CSV.date_time_format self) (keys first))
                         (first :: rest))).
Proof.
  intros Hc Hd Hh Hn Hne Hnd Hhom Hks Hshort Ho Hempty.
  destruct (separable_of_syncer self Hc Hd) as (dialect & Hnew & Hq & Hsep).
  destruct (dump_succeeds self w w' name first rest dialect Hc Hnew Hq Hhom Ho)
    as (hl & Hhl & Hdump).
  rewrite (header_due_fresh self name Hh Hn) in Hdump.
  rewrite (writeheader_separable dialect Hsep) in Hhl. injection Hhl as <-.
  set (p := CSV.path_of self name) in *.
  set (fmt := CSV.date_time_format self) in *.
  eexists. eexists. split; [exact Hdump|].
  unfold CSV.load. change (CSV.path_of (CSV.mark_header self name) name) with p.
  match goal with |- context [Path.exists_ ?x p] => set (w1 := x) end.
  assert (files w1 !! p
          = Some (flat_map (encoded_row dialect)
                    (map list_ascii_of_string (keys first)
                     :: map (map list_ascii_of_string)
                          (map (fun r => map (column_text fmt r) (keys first))
                               (first :: rest))))) as Hfile.
  { subst w1. rewrite files_write, read_write, Hempty. cbn [app]. f_equal.
    rewrite (rows_text_homogeneous dialect Hsep self first rest Hhom).
    cbn [flat_map]. f_equal. f_equal. rewrite map_map. apply map_ext.
    intros r. rewrite map_map. reflexivity. }
  destruct (open_is_dir w p (open_mode self) w' p Ho) as [Hdir' Hdir].
  assert (Path.is_dir w1 p = false) as Hd1
    by (subst w1; change (Path.is_dir w' p = false); congruence).
  assert (Path.exists_ w1 p = true) as Hex.
  { unfold Path.exists_, Path.is_file. rewrite Hfile.
    rewrite bool_decide_eq_true_2 by eauto. reflexivity. }
  rewrite Hex. cbn [negb]. unfold Path.open. rewrite Hd1, Hfile.
  cbn [mbind result_mbind result_bind].
  change (CSV.dialect_and_format_parameters (CSV.mark_header self name))
    with (CSV.dialect_and_format_parameters self).
  rewrite Hnew. cbn [mbind result_mbind result_bind].
  unfold Path.read. rewrite Hfile. cbn [default from_option id].
  rewrite (DictReader_encoded dialect Hsep).
  - cbn [mbind result_mbind result_bind]. f_equal. f_equal.
    rewrite !map_map. apply map_ext. intros r. unfold read_back. f_equal.
    rewrite (map_map (column_text fmt r) PyStr).
    apply (zip_map_same KStr (fun column => PyStr (column_text fmt r column))).
  - exact Hne.
  - exact Hnd.
  - exact Hks.
  - apply Forall_map. eapply Forall_impl; [exact Hshort|]. intros r Hr. simpl. split.
    + rewrite length_map. reflexivity.
    + apply Forall_map. exact Hr.
Qed.

Lemma csv_columns_of_first_record_witness :
  exists self1 w1,
    CSV.dump (example_syncer CSV.OVERWRITE) example_world "t" example_ragged_rows
    = (self1, w1, Ok tt)
    /\ CSV.load self1 w1 "t"
       = Ok (PyList [PyDict [(KStr "id", PyStr "1"); (KStr "name", PyStr "a");
                             (KStr "ok", PyStr "True")];
                     PyDict [(KStr "id", PyStr "2"); (KStr "name", PyStr "");
                             (KStr "ok", PyStr "False")]]).
Proof.
  apply (csv_columns_of_first_record (example_syncer CSV.OVERWRITE) example_world
           (Path.set_file example_world "out/t.csv" []) "t"
           [("id", VInt 1); ("name", VText "a"); ("ok", VBool true)]
           [[("ok", VBool false); ("id", VInt 2)]]).
  - right. reflexivity.
  - repeat split; discriminate.
  - reflexivity.
  - reflexivity.
  - discriminate.
  - apply (bool_decide_unpack _). vm_compute. exact I.
  - repeat constructor.
  - repeat constructor; cbv; discriminate.
  - repeat constructor; cbv; discriminate.
  - reflexivity.
  - reflexivity.
Defined.

(** ** A [dump] that fails half-way *)

Lemma writerows_app (dialect : Csv.Dialect) (fieldnames : list string)
  (rows rows' : list record) :
  snd (Csv.writerows dialect fieldnames rows) = None ->
  Csv.writerows dialect fieldnames (rows ++ rows')
  = (fst (Csv.writerows dialect fieldnames rows)
     ++ fst (Csv.writerows dialect fieldnames rows'),
     snd (Csv.writerows dialect fieldnames rows')).
Proof.
  induction rows as [|r rows IH]; intros Hok.
  - cbn [app Csv.writerows fst]. destruct (Csv.writerows dialect fieldnames rows'). reflexivity.
  - cbn [app Csv.writerows] in *.
    destruct (fields ← Csv._dict_to_list fieldnames r; Csv.writerow dialect fields)
      as [line|e]; [|discriminate].
    destruct (Csv.writerows dialect fieldnames rows) as [text err] eqn:E.
    cbn [fst snd] in *. rewrite (IH Hok).
    cbn [fst snd]. rewrite <- app_assoc. reflexivity.
Qed.

Lemma writerows_wrong_fields (dialect : Csv.Dialect) (fieldnames : list string)
  (bad : record) (rows : list record) :
  Csv.wrong_fields fieldnames bad <> [] ->
  exists msg, Csv.writerows dialect fieldnames (bad :: rows) = ([], Some (ValueError msg)).
Proof.
  intros Hbad. cbn [Csv.writerows]. unfold Csv._dict_to_list.
  destruct (Csv.wrong_fields fieldnames bad) as [|k ks]; [congruence|].
  eexists. reflexivity.
Qed.

(** X14: when a record of the batch has a key that the first record does
    not have, [dump] raises [ValueError], and the file keeps what was
    written before the record was reached: what opening left of the old
    content (nothing in [OVERWRITE] mode), the header line if it was due,
    and the rows before the record; the header counts as written from
    then on. *)
Theorem csv_dump_stops_at_surplus_key (self : CSV.CSV) (w w' : World) (name : string)
  (first : record) (good : list record) (bad : record) (rest : list record) :
  constructed self ->
  single_characters self ->
  homogeneous (first :: good) ->
  Csv.wrong_fields (keys first) bad <> [] ->
  Path.open w (CSV.path_of self name) (open_mode self) = Ok w' ->
  exists dialect header_line self1 w1 msg,
    Csv.dialect_new (CSV.dialect_and_format_parameters self) = Ok dialect
    /\ Csv.writeheader dialect (keys first) = Ok header_line
    /\ CSV.dump self w name (first :: good ++ bad :: rest)
       = (self1, w1, Raise (ValueError msg))
    /\ files w1 !! CSV.path_of self name
       = Some (Path.read w' (CSV.path_of self name)
               ++ (if header_due self name then header_line else [])
               ++ rows_text dialect self (first :: good))
    /\ (CSV.header self = true -> header_due self1 name = false).
Proof.
  intros Hc Hs Hh Hbad Ho.
  destruct (dialect_of_syncer self Hs) as (dialect & Hd & _ & _ & _ & _ & _ & Hq).
  assert (Csv.quoting dialect <> Csv.QUOTE_NONE) as Hqn.
  { rewrite Hq. destruct Hc as [-> | ->]; discriminate. }
  destruct (writerow_ok dialect (map VText (keys first)) Hqn) as [header_line Hhl].
  set (fmt := CSV.date_time_format self).
  set (p := CSV.path_of self name) in *.
  assert (exists msg,
            Csv.writerows dialect (keys first)
              (map (fun r => SyncUtils.format_datetime_values r fmt)
                   (first :: good ++ bad :: rest))
            = (rows_text dialect self (first :: good), Some (ValueError msg)))
    as [msg Hrows].
  { destruct (writerows_wrong_fields dialect (keys first)
                (SyncUtils.format_datetime_values bad fmt)
                (map (fun r => SyncUtils.format_datetime_values r fmt) rest))
      as [msg Hmsg]; [rewrite wrong_fields_format; exact Hbad|].
    exists msg.
    change (first :: good ++ bad :: rest) with ((first :: good) ++ bad :: rest).
    rewrite map_app. rewrite writerows_app.
    - cbn [map]. rewrite Hmsg. cbn [fst snd]. rewrite app_nil_r. reflexivity.
    - apply writerows_ok; [exact Hqn|]. apply Forall_map. constructor.
      + simpl. rewrite wrong_fields_format. apply wrong_fields_self.
      + eapply Forall_impl; [exact Hh|]. intros r Hr. simpl.
        rewrite wrong_fields_format. exact Hr. }
  exists dialect, header_line.
  unfold CSV.dump. fold (open_mode self). fold p. rewrite Ho, Hd.
  fold (header_due self name). fold fmt. unfold Csv.writeheader in *. rewrite Hhl.
  rewrite Hrows.
  destruct (header_due self name) eqn:Hdue.
  - eexists. eexists. exists msg.
    split; [reflexivity|]. split; [reflexivity|]. split; [reflexivity|].
    split.
    + rewrite files_write, read_write. rewrite <- app_assoc. reflexivity.
    + intros _. apply header_due_marked.
  - eexists. eexists. exists msg.
    split; [reflexivity|]. split; [reflexivity|]. split; [reflexivity|].
    split.
    + rewrite files_write. reflexivity.
    + intros _. exact Hdue.
Qed.

Lemma csv_dump_stops_at_surplus_key_witness :
  exists dialect header_line self1 w1 msg,
    Csv.dialect_new (CSV.dialect_and_format_parameters (example_syncer CSV.OVERWRITE))
    = Ok dialect
    /\ Csv.writeheader dialect ["a"] = Ok header_line
    /\ CSV.dump (example_syncer CSV.OVERWRITE) example_csv_world "t"
         ([("a", VInt 1)] :: [[("a", VInt 2)]] ++ [("a", VInt 3); ("b", VInt 4)] :: [])
       = (self1, w1, Raise (ValueError msg))
    /\ files w1 !! "out/t.csv"
       = Some (Path.read (Path.set_file example_csv_world "out/t.csv" []) "out/t.csv"
               ++ (if header_due (example_syncer CSV.OVERWRITE) "t" then header_line else [])
               ++ rows_text dialect (example_syncer CSV.OVERWRITE)
                    [[("a", VInt 1)]; [("a", VInt 2)]])
    /\ (true = true -> header_due self1 "t" = false).
Proof.
  apply (csv_dump_stops_at_surplus_key (example_syncer CSV.OVERWRITE) example_csv_world
           (Path.set_file example_csv_world "out/t.csv" []) "t"
           [("a", VInt 1)] [[("a", VInt 2)]] [("a", VInt 3); ("b", VInt 4)] []).
  - right. reflexivity.
  - split; reflexivity.
  - repeat constructor.
  - discriminate.
  - reflexivity.
Defined.

(** ** What [dump] leaves alone *)

Lemma open_frame w p m w' :
  Path.open w p m = Ok w' ->
  dirs w' = dirs w /\ forall q, q <> p -> files w' !! q = files w !! q.
Proof.
  unfold Path.open. destruct (Path.is_dir w p); [discriminate|].
  destruct m, (files w !! p); try destruct (Path.is_dir w (Path.parent p));
    intros [= <-]; (split; [reflexivity|]); intros q Hq; try reflexivity;
    cbn [files Path.set_file]; apply lookup_insert_ne; congruence.
Qed.

Lemma write_frame w p text :
  dirs (Path.write w p text) = dirs w
  /\ forall q, q <> p -> files (Path.write w p text) !! q = files w !! q.
Proof.
  split; [reflexivity|]. intros q Hq. cbn [files Path.write Path.set_file].
  apply lookup_insert_ne. congruence.
Qed.

(** X15: whatever the batch and however the call ends, [dump] of either
    syncer creates no directory and neither creates, changes nor removes a
    file other than the one of the table. *)
Theorem dump_touches_one_file (csv : CSV.CSV) (json : JSON.JSON) (w : World)
  (name : string) (data : TableRows) :
  (dirs (CSV.dump csv w name data).1.2 = dirs w
   /\ forall q, q <> CSV.path_of csv name ->
        files (CSV.dump csv w name data).1.2 !! q = files w !! q)
  /\ (dirs (JSON.dump json w name data).1 = dirs w
      /\ forall q, q <> JSON.make_filename json name ->
           files (JSON.dump json w name data).1 !! q = files w !! q).
Proof.
  split.
  - unfold CSV.dump. destruct data as [|first rest]; [split; reflexivity|].
    destruct (Path.open w (CSV.path_of csv name) _) as [w'|e] eqn:Ho; [|split; reflexivity].
    destruct (open_frame _ _ _ _ Ho) as [Hd Hf].
    destruct (Csv.dialect_new _) as [dialect|e]; [|split; [exact Hd | exact Hf]].
    destruct (Csv.writerows dialect _ _) as [text err].
    destruct (CSV.header csv && _).
    + destruct (Csv.writeheader dialect _) as [line|e]; [|split; [exact Hd | exact Hf]].
      split; [exact Hd|]. intros q Hq. cbn [fst snd].
      rewrite (proj2 (write_frame _ _ _) q Hq), (proj2 (write_frame _ _ _) q Hq).
      apply Hf. exact Hq.
    + split; [exact Hd|]. intros q Hq. cbn [fst snd].
      rewrite (proj2 (write_frame _ _ _) q Hq). apply Hf. exact Hq.
  - unfold JSON.dump. destruct data as [|first rest]; [split; reflexivity|].
    destruct (Json.dumps _ _) as [text|e]; [|split; reflexivity].
    destruct (Path.open w (JSON.make_filename json name) _) as [w'|e] eqn:Ho;
      [|split; reflexivity].
    destruct (open_frame _ _ _ _ Ho) as [Hd Hf].
    split; [exact Hd|]. intros q Hq. cbn [fst snd].
    rewrite (proj2 (write_frame _ _ _) q Hq). apply Hf. exact Hq.
Qed.

(** ** The directory of a syncer *)

Lemma list_ascii_of_string_app (s t : string) :
  list_ascii_of_string (s +:+ t) = list_ascii_of_string s ++ list_ascii_of_string t.
Proof. induction s as [|c s IH]; [reflexivity | simpl; rewrite IH; reflexivity]. Qed.

Lemma before_last_sep_none (n : list ascii) :
  "/"%char ∉ n -> Path.before_last_sep n = None.
Proof.
  induction n as [|c n IH]; intros Hn; [reflexivity|].
  cbn [Path.before_last_sep]. rewrite IH by (intros H; apply Hn; right; exact H).
  destruct (Ascii.eqb_spec c "/") as [->|_]; [|reflexivity].
  exfalso. apply Hn. left.
Qed.

Lemma before_last_sep_app (d n : list ascii) :
  "/"%char ∉ n -> Path.before_last_sep (d ++ "/"%char :: n) = Some d.
Proof.
  intros Hn. induction d as [|c d IH].
  - cbn [app Path.before_last_sep]. rewrite before_last_sep_none by exact Hn. reflexivity.
  - cbn [app Path.before_last_sep]. rewrite IH. reflexivity.
Qed.

(** The directory above a file of the syncer is the directory of the
    syncer. *)
Lemma parent_joinpath (directory name : string) :
  directory <> "" -> plain_name name ->
  Path.parent (Path.joinpath directory name) = directory.
Proof.
  intros Hd Hn. unfold Path.parent, Path.joinpath.
  rewrite !list_ascii_of_string_app. cbn [list_ascii_of_string app].
  rewrite before_last_sep_app by exact Hn.
  destruct (list_ascii_of_string directory) as [|c l] eqn:E.
  - destruct directory; [congruence | discriminate].
  - rewrite <- E. apply string_of_list_ascii_inv.
Qed.

Lemma plain_name_app (name ext : string) :
  plain_name name -> plain_name ext -> plain_name (name +:+ ext).
Proof.
  unfold plain_name. rewrite list_ascii_of_string_app. intros H1 H2 H.
  apply elem_of_app in H as [H|H]; [exact (H1 H) | exact (H2 H)].
Qed.

Lemma plain_csv : plain_name ".csv".
Proof. unfold plain_name. apply (bool_decide_unpack _). vm_compute. exact I. Qed.

Lemma plain_json : plain_name ".json".
Proof. unfold plain_name. apply (bool_decide_unpack _). vm_compute. exact I. Qed.

(** X16: the CSV syncer accepts a directory that does not exist yet (a new
    path in an existing directory) and does not make it: a [dump] into it
    raises [FileNotFoundError] and leaves the world as it was. *)
Theorem csv_new_does_not_make_directory (w : World) (o : CSV.options) (name : string)
  (first : record) (rest : list record) :
  Path.exists_ w (CSV.o_directory o) = false ->
  Path.is_dir w (Path.parent (CSV.o_directory o)) = true ->
  (String.length (CSV.o_delimiter o) <= 1)%nat ->
  (String.length (CSV.o_escape_character o) <= 1)%nat ->
  CSV.o_directory o <> "" ->
  plain_name name ->
  never_written w (Path.joinpath (CSV.o_directory o) (name +:+ ".csv")) ->
  exists self,
    CSV.new w o = Ok self
    /\ CSV.dump self w name (first :: rest)
       = (self, w, Raise (FileNotFoundError (CSV.path_of self name))).
Proof.
  intros Hex Hpar Hdl Hesc Hne Hname Hnw.
  unfold CSV.new, CSV.directory_ok.
  rewrite Hex, Hpar. cbn [negb andb orb].
  assert (Path.is_dir w (CSV.o_directory o) = false) as Hnd.
  { unfold Path.exists_ in Hex. apply orb_false_iff in Hex as [_ Hex]. exact Hex. }
  rewrite Hnd. cbn [orb].
  rewrite !validator_accepts_short by assumption. cbn [CSV.field_errors app].
  eexists. split; [reflexivity|].
  unfold CSV.dump, CSV.path_of. cbn [CSV.directory CSV.save_strategy].
  set (p := Path.joinpath (CSV.o_directory o) (name +:+ ".csv")) in *.
  destruct Hnw as [Hfile Hdir].
  assert (Path.open w p (match CSV.o_save_strategy o with
                         | CSV.APPEND => Path.mode_a
                         | CSV.OVERWRITE => Path.mode_w
                         end) = Raise (FileNotFoundError p)) as ->; [|reflexivity].
  unfold Path.open.
  rewrite (bool_decide_eq_false_2 _ Hdir : Path.is_dir w p = false).
  rewrite Hfile.
  assert (Path.parent p = CSV.o_directory o) as ->.
  { apply parent_joinpath; [exact Hne|]. apply plain_name_app; [exact Hname | exact plain_csv]. }
  rewrite Hnd. destruct (CSV.o_save_strategy o); reflexivity.
Qed.

Lemma csv_new_does_not_make_directory_witness :
  exists self,
    CSV.new example_world_no_directory (CSV.default_options "out" "%Y-%m-%d %H:%M:%S")
    = Ok self
    /\ CSV.dump self example_world_no_directory "t" example_rows
       = (self, example_world_no_directory, Raise (FileNotFoundError (CSV.path_of self "t"))).
Proof.
  apply (csv_new_does_not_make_directory example_world_no_directory
           (CSV.default_options "out" "%Y-%m-%d %H:%M:%S") "t").
  - reflexivity.
  - reflexivity.
  - simpl. lia.
  - simpl. lia.
  - discriminate.
  - unfold plain_name. apply (bool_decide_unpack _). vm_compute. exact I.
  - split; [reflexivity|]. apply (bool_decide_unpack _). vm_compute. exact I.
Defined.

Lemma mkdir_one (w : World) (p : string) :
  Path.exists_ w p = false -> Path.is_dir w (Path.parent p) = true ->
  Path.mkdir w p = Ok (Path.add_dir w p).
Proof.
  intros Hex Hpar. unfold Path.exists_ in Hex. apply orb_false_iff in Hex as [Hf Hd].
  unfold Path.mkdir. destruct (String.length p); cbn [Path.mkdir_parents];
    rewrite Hd, Hf, Hpar; reflexivity.
Qed.

(** X17: the JSON syncer makes the directory when it is constructed on a
    path that does not exist yet (a new path in an existing directory),
    leaving an existing directory and every file as they are, so that a
    first [dump] into the new directory succeeds and [load] returns the
    batch. *)
Theorem json_new_makes_directory (w : World) (directory : string)
  (encoding : option JSON.encoding_literal) (name : string) (data : TableRows) :
  let self := {| JSON.directory := directory; JSON.encoding := encoding |} in
  (Path.is_dir w directory = true ->
   Path.is_file w directory = false ->
   JSON.new w directory encoding = (w, Ok self))
  /\ (Path.exists_ w directory = false ->
      Path.is_dir w (Path.parent directory) = true ->
      exists w0,
        JSON.new w directory encoding = (w0, Ok self)
        /\ dirs w0 = {[directory]} ∪ dirs w
        /\ files w0 = files w
        /\ (directory <> "" ->
            plain_name name ->
            never_written w (JSON.make_filename self name) ->
            data <> [] ->
            no_datetime data ->
            distinct_keys data ->
            exists w1,
              JSON.dump self w0 name data = (w1, Ok tt)
              /\ JSON.load self w1 name = Ok (py_of_rows data))).
Proof.
  intros self. split.
  - intros Hd Hf. unfold JSON.new, CSV.directory_ok, JSON._ensure_directory_exists.
    rewrite Hd. cbn [orb]. unfold Path.exists_. rewrite Hf, Hd. reflexivity.
  - intros Hex Hpar.
    assert (Path.is_dir w directory = false /\ Path.is_file w directory = false) as [Hd Hf].
    { unfold Path.exists_ in Hex. apply orb_false_iff in Hex as [Hf Hd]. split; assumption. }
    set (w' := warning w ("The directory '" +:+ Path.resolve directory
                          +:+ "' does not yet exist, creating it..")).
    exists (Path.add_dir w' directory).
    split; [|split; [reflexivity|split; [reflexivity|]]].
    + unfold JSON.new, CSV.directory_ok, JSON._ensure_directory_exists.
      rewrite Hex, Hpar, Hd, Hf. cbn [negb andb orb]. fold w'.
      rewrite (mkdir_one w' directory Hex Hpar). reflexivity.
    + intros Hne Hname Hnw Hdata Hnd Hdk.
      apply (json_round_trip self (Path.add_dir w' directory)
               (Path.set_file (Path.add_dir w' directory) (JSON.make_filename self name) [])
               name data Hdata Hnd Hdk).
      unfold Path.open. set (p := JSON.make_filename self name) in *.
      destruct Hnw as [Hfile Hdir].
      assert (Path.parent p = directory) as Hp.
      { apply parent_joinpath; [exact Hne|].
        apply plain_name_app; [exact Hname | exact plain_json]. }
      assert (Path.is_dir (Path.add_dir w' directory) p = false) as ->.
      { apply bool_decide_eq_false_2. cbn [dirs Path.add_dir w' warning].
        intros Hin. apply elem_of_union in Hin as [Hin|Hin]; [|exact (Hdir Hin)].
        apply elem_of_singleton in Hin. rewrite Hin in Hp. rewrite Hp in Hpar. congruence. }
      rewrite Hp.
      assert (Path.is_dir (Path.add_dir w' directory) directory = true) as ->.
      { apply bool_decide_eq_true_2. cbn [dirs Path.add_dir]. set_solver. }
      reflexivity.
Qed.

Lemma json_new_makes_directory_witness :
  exists w0 w1,
    JSON.new example_world_no_directory "out" None = (w0, Ok example_json)
    /\ dirs w0 = {["out"]} ∪ dirs example_world_no_directory
    /\ JSON.dump example_json w0 "t" example_rows = (w1, Ok tt)
    /\ JSON.load example_json w1 "t" = Ok (py_of_rows example_rows).
Proof.
  destruct (json_new_makes_directory example_world_no_directory "out" None "t" example_rows)
    as [_ Hnew].
  destruct Hnew as (w0 & Hnew & Hdirs & _ & Hdump); [reflexivity | reflexivity |].
  destruct Hdump as (w1 & Hdump & Hload).
  - discriminate.
  - unfold plain_name. apply (bool_decide_unpack _). vm_compute. exact I.
  - split; [reflexivity|]. apply (bool_decide_unpack _). vm_compute. exact I.
  - discriminate.
  - repeat constructor.
  - unfold distinct_keys. apply (bool_decide_unpack _). vm_compute. exact I.
  - exists w0, w1. repeat split; assumption.
Defined.

(** ** What the JSON syncer writes *)

Lemma json_dump_writes (self : JSON.JSON) (w w' : World) (name : string)
  (data : TableRows) (text : list ascii) :
  data <> [] ->
  Json.dumps data (ensure_ascii_of self) = Ok text ->
  Path.open w (JSON.make_filename self name) Path.mode_w = Ok w' ->
  JSON.dump self w name data = (Path.write w' (JSON.make_filename self name) text, Ok tt)
  /\ files (Path.write w' (JSON.make_filename self name) text) !! JSON.make_filename self name
     = Some text.
Proof.
  intros Hne Ht Ho. unfold JSON.dump. destruct data as [|r data]; [congruence|].
  fold (ensure_ascii_of self). rewrite Ht, Ho. split; [reflexivity|].
  rewrite files_write, (open_write_read _ _ _ Ho). reflexivity.
Qed.

(** X18: the JSON syncer replaces the file at every [dump]: after two
    calls on the same table the file is the text of the second batch and
    [load] returns the second batch. *)
Theorem json_dump_replaces_file (self : JSON.JSON) (w w' : World) (name : string)
  (data1 data2 : TableRows) :
  data1 <> [] -> data2 <> [] ->
  no_datetime data1 -> no_datetime data2 ->
  distinct_keys data2 ->
  Path.open w (JSON.make_filename self name) Path.mode_w = Ok w' ->
  exists w1 w2 text2,
    JSON.dump self w name data1 = (w1, Ok tt)
    /\ JSON.dump self w1 name data2 = (w2, Ok tt)
    /\ Json.dumps data2 (ensure_ascii_of self) = Ok text2
    /\ files w2 !! JSON.make_filename self name = Some text2
    /\ JSON.load self w2 name = Ok (py_of_rows data2).
Proof.
  intros Hne1 Hne2 Hnd1 Hnd2 Hdk Ho.
  set (p := JSON.make_filename self name) in *.
  destruct (dumps_ok (ensure_ascii_of self) data1 Hnd1) as (text1 & Ht1 & _).
  destruct (dumps_ok (ensure_ascii_of self) data2 Hnd2) as (text2 & Ht2 & _).
  destruct (json_dump_writes self w w' name data1 text1 Hne1 Ht1 Ho) as [D1 _].
  fold p in D1.
  destruct (open_is_dir w p Path.mode_w w' p Ho) as [Hdir' Hdir].
  assert (Path.open (Path.write w' p text1) p Path.mode_w
          = Ok (Path.set_file (Path.write w' p text1) p [])) as Ho1.
  { apply open_write_again; [congruence|].
    rewrite (proj1 (open_is_dir w p Path.mode_w w' (Path.parent p) Ho)).
    apply (open_write_parent w p w' Ho). }
  destruct (json_dump_writes self _ _ name data2 text2 Hne2 Ht2 Ho1) as [D2 F2].
  fold p in D2, F2.
  destruct (json_round_trip self _ _ name data2 Hne2 Hnd2 Hdk Ho1) as (w2 & D2' & L2).
  fold p in D2'. rewrite D2 in D2'. injection D2' as <-.
  eexists. eexists. exists text2.
  split; [exact D1|]. split; [exact D2|]. split; [exact Ht2|]. split; [exact F2 | exact L2].
Qed.

Lemma json_dump_replaces_file_witness :
  exists w1 w2 text2,
    JSON.dump example_json example_world "t" example_rows = (w1, Ok tt)
    /\ JSON.dump example_json w1 "t" [[("a", VInt 1)]] = (w2, Ok tt)
    /\ Json.dumps [[("a", VInt 1)]] (ensure_ascii_of example_json) = Ok text2
    /\ files w2 !! "out/t.json" = Some text2
    /\ JSON.load example_json w2 "t" = Ok (py_of_rows [[("a", VInt 1)]]).
Proof.
  apply (json_dump_replaces_file example_json example_world
           (Path.set_file example_world "out/t.json" []) "t" example_rows [[("a", VInt 1)]]).
  - discriminate.
  - discriminate.
  - repeat constructor.
  - repeat constructor.
  - unfold distinct_keys. apply (bool_decide_unpack _). vm_compute. exact I.
  - reflexivity.
Defined.

Lemma encode_items_datetime (b : bool) (r : record) :
  Exists (fun kv => exists d, snd kv = VDatetime d) r ->
  Json.encode_items b r
  = Raise (TypeError "Object of type datetime is not JSON serializable").
Proof.
  induction r as [|[k v] r IH]; intros Hex; [inversion Hex|].
  cbn [Json.encode_items].
  destruct v as [s|z|[|]|d|]; try reflexivity;
    cbn [Json.encode_scalar mbind result_mbind result_bind];
    (rewrite IH; [reflexivity|]);
    (apply Exists_cons in Hex as [[d Hd]|Hex]; [discriminate Hd | exact Hex]).
Qed.

Lemma encode_records_datetime (b : bool) (data : TableRows) :
  has_datetime data ->
  Json.encode_records b data
  = Raise (TypeError "Object of type datetime is not JSON serializable").
Proof.
  induction data as [|r data IH]; intros Hex; [inversion Hex|].
  cbn [Json.encode_records]. unfold Json.encode_record.
  destruct (Json.encode_items b r) as [items|e] eqn:E.
  - cbn [mbind result_mbind result_bind]. rewrite IH; [reflexivity|].
    apply Exists_cons in Hex as [Hex|Hex]; [|exact Hex].
    rewrite (encode_items_datetime b r Hex) in E. discriminate.
  - cbn [mbind result_mbind result_bind]. clear IH Hex.
    revert e E. induction r as [|[k v] r IHr]; intros e E; [discriminate|].
    cbn [Json.encode_items] in E.
    destruct v as [s|z|[|]|d|]; cbn [Json.encode_scalar mbind result_mbind result_bind] in E;
      try (injection E as <-; reflexivity);
      (destruct (Json.encode_items b r) as [items|e'];
       [discriminate | injection E as <-; apply (IHr e' eq_refl)]).
Qed.

(** X19: a batch that holds a date/time makes [dump] of the JSON syncer
    raise [TypeError] (the values are not formatted as the CSV syncer
    formats them), and the world stays as it was: the file of the table,
    if there is one, keeps its content. *)
Theorem json_dump_rejects_datetime (self : JSON.JSON) (w : World) (name : string)
  (data : TableRows) :
  has_datetime data ->
  JSON.dump self w name data
  = (w, Raise (TypeError "Object of type datetime is not JSON serializable")).
Proof.
  intros Hex. unfold JSON.dump. destruct data as [|r data]; [inversion Hex|].
  unfold Json.dumps. rewrite (encode_records_datetime _ _ Hex). reflexivity.
Qed.

Lemma json_dump_rejects_datetime_witness :
  JSON.dump example_json example_csv_world "t"
    [[("id", VInt 1); ("at", VDatetime {| dt_str := "2024-01-02 03:04:05";
                                          dt_strftime := fun _ => "2024-01-02" |})]]
  = (example_csv_world, Raise (TypeError "Object of type datetime is not JSON serializable")).
Proof.
  apply (json_dump_rejects_datetime example_json example_csv_world "t").
  left. right. left. eexists. reflexivity.
Defined.

Lemma json_char_encode_char (b : bool) (c : ascii) :
  forallb (json_char b) (Json.encode_char b c) = true.
Proof. destruct c as [[|] [|] [|] [|] [|] [|] [|] [|]], b; reflexivity. Qed.

Lemma Forall_json_char_string (b : bool) (s : string) :
  Forall (fun c => json_char b c = true) (Json.encode_basestring b s).
Proof.
  unfold Json.encode_basestring. constructor; [destruct b; reflexivity|].
  apply Forall_app. split; [|repeat constructor; destruct b; reflexivity].
  apply Forall_flat_map. apply Forall_forall. intros c _.
  apply Forall_forall. intros x Hx. apply list_elem_of_In in Hx.
  exact (proj1 (forallb_forall _ _) (json_char_encode_char b c) x Hx).
Qed.

Lemma json_char_digit (b : bool) (c : ascii) : Json.is_digit c = true -> json_char b c = true.
Proof.
  unfold Json.is_digit, json_char. intros H. apply andb_true_iff in H as [H1 H2].
  apply Nat.leb_le in H1, H2. apply andb_true_iff. split.
  - apply Nat.leb_le. lia.
  - apply orb_true_iff. right. apply Nat.leb_le. lia.
Qed.

Lemma Forall_json_char_int (b : bool) (z : Z) :
  Forall (fun c => json_char b c = true) (list_ascii_of_string (str_of_int z)).
Proof.
  assert (forall u, Forall (fun c => json_char b c = true)
                      (list_ascii_of_string (NilZero.string_of_uint u))) as Hu.
  { intros u. unfold NilZero.string_of_uint.
    destruct u; try (repeat constructor; destruct b; reflexivity);
      (eapply Forall_impl; [apply digits_of_uint | intros c; apply json_char_digit]). }
  unfold str_of_int. destruct (Z.to_int z) as [u|u]; cbn [NilZero.string_of_int].
  - apply Hu.
  - cbn [list_ascii_of_string]. constructor; [destruct b; reflexivity | apply Hu].
Qed.

Lemma Forall_json_char_scalar (b : bool) (v : scalar) (text : list ascii) :
  Json.encode_scalar b v = Ok text -> Forall (fun c => json_char b c = true) text.
Proof.
  destruct v as [s|z|[|]|d|]; cbn [Json.encode_scalar]; intros [= <-];
    try (repeat constructor; destruct b; reflexivity).
  - apply Forall_json_char_string.
  - apply Forall_json_char_int.
Qed.

Lemma Forall_join {P : ascii -> Prop} (sep : list ascii) (items : list (list ascii)) :
  Forall P sep -> Forall (Forall P) items -> Forall P (Json.join sep items).
Proof.
  intros Hsep Hitems. induction Hitems as [|item items Hitem Hitems IH]; [constructor|].
  cbn [Json.join]. destruct items as [|item' items]; [exact Hitem|].
  apply Forall_app. split; [exact Hitem|]. apply Forall_app. split; [exact Hsep | exact IH].
Qed.

Lemma Forall_json_char_items (b : bool) (r : record) (items : list (list ascii)) :
  Json.encode_items b r = Ok items ->
  Forall (Forall (fun c => json_char b c = true)) items.
Proof.
  revert items. induction r as [|[k v] r IH]; intros items; cbn [Json.encode_items].
  - intros [= <-]. constructor.
  - destruct (Json.encode_scalar b v) as [value|e] eqn:Ev; [|discriminate].
    destruct (Json.encode_items b r) as [rest|e]; [|discriminate].
    cbn [mbind result_mbind result_bind]. intros [= <-]. constructor; [|apply IH; reflexivity].
    change (Forall (fun c => json_char b c = true)
              (Json.encode_basestring b k ++ Json.key_separator ++ value)).
    apply Forall_app. split; [apply Forall_json_char_string|].
    apply Forall_app. split; [repeat constructor; destruct b; reflexivity|].
    apply (Forall_json_char_scalar b v value Ev).
Qed.

Lemma Forall_json_char_dumps (b : bool) (data : TableRows) (text : list ascii) :
  Json.dumps data b = Ok text -> Forall (fun c => json_char b c = true) text.
Proof.
  unfold Json.dumps.
  destruct (Json.encode_records b data) as [items|e] eqn:E; [|discriminate].
  cbn [mbind result_mbind result_bind]. intros [= <-].
  constructor; [destruct b; reflexivity|].
  apply Forall_app. split; [|repeat constructor; destruct b; reflexivity].
  apply Forall_join; [repeat constructor; destruct b; reflexivity|].
  revert items E. induction data as [|r data IH]; intros items; cbn [Json.encode_records].
  - intros [= <-]. constructor.
  - unfold Json.encode_record.
    destruct (Json.encode_items b r) as [ritems|e] eqn:Er; [|discriminate].
    cbn [mbind result_mbind result_bind].
    destruct (Json.encode_records b data) as [rest|e]; [|discriminate].
    cbn [mbind result_mbind result_bind]. intros [= <-]. constructor; [|apply IH; reflexivity].
    constructor; [destruct b; reflexivity|].
    apply Forall_app. split; [|repeat constructor; destruct b; reflexivity].
    apply Forall_join; [repeat constructor; destruct b; reflexivity|].
    apply (Forall_json_char_items b r ritems Er).
Qed.

(** X20: the file that [dump] of the JSON syncer writes holds no control
    character, hence no line break: it is one line; with the default
    encoding it holds nothing but the printable characters of ASCII. *)
Theorem json_file_is_one_line (self : JSON.JSON) (w w1 : World) (name : string)
  (data : TableRows) :
  data <> [] ->
  JSON.dump self w name data = (w1, Ok tt) ->
  exists text,
    files w1 !! JSON.make_filename self name = Some text
    /\ Forall (fun c => (32 <= nat_of_ascii c)%nat) text
    /\ (JSON.encoding self = None -> Forall (fun c => (nat_of_ascii c <= 126)%nat) text).
Proof.
  intros Hne Hdump.
  destruct (Json.dumps data (ensure_ascii_of self)) as [text|e] eqn:Ht.
  - destruct (Path.open w (JSON.make_filename self name) Path.mode_w) as [w'|e] eqn:Ho.
    + destruct (json_dump_writes self w w' name data text Hne Ht Ho) as [D F].
      rewrite D in Hdump. injection Hdump as <-.
      exists text. split; [exact F|].
      pose proof (Forall_json_char_dumps _ _ _ Ht) as Hall. split.
      * eapply Forall_impl; [exact Hall|]. intros c Hc. unfold json_char in Hc.
        apply andb_true_iff in Hc as [Hc _]. apply Nat.leb_le. exact Hc.
      * intros Henc. unfold ensure_ascii_of in Hall. rewrite Henc in Hall.
        eapply Forall_impl; [exact Hall|]. intros c Hc. unfold json_char in Hc.
        apply andb_true_iff in Hc as [_ Hc]. cbn [negb orb] in Hc.
        apply Nat.leb_le. exact Hc.
    + unfold JSON.dump in Hdump. destruct data; [congruence|].
      fold (ensure_ascii_of self) in Hdump. rewrite Ht, Ho in Hdump. discriminate.
  - unfold JSON.dump in Hdump. destruct data; [congruence|].
    fold (ensure_ascii_of self) in Hdump. rewrite Ht in Hdump. discriminate.
Qed.

Lemma json_file_is_one_line_witness :
  exists text,
    files (JSON.dump example_json example_world "t" example_rows).1 !! "out/t.json"
    = Some text
    /\ Forall (fun c => (32 <= nat_of_ascii c)%nat) text
    /\ (JSON.encoding example_json = None ->
        Forall (fun c => (nat_of_ascii c <= 126)%nat) text).
Proof.
  apply (json_file_is_one_line example_json example_world
           (JSON.dump example_json example_world "t" example_rows).1 "t" example_rows).
  - discriminate.
  - reflexivity.
Defined.

(** ** Loading an empty file *)

Lemma skip_ws_all (s : list ascii) :
  Forall (fun c => Json.is_ws c = true) s -> Json.skip_ws s = [].
Proof. induction 1 as [|c s Hc _ IH]; [reflexivity|]. cbn [Json.skip_ws]. rewrite Hc. exact IH. Qed.

(** X21: a file that is there and empty loads as the empty batch with both
    syncers, and so does a CSV file that holds its header line only; a
    JSON file that holds nothing but white space is not taken for empty:
    [load] raises [JSONDecodeError]. *)
Theorem load_of_an_empty_file (csv : CSV.CSV) (json : JSON.JSON) (w : World)
  (name : string) :
  (files w !! CSV.path_of csv name = Some [] ->
   CSV.path_of csv name ∉ dirs w ->
   single_characters csv ->
   CSV.load csv w name = Ok (PyList []))
  /\ (forall dialect columns header_line,
        separable dialect ->
        Csv.dialect_new (CSV.dialect_and_format_parameters csv) = Ok dialect ->
        columns <> [] -> NoDup columns -> Forall short columns ->
        Csv.writeheader dialect columns = Ok header_line ->
        files w !! CSV.path_of csv name = Some header_line ->
        CSV.path_of csv name ∉ dirs w ->
        CSV.load csv w name = Ok (PyList []))
  /\ (files w !! JSON.make_filename json name = Some [] ->
      JSON.make_filename json name ∉ dirs w ->
      JSON.load json w name = Ok (PyList []))
  /\ (forall text,
        files w !! JSON.make_filename json name = Some text ->
        JSON.make_filename json name ∉ dirs w ->
        text <> [] ->
        Forall (fun c => Json.is_ws c = true) text ->
        JSON.load json w name = Raise (JSONDecodeError "Expecting value")).
Proof.
  split; [|split; [|split]].
  - intros Hfile Hdir Hs. unfold CSV.load.
    assert (Path.is_dir w (CSV.path_of csv name) = false) as Hd
      by (apply bool_decide_eq_false_2; exact Hdir).
    unfold Path.exists_, Path.is_file, Path.open. rewrite Hfile, Hd.
    rewrite bool_decide_eq_true_2 by eauto. cbn [orb negb mbind result_mbind result_bind].
    destruct (dialect_of_syncer csv Hs) as (dialect & -> & _).
    cbn [mbind result_mbind result_bind]. unfold Path.read. rewrite Hfile. reflexivity.
  - intros dialect columns header_line Hsep Hnew Hne Hnd Hshort Hheader Hfile Hdir.
    unfold CSV.load.
    assert (Path.is_dir w (CSV.path_of csv name) = false) as Hd
      by (apply bool_decide_eq_false_2; exact Hdir).
    rewrite (writeheader_separable dialect Hsep) in Hheader. injection Hheader as <-.
    unfold Path.exists_, Path.is_file, Path.open. rewrite Hfile, Hd.
    rewrite bool_decide_eq_true_2 by eauto. cbn [orb negb mbind result_mbind result_bind].
    rewrite Hnew. cbn [mbind result_mbind result_bind].
    unfold Path.read. rewrite Hfile. cbn [default from_option id].
    pose proof (DictReader_encoded dialect Hsep columns [] Hne Hnd Hshort (Forall_nil_2 _))
      as Hread.
    cbn [map flat_map] in Hread. rewrite app_nil_r in Hread. rewrite Hread. reflexivity.
  - intros Hfile Hdir. unfold JSON.load, Path.open.
    rewrite (bool_decide_eq_false_2 _ Hdir : Path.is_dir w _ = false), Hfile.
    cbn [mbind result_mbind result_bind]. unfold Path.read. rewrite Hfile. reflexivity.
  - intros text Hfile Hdir Hne Hws. unfold JSON.load, Path.open.
    rewrite (bool_decide_eq_false_2 _ Hdir : Path.is_dir w _ = false), Hfile.
    cbn [mbind result_mbind result_bind]. unfold Path.read. rewrite Hfile.
    cbn [default from_option id]. destruct text as [|c text]; [congruence|].
    unfold Json.loads. rewrite (skip_ws_all _ Hws). reflexivity.
Qed.

Lemma load_of_an_empty_file_witness :
  CSV.load (example_syncer CSV.APPEND) example_empty_files "t" = Ok (PyList [])
  /\ JSON.load example_json example_empty_files "t" = Ok (PyList []).
Proof.
  destruct (load_of_an_empty_file (example_syncer CSV.APPEND) example_json
              example_empty_files "t") as (Hcsv & _ & Hjson & _).
  split.
  - apply Hcsv.
    + reflexivity.
    + apply (bool_decide_unpack _). vm_compute. exact I.
    + split; reflexivity.
  - apply Hjson.
    + reflexivity.
    + apply (bool_decide_unpack _). vm_compute. exact I.
Defined.

(** ** The git-configuration commands when the call succeeds *)

(** X22: when the remote call succeeds, [create] and [update] print one
    table and [search] one table for each configuration returned; the
    tables are titled [Configuration Details] and their number, whatever
    title the command passes, and their rows are the properties of the
    configuration with the text of their values. *)
Theorem git_config_prints_numbered_tables (ts : GitConfig.ThoughtSpot) :
  let table (i : nat) (config : record) :=
    GitConfig.CenteredTable ("Configuration Details " +:+ str_of_int (Z.of_nat (S i)))
      (map (fun kv => (fst kv, py_str (snd kv))) config) in
  (forall url user token org branches commit guid conf r,
     GitConfig.switch_org ts org = Ok tt ->
     GitConfig.vcs_git_config_create ts url user token org branches commit guid conf = Ok r ->
     GitConfig.config_create ts (Some url) (Some user) (Some token) org branches commit guid
       conf
     = ([table 0%nat (GitConfig.json r)], Ok tt))
  /\ (forall user token org branches commit guid conf r,
        GitConfig.switch_org ts org = Ok tt ->
        GitConfig.vcs_git_config_update ts user token org branches commit guid conf = Ok r ->
        GitConfig.config_update ts user token org branches commit guid conf
        = ([table 0%nat (GitConfig.json r)], Ok tt))
  /\ (forall org org_ids r,
        GitConfig.switch_org ts org = Ok tt ->
        GitConfig.vcs_git_config_search ts org_ids = Ok r ->
        GitConfig.config_search ts org org_ids = (imap table (GitConfig.json r), Ok tt))
  /\ (forall configs title title',
        GitConfig._show_configs_as_table configs title
        = GitConfig._show_configs_as_table configs title'
        /\ length (GitConfig._show_configs_as_table configs title) = length configs).
Proof.
  intros table. split; [|split; [|split]].
  - intros url user token org branches commit guid conf r Hs Hc.
    unfold GitConfig.config_create. rewrite Hs. unfold GitConfig.try_call. rewrite Hc.
    reflexivity.
  - intros user token org branches commit guid conf r Hs Hc.
    unfold GitConfig.config_update. rewrite Hs. unfold GitConfig.try_call. rewrite Hc.
    reflexivity.
  - intros org org_ids r Hs Hc.
    unfold GitConfig.config_search. rewrite Hs. unfold GitConfig.try_call. rewrite Hc.
    reflexivity.
  - intros configs title title'. split; [reflexivity|].
    unfold GitConfig._show_configs_as_table. apply length_imap.
Qed.

Lemma git_config_prints_numbered_tables_witness :
  GitConfig.config_search working_api None None
  = ([GitConfig.CenteredTable "Configuration Details 1"
        [("repository_url", "https://example.com/repo.git"); ("enable_guid_mapping", "True")];
      GitConfig.CenteredTable "Configuration Details 2"
        [("repository_url", "https://example.com/repo.git"); ("enable_guid_mapping", "True")]],
     Ok tt).
Proof.
  destruct (git_config_prints_numbered_tables working_api) as (_ & _ & Hsearch & _).
  apply (Hsearch None None
           {| GitConfig.text_of := "<Response [200 OK]>";
              GitConfig.json := [[("repository_url", VText "https://example.com/repo.git");
                                  ("enable_guid_mapping", VBool true)];
                                 [("repository_url", VText "https://example.com/repo.git");
                                  ("enable_guid_mapping", VBool true)]] |});
    reflexivity.
Defined.

(** X23: [create] called without the repository, the user name or the
    access token prints one line and returns: the org is not switched and
    the remote API is not called, whatever it would answer. *)
Theorem config_create_needs_three_values (ts : GitConfig.ThoughtSpot)
  (repository_url username access_token org : option string)
  (branch_names : option (list string)) (commit_branch_name : option string)
  (enable_guid_mapping : bool) (configuration_branch_name : option string) :
  repository_url = None \/ username = None \/ access_token = None ->
  GitConfig.config_create ts repository_url username access_token org branch_names
    commit_branch_name enable_guid_mapping configuration_branch_name
  = ([GitConfig.Line
        "[b red]Must minimally provide the repository, username, and access_token."],
     Ok tt).
Proof.
  intros [-> | [-> | ->]]; unfold GitConfig.config_create;
    repeat match goal with |- context [match ?x with Some _ => _ | None => _ end] =>
             destruct x end; reflexivity.
Qed.

Lemma config_create_needs_three_values_witness :
  GitConfig.config_create failing_api (Some "url") None (Some "token") (Some "org") None None
    false None
  = ([GitConfig.Line
        "[b red]Must minimally provide the repository, username, and access_token."],
     Ok tt).
Proof.
  apply (config_create_needs_three_values failing_api (Some "url") None (Some "token")).
  right. left. reflexivity.
Defined.

(** ** [anonymize] *)

Lemma startswith_app (u b : list ascii) : Builtins.startswith (u ++ b) u = true.
Proof.
  induction u as [|c u IH]; [destruct b; reflexivity|].
  cbn [app Builtins.startswith]. rewrite Ascii.eqb_refl. exact IH.
Qed.

Lemma startswith_split (s u : list ascii) :
  Builtins.startswith s u = true -> exists b, s = u ++ b.
Proof.
  revert s. induction u as [|c u IH]; intros s Hs; [exists s; reflexivity|].
  destruct s as [|d s]; [discriminate|]. cbn [Builtins.startswith] in Hs.
  apply andb_true_iff in Hs as [Hc Hs]. apply Ascii.eqb_eq in Hc as ->.
  destruct (IH s Hs) as [b ->]. exists b. reflexivity.
Qed.

(** [contains] finds the occurrences. *)
Lemma contains_spec (s u : list ascii) :
  Builtins.contains s u = true <-> exists a b, s = a ++ u ++ b.
Proof.
  split.
  - induction s as [|c s IH]; cbn [Builtins.contains]; intros H;
      apply orb_true_iff in H as [H|H].
    + destruct (startswith_split _ _ H) as [b ->]. exists [], b. reflexivity.
    + discriminate.
    + destruct (startswith_split _ _ H) as [b ->]. exists [], b. reflexivity.
    + destruct (IH H) as (a & b & ->). exists (c :: a), b. reflexivity.
  - intros (a & b & ->). induction a as [|c a IH].
    + cbn [app]. destruct (u ++ b) eqn:E; cbn [Builtins.contains]; rewrite <- E;
        rewrite startswith_app; reflexivity.
    + cbn [app Builtins.contains]. rewrite IH. apply orb_true_r.
Qed.

(** An occurrence cannot go across a character that the text looked for
    does not have. *)
Lemma contains_across (u x y : list ascii) (c : ascii) :
  c ∉ u ->
  Builtins.contains (x ++ c :: y) u = true ->
  Builtins.contains x u = true \/ Builtins.contains y u = true.
Proof.
  intros Hc H. apply contains_spec in H as (a & b & H).
  apply app_eq_inv in H as [(k & -> & H)|(k & -> & H)].
  - left. apply app_eq_inv in H as [(k' & -> & H)|(k' & -> & H)].
    + destruct k' as [|c' k'].
      * apply contains_spec. exists a, []. rewrite !app_nil_r. reflexivity.
      * injection H as -> _. exfalso. apply Hc. apply elem_of_app. right. left.
    + apply contains_spec. exists a, k'. reflexivity.
  - destruct k as [|c' k].
    + destruct u as [|c' u].
      * left. apply contains_spec. exists [], x. reflexivity.
      * injection H as -> _. exfalso. apply Hc. left.
    + injection H as _ ->. right. apply contains_spec. exists k, b. reflexivity.
Qed.

Section ReplaceFacts.
Variables (old middle : list ascii) (first last : ascii).
Hypothesis Hold : old <> [].
Hypothesis Hfirst : first ∉ old.
Hypothesis Hlast : last ∉ old.
Hypothesis Hmiddle : Builtins.contains middle old = false.

Local Abbreviation new := (first :: middle ++ [last]).

Lemma replace_loop_skip (skip : nat) (s : list ascii) :
  Builtins.replace_loop old new skip s = Builtins.replace_loop old new 0 (drop skip s).
Proof.
  revert skip. induction s as [|c s IH]; intros [|skip]; try reflexivity.
  cbn [Builtins.replace_loop drop]. apply IH.
Qed.

(** What the result starts with, the text started with, up to the first
    character of the replacement. *)
Lemma startswith_replace_loop (s u : list ascii) :
  first ∉ u ->
  Builtins.startswith (Builtins.replace_loop old new 0 s) u = true ->
  Builtins.startswith s u = true.
Proof.
  revert u. induction s as [|c s IH]; intros u Hu H.
  - exact H.
  - destruct u as [|p u]; [reflexivity|]. cbn [Builtins.replace_loop] in H.
    destruct (Builtins.startswith (c :: s) old).
    + cbn [app Builtins.startswith] in H. apply andb_true_iff in H as [Hp _].
      apply Ascii.eqb_eq in Hp as ->. exfalso. apply Hu. left.
    + cbn [Builtins.startswith] in *. apply andb_true_iff in H as [Hp H].
      rewrite Hp. cbn [andb]. apply IH; [|exact H].
      intros Hin. apply Hu. right. exact Hin.
Qed.

(** The result of the replacement has no occurrence of the text
    replaced. *)
Lemma replace_loop_clean (s : list ascii) :
  Builtins.contains (Builtins.replace_loop old new 0 s) old = false.
Proof.
  remember (length s) as n eqn:Hn. revert s Hn.
  induction n as [n IH] using lt_wf_ind. intros s Hn.
  destruct s as [|c s].
  - cbn [Builtins.replace_loop Builtins.contains]. destruct old; [congruence | reflexivity].
  - cbn [Builtins.replace_loop].
    destruct (Builtins.startswith (c :: s) old) eqn:Hstart.
    + rewrite replace_loop_skip.
      assert (Builtins.contains
                (Builtins.replace_loop old new 0 (drop (length old - 1) s)) old = false) as Hrest.
      { apply (IH (length (drop (length old - 1) s))); [|reflexivity].
        rewrite length_drop. simpl in Hn. lia. }
      apply not_true_is_false. intros H.
      assert (forall r, new ++ r = (first :: middle) ++ last :: r) as Heq
        by (intros r; cbn [app]; rewrite <- app_assoc; reflexivity).
      rewrite Heq in H.
      apply (contains_across old _ _ last Hlast) in H as [H|H]; [|congruence].
      apply (contains_across old [] middle first Hfirst) in H as [H|H]; [|congruence].
      cbn [Builtins.contains] in H. destruct old; [congruence | discriminate].
    + assert (Builtins.contains (Builtins.replace_loop old new 0 s) old = false) as Hrest.
      { apply (IH (length s)); [simpl in Hn; lia | reflexivity]. }
      cbn [Builtins.contains]. rewrite Hrest, orb_false_r.
      apply not_true_is_false. intros H.
      destruct old as [|p old'] eqn:Eold; [congruence|].
      cbn [Builtins.startswith] in *. apply andb_true_iff in H as [Hp H].
      rewrite Hp in Hstart. cbn [andb] in Hstart. rewrite <- Eold in H.
      rewrite (startswith_replace_loop s old') in Hstart; [discriminate | | exact H].
      intros Hin. apply Hfirst. right. exact Hin.
Qed.
End ReplaceFacts.

(** X24: [anonymize] with the default anonymizer leaves no occurrence of
    the user name in the text when the user name has no space and does not
    occur in [[dim]{anonymous}[/]]; in general, when the anonymizer
    begins and ends with characters that the user name does not have and
    holds no occurrence of the user name in between.  A user name that
    occurs in the anonymizer stays visible: for the user [dim] the result
    still mentions [dim]. *)
Theorem anonymize_removes_user (user text : string) :
  user <> "" ->
  (" "%char ∉ list_ascii_of_string user ->
   mentions "[dim]{anonymous}[/]" user = false ->
   mentions (UtilsValues.anonymize user text UtilsValues.default_anonymizer) user = false)
  /\ (forall (first last : ascii) (middle : string),
        first ∉ list_ascii_of_string user ->
        last ∉ list_ascii_of_string user ->
        mentions middle user = false ->
        mentions (UtilsValues.anonymize user text (String first middle +:+ String last ""))
          user = false)
  /\ mentions (UtilsValues.anonymize "dim" "dim" UtilsValues.default_anonymizer) "dim" = true.
Proof.
  intros Huser.
  assert (forall (first last : ascii) (middle : string),
            first ∉ list_ascii_of_string user ->
            last ∉ list_ascii_of_string user ->
            mentions middle user = false ->
            mentions (UtilsValues.anonymize user text
                        (String first middle +:+ String last "")) user = false) as Hclean.
  { intros first last middle Hfirst Hlast Hmiddle.
    unfold mentions, UtilsValues.anonymize, Builtins.replace.
    rewrite list_ascii_of_string_of_list_ascii.
    destruct (list_ascii_of_string user) as [|p old] eqn:Eold.
    - destruct user; [congruence | discriminate].
    - rewrite list_ascii_of_string_app. cbn [list_ascii_of_string app].
      apply (replace_loop_clean (p :: old) (list_ascii_of_string middle) first last);
        [discriminate | exact Hfirst | exact Hlast |].
      unfold mentions in Hmiddle. rewrite Eold in Hmiddle. exact Hmiddle. }
  split; [|split; [exact Hclean | reflexivity]].
  intros Hspace Hmiddle.
  apply (Hclean " "%char " "%char "[dim]{anonymous}[/]" Hspace Hspace Hmiddle).
Qed.

Lemma anonymize_removes_user_witness :
  (" "%char ∉ list_ascii_of_string "root" ->
   mentions "[dim]{anonymous}[/]" "root" = false ->
   mentions (UtilsValues.anonymize "root" "root owns /home/root"
               UtilsValues.default_anonymizer) "root" = false)
  /\ (forall (first last : ascii) (middle : string),
        first ∉ list_ascii_of_string "root" ->
        last ∉ list_ascii_of_string "root" ->
        mentions middle "root" = false ->
        mentions (UtilsValues.anonymize "root" "root owns /home/root"
                    (String first middle +:+ String last "")) "root" = false)
  /\ mentions (UtilsValues.anonymize "dim" "dim" UtilsValues.default_anonymizer) "dim" = true.
Proof. apply (anonymize_removes_user "root" "root owns /home/root"). discriminate. Defined.

(** ** Deleting a git configuration *)

(** X25: [delete] without an org prints the warning that the configuration
    of the current org will be deleted and deletes all the same; with an
    org it switches to the org first, and when the switch raises, the
    command ends with that exception, nothing printed and nothing
    deleted.  After the deletion the command prints one line with the
    response. *)
Theorem config_delete_outcomes (ts : GitConfig.ThoughtSpot) (cluster_level : bool) :
  (forall r,
     GitConfig.vcs_git_config_delete ts cluster_level = Ok r ->
     GitConfig.config_delete ts None cluster_level
     = ([GitConfig.Line
           "[bold yellow]No org specified, the config in the current org will be deleted.";
         GitConfig.Line ("[green]Deleted the configuration: " +:+ GitConfig.text_of r +:+ ".")],
        Ok tt))
  /\ (forall org r,
        GitConfig.org_switch ts org = Ok tt ->
        GitConfig.vcs_git_config_delete ts cluster_level = Ok r ->
        GitConfig.config_delete ts (Some org) cluster_level
        = ([GitConfig.Line ("[green]Deleted the configuration: "
                            +:+ GitConfig.text_of r +:+ ".")],
           Ok tt))
  /\ (forall org e,
        GitConfig.org_switch ts org = Raise e ->
        GitConfig.config_delete ts (Some org) cluster_level = ([], Raise e)).
Proof.
  split; [|split].
  - intros r Hr. unfold GitConfig.config_delete, GitConfig.try_call. rewrite Hr. reflexivity.
  - intros org r Hs Hr. unfold GitConfig.config_delete, GitConfig.try_call.
    rewrite Hs, Hr. reflexivity.
  - intros org e Hs. unfold GitConfig.config_delete. rewrite Hs. reflexivity.
Qed.

Lemma config_delete_outcomes_witness :
  GitConfig.config_delete working_api None false
  = ([GitConfig.Line
        "[bold yellow]No org specified, the config in the current org will be deleted.";
      GitConfig.Line "[green]Deleted the configuration: <Response [204 No Content]>."],
     Ok tt).
Proof.
  destruct (config_delete_outcomes working_api false) as (Hnone & _).
  apply (Hnone {| GitConfig.text_of := "<Response [204 No Content]>"; GitConfig.json := tt |}).
  reflexivity.
Defined.
